(** * Stream workers and stream contexts of the default audio HAL

    A shallow embedding of [audio/aidl/default/Stream.cpp] (the capture and
    playback worker cycles with their [read] / [write] helpers, the reply
    builders and [StreamContext::fillDescriptor] / [isValid]) and of
    [Module::createStreamContext] from [audio/aidl/default/Module.cpp].

    Data model: LP64.  [size_t] is a 64-bit unsigned integer, [int32_t] and
    [int64_t] are two's complement; all of them are carried as [Z] with the
    wrap-around of each conversion written out.  Everything a cycle obtains
    from outside the worker (the three message queues, the driver, the
    clocks, the connection flag, the asynchronous callback) is read from an
    [Env] value, one per cycle, and everything it does to the outside is
    recorded as a list of [Event]s. *)

From stdpp Require Import base list numbers.
From Stdlib Require Import ZArith Lia.

Local Open Scope Z_scope.

(** ** Machine integers *)

Definition to_size_t (z : Z) : Z := z mod 2 ^ 64.
Definition to_int32 (z : Z) : Z := (z + 2 ^ 31) mod 2 ^ 32 - 2 ^ 31.
Definition to_int64 (z : Z) : Z := (z + 2 ^ 63) mod 2 ^ 64 - 2 ^ 63.

Definition INT32_MAX : Z := 2 ^ 31 - 1.

(** ** StreamDescriptor: states, commands, replies *)

Inductive State :=
| STANDBY | IDLE | ACTIVE | PAUSED | DRAINING | TRANSFERRING | ERROR
| DRAIN_PAUSED | TRANSFER_PAUSED.

Inductive DrainMode := DRAIN_UNSPECIFIED | DRAIN_ALL | DRAIN_EARLY_NOTIFY.

Inductive Command :=
| halReservedExit (cookie : Z)
| getStatus
| start
| burst (fmqByteCount : Z)
| drain (mode : DrainMode)
| standby
| pause
| flush.

(** The status codes a reply carries. *)
Inductive ReplyStatus :=
| STATUS_OK | STATUS_BAD_VALUE | STATUS_INVALID_OPERATION | STATUS_NOT_ENOUGH_DATA.

Record Position := { frames : Z; timeNs : Z }.

Record Reply := {
  status : ReplyStatus;
  state : State;
  observable : Position;
  fmqByteCount : Z;
  latencyMs : Z
}.

Abbreviation reply_fmqByteCount := fmqByteCount (only parsing).

Definition set_status (s : ReplyStatus) (r : Reply) : Reply :=
  {| status := s; state := state r; observable := observable r;
     fmqByteCount := fmqByteCount r; latencyMs := latencyMs r |}.
Definition set_state (s : State) (r : Reply) : Reply :=
  {| status := status r; state := s; observable := observable r;
     fmqByteCount := fmqByteCount r; latencyMs := latencyMs r |}.
Definition set_observable (p : Position) (r : Reply) : Reply :=
  {| status := status r; state := state r; observable := p;
     fmqByteCount := fmqByteCount r; latencyMs := latencyMs r |}.
Definition set_fmqByteCount (n : Z) (r : Reply) : Reply :=
  {| status := status r; state := state r; observable := observable r;
     fmqByteCount := n; latencyMs := latencyMs r |}.
Definition set_latencyMs (n : Z) (r : Reply) : Reply :=
  {| status := status r; state := state r; observable := observable r;
     fmqByteCount := fmqByteCount r; latencyMs := n |}.

Global Instance State_eq_dec : EqDecision State.
Proof. solve_decision. Defined.
Global Instance DrainMode_eq_dec : EqDecision DrainMode.
Proof. solve_decision. Defined.
Global Instance ReplyStatus_eq_dec : EqDecision ReplyStatus.
Proof. solve_decision. Defined.

(** ** The worker object

    The members of [StreamWorkerCommonLogic] together with the ones the
    playback worker adds.  [mAsyncCallback] is [None] for a null pointer. *)

Inductive IStreamCallback := StreamCallback (id : nat).

Record Worker := {
  mState : State;
  mFrameCount : Z;
  mDataBuffer : list Z;
  mDataBufferSize : Z;
  mFrameSize : Z;
  mInternalCommandCookie : Z;
  mTransientStateDelayMs : Z;
  mTransientStateStart : Z;
  mAsyncCallback : option IStreamCallback;
  mForceTransientBurst : bool;
  mForceSynchronousDrain : bool;
  mClosed : bool
}.

Definition with_mState (s : State) (w : Worker) : Worker :=
  {| mState := s; mFrameCount := mFrameCount w; mDataBuffer := mDataBuffer w;
     mDataBufferSize := mDataBufferSize w; mFrameSize := mFrameSize w;
     mInternalCommandCookie := mInternalCommandCookie w;
     mTransientStateDelayMs := mTransientStateDelayMs w;
     mTransientStateStart := mTransientStateStart w;
     mAsyncCallback := mAsyncCallback w;
     mForceTransientBurst := mForceTransientBurst w;
     mForceSynchronousDrain := mForceSynchronousDrain w;
     mClosed := mClosed w |}.
Definition with_mFrameCount (n : Z) (w : Worker) : Worker :=
  {| mState := mState w; mFrameCount := n; mDataBuffer := mDataBuffer w;
     mDataBufferSize := mDataBufferSize w; mFrameSize := mFrameSize w;
     mInternalCommandCookie := mInternalCommandCookie w;
     mTransientStateDelayMs := mTransientStateDelayMs w;
     mTransientStateStart := mTransientStateStart w;
     mAsyncCallback := mAsyncCallback w;
     mForceTransientBurst := mForceTransientBurst w;
     mForceSynchronousDrain := mForceSynchronousDrain w;
     mClosed := mClosed w |}.
Definition with_mDataBuffer (b : list Z) (w : Worker) : Worker :=
  {| mState := mState w; mFrameCount := mFrameCount w; mDataBuffer := b;
     mDataBufferSize := mDataBufferSize w; mFrameSize := mFrameSize w;
     mInternalCommandCookie := mInternalCommandCookie w;
     mTransientStateDelayMs := mTransientStateDelayMs w;
     mTransientStateStart := mTransientStateStart w;
     mAsyncCallback := mAsyncCallback w;
     mForceTransientBurst := mForceTransientBurst w;
     mForceSynchronousDrain := mForceSynchronousDrain w;
     mClosed := mClosed w |}.
Definition with_mTransientStateStart (t : Z) (w : Worker) : Worker :=
  {| mState := mState w; mFrameCount := mFrameCount w;
     mDataBuffer := mDataBuffer w;
     mDataBufferSize := mDataBufferSize w; mFrameSize := mFrameSize w;
     mInternalCommandCookie := mInternalCommandCookie w;
     mTransientStateDelayMs := mTransientStateDelayMs w;
     mTransientStateStart := t;
     mAsyncCallback := mAsyncCallback w;
     mForceTransientBurst := mForceTransientBurst w;
     mForceSynchronousDrain := mForceSynchronousDrain w;
     mClosed := mClosed w |}.
Definition with_mClosed (b : bool) (w : Worker) : Worker :=
  {| mState := mState w; mFrameCount := mFrameCount w;
     mDataBuffer := mDataBuffer w;
     mDataBufferSize := mDataBufferSize w; mFrameSize := mFrameSize w;
     mInternalCommandCookie := mInternalCommandCookie w;
     mTransientStateDelayMs := mTransientStateDelayMs w;
     mTransientStateStart := mTransientStateStart w;
     mAsyncCallback := mAsyncCallback w;
     mForceTransientBurst := mForceTransientBurst w;
     mForceSynchronousDrain := mForceSynchronousDrain w;
     mClosed := b |}.

(** ** What a cycle sees of the outside, and what it does to it *)

(** [::android::OK] of the driver's [status_t]. *)
Definition OK : Z := 0.

Record TransferResult := {
  tr_status : Z;
  tr_actualFrameCount : Z;
  tr_latencyMs : Z;
  tr_buffer : list Z
}.

Record Env := {
  (* mCommandMQ->readBlocking(&command, 1); None when it returns false *)
  commandMQ_readBlocking : option Command;
  (* mReplyMQ->writeBlocking(&reply, 1) *)
  replyMQ_writeBlocking : Reply -> bool;
  (* mDataMQ *)
  dataMQ_availableToWrite : Z;
  dataMQ_availableToRead : Z;
  dataMQ_write : list Z -> bool;
  dataMQ_read : Z -> option (list Z);
  (* the atomic mIsConnected, as loaded in this cycle *)
  mIsConnected : bool;
  (* ::android::elapsedRealtimeNano() *)
  elapsedRealtimeNano : Z;
  (* std::chrono::steady_clock::now(), in nanoseconds, at the head of the
     cycle and at the point where a transient state is entered *)
  steady_clock_now : Z;
  steady_clock_now_switch : Z;
  (* mDriver *)
  driver_transfer : list Z -> Z -> TransferResult;
  driver_drain : DrainMode -> Z;
  driver_standby : Z;
  driver_pause : Z;
  driver_flush : Z
}.

Inductive Event :=
| CommandRead (c : option Command)
| ReplyWrite (r : Reply) (ok : bool)
| DataWrite (bytes : list Z) (count : Z) (ok : bool)
| DataRead (count : Z) (ok : bool)
| DriverTransfer (frameCount : Z)
| DriverDrain (mode : DrainMode)
| DriverStandby
| DriverPause
| DriverFlush
| OnDrainReady
| OnTransferReady
| Usleep (us : Z)
| SetClosed.

(** [Status] of [StreamWorker]'s logic. *)
Inductive Status := ABORT | EXIT | CONTINUE.

(** ** The worker monad: the worker object as state, the events as output *)

Definition M (A : Type) : Type := Worker -> A * Worker * list Event.

Definition result {A} (r : A * Worker * list Event) : A := fst (fst r).
Definition worker {A} (r : A * Worker * list Event) : Worker := snd (fst r).
Definition trace {A} (r : A * Worker * list Event) : list Event := snd r.

Definition ret {A} (a : A) : M A := fun w => (a, w, []).
Definition bind {A B} (m : M A) (k : A -> M B) : M B :=
  fun w =>
    let '(a, w1, t1) := m w in
    let '(b, w2, t2) := k a w1 in
    (b, w2, t1 ++ t2).
Definition gets {A} (f : Worker -> A) : M A := fun w => (f w, w, []).
Definition modify (f : Worker -> Worker) : M unit := fun w => (tt, f w, []).
Definition emit (e : Event) : M unit := fun w => (tt, w, [e]).

Declare Scope worker_scope.
Delimit Scope worker_scope with worker.
Notation "x <- c ;; k" := (bind c (fun x => k))
  (at level 100, c at next level, k at level 200, right associativity)
  : worker_scope.
Notation "c ;; k" := (bind c (fun _ => k))
  (at level 100, k at level 200, right associativity) : worker_scope.

(** ** Declarations the two sources take from headers outside the sources

    [Stream.cpp] and [Module.cpp] use constants and helpers declared in
    [core-impl/Module.h], [Utils.h] and the AIDL interfaces.  They are
    parameters of the development. *)

Class Headers := {
  (* StreamDescriptor::Position::UNKNOWN *)
  Position_UNKNOWN : Z;
  (* Module::kLatencyMs, kMinimumStreamBufferSizeFrames,
     kMaximumStreamBufferSizeBytes *)
  kLatencyMs : Z;
  kMinimumStreamBufferSizeFrames : Z;
  kMaximumStreamBufferSizeBytes : Z;
  (* the audio format and channel layout structures and
     getFrameSizeInBytes(format, layout), a size_t *)
  AudioFormatDescription : Type;
  AudioChannelLayout : Type;
  getFrameSizeInBytes : AudioFormatDescription -> AudioChannelLayout -> Z;
  (* isBitPositionFlagSet(mask, position) and the positions of the
     MMAP_NOIRQ flags *)
  isBitPositionFlagSet : Z -> Z -> bool;
  AudioInputFlags_MMAP_NOIRQ : Z;
  AudioOutputFlags_MMAP_NOIRQ : Z;
  (* sizeof of the elements of the command, reply and data queues *)
  sizeof_Command : Z;
  sizeof_Reply : Z;
  sizeof_DataBufferElement : Z
}.

(** ** StreamWorkerCommonLogic *)

Section CommonLogic.
Context `{Headers}.
Local Open Scope worker_scope.

(** [StreamDescriptor::Reply reply{}]: the positions start as [UNKNOWN],
    the counters as zero; [state] is assigned before the reply leaves the
    cycle. *)
Definition reply_init : Reply :=
  {| status := STATUS_OK; state := STANDBY;
     observable := {| frames := Position_UNKNOWN; timeNs := Position_UNKNOWN |};
     fmqByteCount := 0; latencyMs := 0 |}.

Definition populateReply (env : Env) (reply : Reply) (isConnected : bool)
  : M Reply :=
  let reply := set_status STATUS_OK reply in
  if isConnected then
    frameCount <- gets mFrameCount ;;
    ret (set_observable
           {| frames := frameCount; timeNs := elapsedRealtimeNano env |} reply)
  else
    ret (set_observable
           {| frames := Position_UNKNOWN; timeNs := Position_UNKNOWN |} reply).

Definition populateReplyWrongState (reply : Reply) (command : Command)
  : M Reply :=
  ret (set_status STATUS_INVALID_OPERATION reply).

(** Modelled from the spec: [setClosed] is defined in
    [core-impl/Stream.h], which is not among the sources.  The spec has a
    stream closed exactly once, the worker ending when it observes the
    internal exit command: the worker is marked closed. *)
Definition setClosed : M unit :=
  emit SetClosed ;; modify (with_mClosed true).

(** Modelled from the spec: [switchToTransientState] is defined in
    [core-impl/Stream.h], which is not among the sources.  The spec has
    the transient states resolve after a delay elapsed since entry, and
    calls a transient state entered again re-armed: the state is set and
    the time of entry recorded. *)
Definition switchToTransientState (env : Env) (s : State) : M unit :=
  modify (with_mState s) ;;
  modify (with_mTransientStateStart (steady_clock_now_switch env)).

(** The tail both [cycle] functions share: the reply takes the state
    the worker is in, and is written to the reply queue. *)
Definition writeReply (env : Env) (reply : Reply) : M Status :=
  s <- gets mState ;;
  let reply := set_state s reply in
  let ok := replyMQ_writeBlocking env reply in
  emit (ReplyWrite reply ok) ;;
  if ok then ret CONTINUE
  else modify (with_mState ERROR) ;; ret ABORT.

(** [for (size_t i = 0; i < byteCount; ++i) mDataBuffer[i] = 0;]
    [byteCount] is at most [mDataBufferSize], the number of elements [init]
    allocates for the buffer, so every index is in range; past the end of
    the list, where the source would write outside the buffer, the update
    on lists does nothing. *)
Fixpoint fillZeroFrom (n i : nat) (buf : list Z) : list Z :=
  match n with
  | O => buf
  | S n' => fillZeroFrom n' (S i) (<[i := 0]> buf)
  end.

Definition fillZero (byteCount : Z) (buf : list Z) : list Z :=
  fillZeroFrom (Z.to_nat byteCount) 0 buf.

End CommonLogic.

(** ** StreamInWorkerLogic: the capture worker *)

Module StreamInWorkerLogic.
Section Logic.
Context `{Headers}.
Local Open Scope worker_scope.

(** [StreamInWorkerLogic::read]: the pair returned holds the function's
    result ([!fatal]) and the reply as the function leaves it. *)
Definition read (env : Env) (clientSize : Z) (reply : Reply)
  : M (bool * Reply) :=
  dataBufferSize <- gets mDataBufferSize ;;
  frameSize <- gets mFrameSize ;;
  let byteCount :=
    Z.min (Z.min clientSize (dataMQ_availableToWrite env)) dataBufferSize in
  let isConnected := mIsConnected env in
  xfer <-
    (if isConnected then
       buffer <- gets mDataBuffer ;;
       emit (DriverTransfer (byteCount / frameSize)) ;;
       let r := driver_transfer env buffer (byteCount / frameSize) in
       modify (with_mDataBuffer (tr_buffer r)) ;;
       ret (tr_actualFrameCount r, negb (tr_status r =? OK), tr_latencyMs r)
     else
       emit (Usleep 3000) ;;
       modify (fun w => with_mDataBuffer (fillZero byteCount (mDataBuffer w)) w) ;;
       ret (byteCount / frameSize, false, kLatencyMs)) ;;
  let '(actualFrameCount, fatal, latency) := xfer in
  let actualByteCount := to_size_t (actualFrameCount * frameSize) in
  success <-
    (if 0 <? actualByteCount then
       buffer <- gets mDataBuffer ;;
       let bytes := take (Z.to_nat actualByteCount) buffer in
       let ok := dataMQ_write env bytes in
       emit (DataWrite bytes actualByteCount ok) ;;
       ret ok
     else ret true) ;;
  reply <-
    (if success : bool then
       let reply :=
         set_fmqByteCount (to_int32 (fmqByteCount reply + actualByteCount))
                          reply in
       modify (fun w =>
                 with_mFrameCount (to_int64 (mFrameCount w + actualFrameCount)) w) ;;
       populateReply env reply isConnected
     else ret (set_status STATUS_NOT_ENOUGH_DATA reply)) ;;
  ret (negb fatal, set_latencyMs latency reply).

(** The [switch] of [StreamInWorkerLogic::cycle]: [None] stands for the
    [return Status::EXIT] inside it, [Some reply] for falling out of the
    [switch] with that reply. *)
Definition dispatch (env : Env) (command : Command) (reply : Reply)
  : M (option Reply) :=
  match command with
  | halReservedExit cookie =>
      internalCookie <- gets mInternalCommandCookie ;;
      if cookie =? internalCookie then setClosed ;; ret None
      else ret (Some reply)
  | getStatus =>
      reply <- populateReply env reply (mIsConnected env) ;;
      ret (Some reply)
  | start =>
      s <- gets mState ;;
      if bool_decide (s = STANDBY) || bool_decide (s = DRAINING) then
        reply <- populateReply env reply (mIsConnected env) ;;
        modify (with_mState (if bool_decide (s = STANDBY) then IDLE else ACTIVE)) ;;
        ret (Some reply)
      else
        reply <- populateReplyWrongState reply command ;;
        ret (Some reply)
  | burst fmqByteCount =>
      if 0 <=? fmqByteCount then
        s <- gets mState ;;
        if bool_decide (s = IDLE) || bool_decide (s = ACTIVE)
           || bool_decide (s = PAUSED) || bool_decide (s = DRAINING) then
          r <- read env fmqByteCount reply ;;
          (if fst r then ret tt else modify (with_mState ERROR)) ;;
          s <- gets mState ;;
          (if bool_decide (s = IDLE) || bool_decide (s = PAUSED) then
             modify (with_mState ACTIVE)
           else if bool_decide (s = DRAINING) then
             modify (with_mState STANDBY)
           else ret tt) ;;
          ret (Some (snd r))
        else
          reply <- populateReplyWrongState reply command ;;
          ret (Some reply)
      else ret (Some reply)
  | drain mode =>
      if bool_decide (mode = DRAIN_UNSPECIFIED) then
        s <- gets mState ;;
        if bool_decide (s = ACTIVE) then
          emit (DriverDrain mode) ;;
          if driver_drain env mode =? OK then
            reply <- populateReply env reply (mIsConnected env) ;;
            modify (with_mState DRAINING) ;;
            ret (Some reply)
          else
            modify (with_mState ERROR) ;;
            ret (Some reply)
        else
          reply <- populateReplyWrongState reply command ;;
          ret (Some reply)
      else ret (Some reply)
  | standby =>
      s <- gets mState ;;
      if bool_decide (s = IDLE) then
        emit DriverStandby ;;
        if driver_standby env =? OK then
          reply <- populateReply env reply (mIsConnected env) ;;
          modify (with_mState STANDBY) ;;
          ret (Some reply)
        else
          modify (with_mState ERROR) ;;
          ret (Some reply)
      else
        reply <- populateReplyWrongState reply command ;;
        ret (Some reply)
  | pause =>
      s <- gets mState ;;
      if bool_decide (s = ACTIVE) then
        emit DriverPause ;;
        if driver_pause env =? OK then
          reply <- populateReply env reply (mIsConnected env) ;;
          modify (with_mState PAUSED) ;;
          ret (Some reply)
        else
          modify (with_mState ERROR) ;;
          ret (Some reply)
      else
        reply <- populateReplyWrongState reply command ;;
        ret (Some reply)
  | flush =>
      s <- gets mState ;;
      if bool_decide (s = PAUSED) then
        emit DriverFlush ;;
        if driver_flush env =? OK then
          reply <- populateReply env reply (mIsConnected env) ;;
          modify (with_mState STANDBY) ;;
          ret (Some reply)
        else
          modify (with_mState ERROR) ;;
          ret (Some reply)
      else
        reply <- populateReplyWrongState reply command ;;
        ret (Some reply)
  end.

(** [StreamInWorkerLogic::cycle] *)
Definition cycle (env : Env) : M Status :=
  match commandMQ_readBlocking env with
  | None =>
      emit (CommandRead None) ;;
      modify (with_mState ERROR) ;;
      ret ABORT
  | Some command =>
      emit (CommandRead (Some command)) ;;
      let reply := set_status STATUS_BAD_VALUE reply_init in
      r <- dispatch env command reply ;;
      match r with
      | None => ret EXIT
      | Some reply => writeReply env reply
      end
  end.

End Logic.
End StreamInWorkerLogic.

(** ** StreamOutWorkerLogic: the playback worker *)

Module StreamOutWorkerLogic.
Section Logic.
Context `{Headers}.
Local Open Scope worker_scope.

(** [std::chrono::duration_cast<milliseconds>(now - mTransientStateStart)]:
    the clock counts nanoseconds, the cast truncates towards zero. *)
Definition stateDurationMs (env : Env) (w : Worker) : Z :=
  Z.quot (steady_clock_now env - mTransientStateStart w) 1000000.

(** The head of [StreamOutWorkerLogic::cycle], up to the blocking read of
    the command queue: a transient state whose delay has elapsed is
    left. *)
Definition resolveTransientState (env : Env) : M unit :=
  s <- gets mState ;;
  if bool_decide (s = DRAINING) || bool_decide (s = TRANSFERRING) then
    duration <- gets (stateDurationMs env) ;;
    delay <- gets mTransientStateDelayMs ;;
    if delay <=? duration then
      asyncCallback <- gets mAsyncCallback ;;
      match asyncCallback with
      | None => modify (with_mState IDLE)
      | Some _ =>
          if bool_decide (s = DRAINING) then
            modify (with_mState IDLE) ;; emit OnDrainReady
          else
            modify (with_mState ACTIVE) ;; emit OnTransferReady
      end
    else ret tt
  else ret tt.

(** [StreamOutWorkerLogic::write] *)
Definition write (env : Env) (clientSize : Z) (reply : Reply)
  : M (bool * Reply) :=
  let readByteCount := dataMQ_availableToRead env in
  success <-
    (if 0 <? readByteCount then
       match dataMQ_read env readByteCount with
       | Some bytes =>
           emit (DataRead readByteCount true) ;;
           modify (fun w =>
                     with_mDataBuffer
                       (bytes ++ drop (length bytes) (mDataBuffer w)) w) ;;
           ret true
       | None => emit (DataRead readByteCount false) ;; ret false
       end
     else ret true) ;;
  if success : bool then
    let isConnected := mIsConnected env in
    dataBufferSize <- gets mDataBufferSize ;;
    frameSize <- gets mFrameSize ;;
    forceTransientBurst <- gets mForceTransientBurst ;;
    let byteCount := Z.min (Z.min clientSize readByteCount) dataBufferSize in
    let byteCount :=
      if (frameSize <=? byteCount) && forceTransientBurst
      then byteCount - frameSize else byteCount in
    xfer <-
      (if isConnected then
         buffer <- gets mDataBuffer ;;
         emit (DriverTransfer (byteCount / frameSize)) ;;
         let r := driver_transfer env buffer (byteCount / frameSize) in
         modify (with_mDataBuffer (tr_buffer r)) ;;
         ret (tr_actualFrameCount r, negb (tr_status r =? OK), tr_latencyMs r)
       else
         asyncCallback <- gets mAsyncCallback ;;
         (if asyncCallback is None then emit (Usleep 3000) else ret tt) ;;
         ret (byteCount / frameSize, false, kLatencyMs)) ;;
    let '(actualFrameCount, fatal, latency) := xfer in
    let actualByteCount := to_size_t (actualFrameCount * frameSize) in
    let reply :=
      set_fmqByteCount (to_int32 (fmqByteCount reply + actualByteCount))
                       reply in
    modify (fun w =>
              with_mFrameCount (to_int64 (mFrameCount w + actualFrameCount)) w) ;;
    reply <- populateReply env reply isConnected ;;
    ret (negb fatal, set_latencyMs latency reply)
  else
    ret (true, set_latencyMs kLatencyMs
                 (set_status STATUS_NOT_ENOUGH_DATA reply)).

(** The [switch] of [StreamOutWorkerLogic::cycle]: [None] stands for the
    [return Status::EXIT] inside it, [Some reply] for falling out of the
    [switch] with that reply. *)
Definition dispatch (env : Env) (command : Command) (reply : Reply)
  : M (option Reply) :=
  match command with
  | halReservedExit cookie =>
      internalCookie <- gets mInternalCommandCookie ;;
      if cookie =? internalCookie then setClosed ;; ret None
      else ret (Some reply)
  | getStatus =>
      reply <- populateReply env reply (mIsConnected env) ;;
      ret (Some reply)
  | start =>
      s <- gets mState ;;
      commandAccepted <-
        match s with
        | STANDBY => modify (with_mState IDLE) ;; ret (true, reply)
        | PAUSED => modify (with_mState ACTIVE) ;; ret (true, reply)
        | DRAIN_PAUSED =>
            switchToTransientState env DRAINING ;; ret (true, reply)
        | TRANSFER_PAUSED =>
            switchToTransientState env TRANSFERRING ;; ret (true, reply)
        | _ =>
            reply <- populateReplyWrongState reply command ;;
            ret (false, reply)
        end ;;
      if fst commandAccepted then
        reply <- populateReply env (snd commandAccepted) (mIsConnected env) ;;
        ret (Some reply)
      else ret (Some (snd commandAccepted))
  | burst fmqByteCount =>
      if 0 <=? fmqByteCount then
        s <- gets mState ;;
        if negb (bool_decide (s = ERROR))
           && negb (bool_decide (s = TRANSFERRING))
           && negb (bool_decide (s = TRANSFER_PAUSED)) then
          r <- write env fmqByteCount reply ;;
          let reply := snd r in
          (if fst r then ret tt else modify (with_mState ERROR)) ;;
          s <- gets mState ;;
          asyncCallback <- gets mAsyncCallback ;;
          (if bool_decide (s = STANDBY) || bool_decide (s = DRAIN_PAUSED)
              || bool_decide (s = PAUSED) then
             if bool_decide (asyncCallback = None)
                || negb (bool_decide (s = DRAIN_PAUSED)) then
               modify (with_mState PAUSED)
             else modify (with_mState TRANSFER_PAUSED)
           else if bool_decide (s = IDLE) || bool_decide (s = DRAINING)
                   || bool_decide (s = ACTIVE) then
             if bool_decide (asyncCallback = None)
                || (reply_fmqByteCount reply =? fmqByteCount) then
               modify (with_mState ACTIVE)
             else switchToTransientState env TRANSFERRING
           else ret tt) ;;
          ret (Some reply)
        else
          reply <- populateReplyWrongState reply command ;;
          ret (Some reply)
      else ret (Some reply)
  | drain mode =>
      if bool_decide (mode = DRAIN_ALL) || bool_decide (mode = DRAIN_EARLY_NOTIFY)
      then
        s <- gets mState ;;
        if bool_decide (s = ACTIVE) || bool_decide (s = TRANSFERRING) then
          emit (DriverDrain mode) ;;
          if driver_drain env mode =? OK then
            reply <- populateReply env reply (mIsConnected env) ;;
            forceSynchronousDrain <- gets mForceSynchronousDrain ;;
            (if bool_decide (s = ACTIVE) && forceSynchronousDrain then
               modify (with_mState IDLE)
             else switchToTransientState env DRAINING) ;;
            ret (Some reply)
          else
            modify (with_mState ERROR) ;;
            ret (Some reply)
        else if bool_decide (s = TRANSFER_PAUSED) then
          modify (with_mState DRAIN_PAUSED) ;;
          reply <- populateReply env reply (mIsConnected env) ;;
          ret (Some reply)
        else
          reply <- populateReplyWrongState reply command ;;
          ret (Some reply)
      else ret (Some reply)
  | standby =>
      s <- gets mState ;;
      if bool_decide (s = IDLE) then
        emit DriverStandby ;;
        if driver_standby env =? OK then
          reply <- populateReply env reply (mIsConnected env) ;;
          modify (with_mState STANDBY) ;;
          ret (Some reply)
        else
          modify (with_mState ERROR) ;;
          ret (Some reply)
      else
        reply <- populateReplyWrongState reply command ;;
        ret (Some reply)
  | pause =>
      s <- gets mState ;;
      next <-
        match s with
        | ACTIVE => ret (Some PAUSED, reply)
        | DRAINING => ret (Some DRAIN_PAUSED, reply)
        | TRANSFERRING => ret (Some TRANSFER_PAUSED, reply)
        | _ =>
            reply <- populateReplyWrongState reply command ;;
            ret (None, reply)
        end ;;
      let reply := snd next in
      match fst next with
      | Some nextState =>
          emit DriverPause ;;
          if driver_pause env =? OK then
            reply <- populateReply env reply (mIsConnected env) ;;
            modify (with_mState nextState) ;;
            ret (Some reply)
          else
            modify (with_mState ERROR) ;;
            ret (Some reply)
      | None => ret (Some reply)
      end
  | flush =>
      s <- gets mState ;;
      if bool_decide (s = PAUSED) || bool_decide (s = DRAIN_PAUSED)
         || bool_decide (s = TRANSFER_PAUSED) then
        emit DriverFlush ;;
        if driver_flush env =? OK then
          reply <- populateReply env reply (mIsConnected env) ;;
          modify (with_mState IDLE) ;;
          ret (Some reply)
        else
          modify (with_mState ERROR) ;;
          ret (Some reply)
      else
        reply <- populateReplyWrongState reply command ;;
        ret (Some reply)
  end.

(** The part of [StreamOutWorkerLogic::cycle] from the blocking read of
    the command queue to the end. *)
Definition processCommand (env : Env) : M Status :=
  match commandMQ_readBlocking env with
  | None =>
      emit (CommandRead None) ;;
      modify (with_mState ERROR) ;;
      ret ABORT
  | Some command =>
      emit (CommandRead (Some command)) ;;
      let reply := set_status STATUS_BAD_VALUE reply_init in
      r <- dispatch env command reply ;;
      match r with
      | None => ret EXIT
      | Some reply => writeReply env reply
      end
  end.

(** [StreamOutWorkerLogic::cycle] *)
Definition cycle (env : Env) : M Status :=
  resolveTransientState env ;;
  processCommand env.

End Logic.
End StreamOutWorkerLogic.

(** ** StreamContext and Module::createStreamContext *)

(** A message queue as the sources use it: its geometry and whether it
    came out valid. *)
Record MessageQueue := {
  getQuantumCount : Z;
  getQuantumSize : Z;
  mq_isValid : bool
}.

(** The binder exception codes of a [ndk::ScopedAStatus]; [EX_NONE] is
    [ScopedAStatus::ok()]. *)
Inductive ScopedAStatus :=
| EX_NONE | EX_ILLEGAL_ARGUMENT | EX_ILLEGAL_STATE | EX_UNSUPPORTED_OPERATION.

Inductive AudioIoFlags := input (mask : Z) | output (mask : Z).

Inductive IStreamOutEventCallback := StreamOutEventCallback (id : nat).

Record DebugParameters := {
  transientStateDelayMs : Z;
  forceTransientBurst : bool;
  forceSynchronousDrain : bool
}.

(** What [fillDescriptor] exports: [dupeDesc()] of a queue is a handle on
    that queue. *)
Record StreamDescriptor := {
  desc_command : option MessageQueue;
  desc_reply : option MessageQueue;
  desc_frameSizeBytes : Z;
  desc_bufferSizeFrames : Z;
  desc_audio_fmq : option MessageQueue
}.

Module AudioModule.
Section Contexts.
Context `{Headers}.

Record AudioPortConfig := {
  pc_id : Z;
  pc_portId : Z;
  pc_format : option AudioFormatDescription;
  pc_channelMask : option AudioChannelLayout;
  pc_sampleRate : option Z;
  pc_flags : option AudioIoFlags
}.

(** [std::unique_ptr] members are [None] when null. *)
Record StreamContext := {
  mCommandMQ : option MessageQueue;
  mReplyMQ : option MessageQueue;
  mFormat : AudioFormatDescription;
  mChannelLayout : AudioChannelLayout;
  mSampleRate : Z;
  mDataMQ : option MessageQueue;
  ctx_mAsyncCallback : option IStreamCallback;
  mOutEventCallback : option IStreamOutEventCallback;
  mDebugParameters : DebugParameters
}.

(** The members of [Module] the function reads.  [portConfigById] is
    [findById<AudioPortConfig>(getConfig().portConfigs, id)], [None] for
    the end iterator. *)
Record ModuleState := {
  portConfigById : Z -> option AudioPortConfig;
  mDebug_streamTransientStateDelayMs : Z;
  mVendorDebug_forceTransientBurst : bool;
  mVendorDebug_forceSynchronousDrain : bool
}.

(** Whether each of the three queues constructed for a new context comes
    out valid. *)
Record QueueAlloc := {
  commandMQ_valid : bool;
  replyMQ_valid : bool;
  dataMQ_valid : bool
}.

Definition getFrameSize (ctx : StreamContext) : Z :=
  getFrameSizeInBytes (mFormat ctx) (mChannelLayout ctx).

Definition isValid (ctx : StreamContext) : bool :=
  if (if mCommandMQ ctx is Some q then negb (mq_isValid q) else false) then false
  else if (if mReplyMQ ctx is Some q then negb (mq_isValid q) else false) then false
  else if getFrameSize ctx =? 0 then false
  else if (if mDataMQ ctx is Some q then negb (mq_isValid q) else false) then false
  else true.

Definition fillDescriptor (ctx : StreamContext) (desc : StreamDescriptor)
  : StreamDescriptor :=
  let desc :=
    if mCommandMQ ctx is Some q then
      {| desc_command := Some q; desc_reply := desc_reply desc;
         desc_frameSizeBytes := desc_frameSizeBytes desc;
         desc_bufferSizeFrames := desc_bufferSizeFrames desc;
         desc_audio_fmq := desc_audio_fmq desc |}
    else desc in
  let desc :=
    if mReplyMQ ctx is Some q then
      {| desc_command := desc_command desc; desc_reply := Some q;
         desc_frameSizeBytes := desc_frameSizeBytes desc;
         desc_bufferSizeFrames := desc_bufferSizeFrames desc;
         desc_audio_fmq := desc_audio_fmq desc |}
    else desc in
  if mDataMQ ctx is Some q then
    let frameSize := getFrameSize ctx in
    {| desc_command := desc_command desc; desc_reply := desc_reply desc;
       desc_frameSizeBytes := to_int32 frameSize;
       desc_bufferSizeFrames :=
         to_int64 (to_size_t (getQuantumCount q * getQuantumSize q) / frameSize);
       desc_audio_fmq := Some q |}
  else desc.

(** [Module::createStreamContext].  The result is [None] where the
    source dereferences the end iterator or takes the [value()] of an
    empty optional; otherwise the status returned and [*out_context] as
    the function leaves it. *)
Definition createStreamContext (m : ModuleState) (alloc : QueueAlloc)
    (in_portConfigId in_bufferSizeFrames : Z)
    (asyncCallback : option IStreamCallback)
    (outEventCallback : option IStreamOutEventCallback)
    (out_context : StreamContext)
  : option (ScopedAStatus * StreamContext) :=
  if in_bufferSizeFrames <=? 0 then Some (EX_ILLEGAL_ARGUMENT, out_context)
  else if in_bufferSizeFrames <? kMinimumStreamBufferSizeFrames then
    Some (EX_ILLEGAL_ARGUMENT, out_context)
  else
    portConfigIt ← portConfigById m in_portConfigId;
    format ← pc_format portConfigIt;
    channelMask ← pc_channelMask portConfigIt;
    let frameSize := getFrameSizeInBytes format channelMask in
    if frameSize =? 0 then Some (EX_ILLEGAL_ARGUMENT, out_context)
    else if to_size_t (Z.quot kMaximumStreamBufferSizeBytes in_bufferSizeFrames)
              <? frameSize then
      Some (EX_ILLEGAL_ARGUMENT, out_context)
    else
      flags ← pc_flags portConfigIt;
      if match flags with
         | input mask =>
             negb (isBitPositionFlagSet mask AudioInputFlags_MMAP_NOIRQ)
         | output mask =>
             negb (isBitPositionFlagSet mask AudioOutputFlags_MMAP_NOIRQ)
         end
      then
        sampleRate ← pc_sampleRate portConfigIt;
        let params :=
          {| transientStateDelayMs := mDebug_streamTransientStateDelayMs m;
             forceTransientBurst := mVendorDebug_forceTransientBurst m;
             forceSynchronousDrain := mVendorDebug_forceSynchronousDrain m |} in
        let temp :=
          {| mCommandMQ :=
               Some {| getQuantumCount := 1; getQuantumSize := sizeof_Command;
                       mq_isValid := commandMQ_valid alloc |};
             mReplyMQ :=
               Some {| getQuantumCount := 1; getQuantumSize := sizeof_Reply;
                       mq_isValid := replyMQ_valid alloc |};
             mFormat := format;
             mChannelLayout := channelMask;
             mSampleRate := sampleRate;
             mDataMQ :=
               Some {| getQuantumCount :=
                         to_size_t (frameSize * in_bufferSizeFrames);
                       getQuantumSize := sizeof_DataBufferElement;
                       mq_isValid := dataMQ_valid alloc |};
             ctx_mAsyncCallback := asyncCallback;
             mOutEventCallback := outEventCallback;
             mDebugParameters := params |} in
        if isValid temp then Some (EX_NONE, temp)
        else Some (EX_ILLEGAL_STATE, out_context)
      else
        Some (EX_NONE, out_context).

(** The capacity of the data queue of a context, in bytes. *)
Definition dataQueueCapacityBytes (ctx : StreamContext) : Z :=
  if mDataMQ ctx is Some q then getQuantumCount q * getQuantumSize q else 0.

(** The ranges the header declarations have by their C++ types, and the
    byte ceiling being a size. *)
Definition headers_in_range : Prop :=
  0 <= kMaximumStreamBufferSizeBytes <= INT32_MAX
  /\ (forall format layout, 0 <= getFrameSizeInBytes format layout < 2 ^ 64)
  /\ 0 < sizeof_DataBufferElement <= 2 ^ 32.

End Contexts.
End AudioModule.

(** ** A concrete instance and concrete workers, for evaluation *)

Definition reference_headers : Headers :=
  {| Position_UNKNOWN := -1;
     kLatencyMs := 10;
     kMinimumStreamBufferSizeFrames := 16;
     kMaximumStreamBufferSizeBytes := 32768;
     AudioFormatDescription := Z;
     AudioChannelLayout := Z;
     getFrameSizeInBytes := fun bytesPerSample channelCount =>
                              to_size_t (bytesPerSample * channelCount);
     isBitPositionFlagSet := fun mask position => Z.testbit mask position;
     AudioInputFlags_MMAP_NOIRQ := 4;
     AudioOutputFlags_MMAP_NOIRQ := 7;
     sizeof_Command := 8;
     sizeof_Reply := 64;
     sizeof_DataBufferElement := 1 |}.

Definition sample_worker (s : State) (cb : option IStreamCallback) : Worker :=
  {| mState := s; mFrameCount := 0; mDataBuffer := replicate 16 7;
     mDataBufferSize := 16; mFrameSize := 4;
     mInternalCommandCookie := 12345;
     mTransientStateDelayMs := 0; mTransientStateStart := 0;
     mAsyncCallback := cb;
     mForceTransientBurst := false; mForceSynchronousDrain := false;
     mClosed := false |}.

(** A worker with a transient-state delay of 3 ms that entered its state
    when the steady clock stood at 2 ms. *)
Definition delayed_worker (s : State) (cb : option IStreamCallback) : Worker :=
  {| mState := s; mFrameCount := 0; mDataBuffer := replicate 16 7;
     mDataBufferSize := 16; mFrameSize := 4;
     mInternalCommandCookie := 12345;
     mTransientStateDelayMs := 3; mTransientStateStart := 2000000;
     mAsyncCallback := cb;
     mForceTransientBurst := false; mForceSynchronousDrain := false;
     mClosed := false |}.

(** An outside in which the driver answers every call with [driverStatus]
    and transfers all the frames asked for, and the data and reply queues
    succeed or fail as [queuesOk] says. *)
Definition make_env (c : option Command) (connected : bool)
    (driverStatus : Z) (queuesOk : bool) : Env :=
  {| commandMQ_readBlocking := c;
     replyMQ_writeBlocking := fun _ => queuesOk;
     dataMQ_availableToWrite := 16;
     dataMQ_availableToRead := 16;
     dataMQ_write := fun _ => queuesOk;
     dataMQ_read := fun n =>
       if queuesOk then Some (replicate (Z.to_nat n) 1) else None;
     mIsConnected := connected;
     elapsedRealtimeNano := 1000;
     steady_clock_now := 5000000;
     steady_clock_now_switch := 5000000;
     driver_transfer := fun buf n =>
       {| tr_status := driverStatus; tr_actualFrameCount := n;
          tr_latencyMs := 10; tr_buffer := buf |};
     driver_drain := fun _ => driverStatus;
     driver_standby := driverStatus;
     driver_pause := driverStatus;
     driver_flush := driverStatus |}.

Definition sample_env (c : option Command) : Env := make_env c false OK true.

(** A module with one port config, 16-bit stereo on an input mix port
    without MMAP, and a caller's context and descriptor as default
    constructed. *)
Definition sample_port_config
  : AudioModule.AudioPortConfig (H := reference_headers) :=
  @AudioModule.Build_AudioPortConfig reference_headers
    1 2 (Some 2) (Some 2) (Some 48000) (Some (input 0)).

Definition sample_module : AudioModule.ModuleState (H := reference_headers) :=
  @AudioModule.Build_ModuleState reference_headers
    (fun id => if id =? 1 then Some sample_port_config else None)
    0 false false.

Definition empty_context : AudioModule.StreamContext (H := reference_headers) :=
  @AudioModule.Build_StreamContext reference_headers
    None None 0 0 0 None None None
    {| transientStateDelayMs := 0; forceTransientBurst := false;
       forceSynchronousDrain := false |}.

Definition empty_descriptor : StreamDescriptor :=
  {| desc_command := None; desc_reply := None; desc_frameSizeBytes := 0;
     desc_bufferSizeFrames := 0; desc_audio_fmq := None |}.

Definition queues (commandOk replyOk dataOk : bool) : AudioModule.QueueAlloc :=
  {| AudioModule.commandMQ_valid := commandOk;
     AudioModule.replyMQ_valid := replyOk;
     AudioModule.dataMQ_valid := dataOk |}.

(** The context [createStreamContext] makes for 1024 frames on the sample
    port config when the three queues come out valid. *)
Definition sample_context : AudioModule.StreamContext (H := reference_headers) :=
  match AudioModule.createStreamContext sample_module (queues true true true)
          1 1024 None None empty_context with
  | Some (_, ctx) => ctx
  | None => empty_context
  end.

Definition sample_dataMQ : MessageQueue :=
  {| getQuantumCount := 4096; getQuantumSize := 1; mq_isValid := true |}.

(** ** The worker thread, the traffic on the queues, reachable workers *)

Inductive Direction := Capture | Playback.

Definition cycleOf `{Headers} (d : Direction) : Env -> M Status :=
  match d with
  | Capture => StreamInWorkerLogic.cycle
  | Playback => StreamOutWorkerLogic.cycle
  end.

(** Modelled from the spec: the loop of the worker thread is in
    [StreamWorker.h], which is not among the sources.  The spec has the
    worker run cycle after cycle, end when it observes the internal exit
    command, and abort without further processing when a queue fails: the
    next cycle runs only after [CONTINUE].  The list gives the outside of
    each cycle in turn. *)
Fixpoint workerLoop (cycle : Env -> M Status) (envs : list Env) : M Status :=
  match envs with
  | [] => ret CONTINUE
  | env :: envs' =>
      (st <- cycle env ;;
       match st with
       | CONTINUE => workerLoop cycle envs'
       | _ => ret st
       end)%worker
  end.

(** The replies handed to the reply queue, and the commands taken from the
    command queue, in the order of the events. *)
Definition replies (t : list Event) : list Reply :=
  omap (fun e => if e is ReplyWrite r _ then Some r else None) t.

Definition commandsRead (t : list Event) : list Command :=
  omap (fun e => if e is CommandRead (Some c) then Some c else None) t.

(** The events on the command and the reply queue. *)
Definition isQueueEvent (e : Event) : bool :=
  match e with
  | CommandRead _ | ReplyWrite _ _ => true
  | _ => false
  end.

Definition queueTraffic (t : list Event) : list Event :=
  List.filter isQueueEvent t.

(** Command reads and reply writes strictly alternate; only a read that
    failed or that took an exit command may go without reply, and then
    nothing follows. *)
Inductive Alternating : list Event -> Prop :=
| Alternating_nil : Alternating []
| Alternating_failed : Alternating [CommandRead None]
| Alternating_exit cookie :
    Alternating [CommandRead (Some (halReservedExit cookie))]
| Alternating_reply c r ok rest :
    Alternating rest ->
    Alternating (CommandRead (Some c) :: ReplyWrite r ok :: rest).

(** The workers a playback worker can become, cycle by cycle. *)
Inductive Reachable `{Headers} (w0 : Worker) : Worker -> Prop :=
| Reachable_init : Reachable w0 w0
| Reachable_cycle w env :
    Reachable w0 w ->
    Reachable w0 (worker (StreamOutWorkerLogic.cycle env w)).

(** Whether the cycle takes the branch of the transient-state check that
    is taken when no asynchronous callback is set. *)
Definition blockingResolution `{Headers} (env : Env) (w : Worker) : bool :=
  (bool_decide (mState w = DRAINING) || bool_decide (mState w = TRANSFERRING))
  && (mTransientStateDelayMs w <=? StreamOutWorkerLogic.stateDurationMs env w)
  && bool_decide (mAsyncCallback w = None).

(** The test the exit case of both cycles makes on the cookie. *)
Definition isInternalExit (w : Worker) (c : Command) : bool :=
  match c with
  | halReservedExit cookie => cookie =? mInternalCommandCookie w
  | _ => false
  end.

From stdpp Require Import strings pretty gmap.
Local Open Scope Z_scope.

(** ** The two parts of a cycle, and the transitions as tables *)

(** What a cycle does before it blocks on the command queue: the playback
    cycle resolves a transient state, the capture cycle does nothing. *)
Definition cycleHead `{Headers} (d : Direction) (env : Env) : M unit :=
  match d with
  | Capture => ret tt
  | Playback => StreamOutWorkerLogic.resolveTransientState env
  end.

(** The rest of the cycle, from the blocking read on. *)
Definition handleCommand `{Headers} (d : Direction) : Env -> M Status :=
  match d with
  | Capture => StreamInWorkerLogic.cycle
  | Playback => StreamOutWorkerLogic.processCommand
  end.

(** The calls into the driver, and the events that move audio data. *)
Definition isDriverCall (e : Event) : bool :=
  match e with
  | DriverTransfer _ | DriverDrain _ | DriverStandby | DriverPause
  | DriverFlush => true
  | _ => false
  end.

Definition driverCalls (t : list Event) : list Event :=
  List.filter isDriverCall t.

Definition movesData (e : Event) : bool :=
  match e with
  | DataWrite _ _ _ | DataRead _ _ | DriverTransfer _ => true
  | _ => false
  end.






(** What no cycle changes of a worker: the fields [init] and the
    constructor set up. *)
Definition sameConfiguration (w w' : Worker) : Prop :=
  mDataBufferSize w' = mDataBufferSize w
  /\ mFrameSize w' = mFrameSize w
  /\ mInternalCommandCookie w' = mInternalCommandCookie w
  /\ mTransientStateDelayMs w' = mTransientStateDelayMs w
  /\ mAsyncCallback w' = mAsyncCallback w
  /\ mForceTransientBurst w' = mForceTransientBurst w
  /\ mForceSynchronousDrain w' = mForceSynchronousDrain w.


(** ** StreamWorkerCommonLogic::init *)

Definition with_mDataBufferSize (n : Z) (w : Worker) : Worker :=
  {| mState := mState w; mFrameCount := mFrameCount w;
     mDataBuffer := mDataBuffer w; mDataBufferSize := n;
     mFrameSize := mFrameSize w;
     mInternalCommandCookie := mInternalCommandCookie w;
     mTransientStateDelayMs := mTransientStateDelayMs w;
     mTransientStateStart := mTransientStateStart w;
     mAsyncCallback := mAsyncCallback w;
     mForceTransientBurst := mForceTransientBurst w;
     mForceSynchronousDrain := mForceSynchronousDrain w;
     mClosed := mClosed w |}.

Module StreamWorkerCommonLogic.
Section WorkerInit.
Context `{Headers}.
Local Open Scope worker_scope.
Local Open Scope string_scope.

(** [StreamWorkerCommonLogic::init].  The three queues are the pointers
    the worker holds, [None] when null.  [newBuffer] is the outcome of
    [new (std::nothrow) DataBufferElement[mDataBufferSize]]: [None] when
    the allocation fails, otherwise the indeterminate value of each
    element of the new array.  [driver_init] is the status [mDriver->init()]
    returns.  The result is the error message, empty on success; a null
    [mDataBuffer] is the empty list. *)
Definition init (commandMQ replyMQ dataMQ : option MessageQueue)
    (newBuffer : option (nat -> Z)) (driver_init : Z) : M string :=
  if commandMQ is None then ret "Command MQ is null"
  else if replyMQ is None then ret "Reply MQ is null"
  else
    match dataMQ with
    | None => ret "Data MQ is null"
    | Some dataMQ =>
        if negb (sizeof_DataBufferElement =? getQuantumSize dataMQ)%Z then
          ret ("Unexpected Data MQ quantum size: "
               +:+ pretty (getQuantumSize dataMQ))
        else
          modify (with_mDataBufferSize
                    (to_size_t (getQuantumCount dataMQ * getQuantumSize dataMQ))) ;;
          dataBufferSize <- gets mDataBufferSize ;;
          match newBuffer with
          | None =>
              modify (with_mDataBuffer []) ;;
              ret ("Failed to allocate data buffer for element count "
                   +:+ pretty (getQuantumCount dataMQ)
                   +:+ ", size in bytes: " +:+ pretty dataBufferSize)
          | Some element =>
              modify (with_mDataBuffer
                        (element <$> seq 0 (Z.to_nat dataBufferSize))) ;;
              if negb (driver_init =? OK)%Z then
                ret ("Failed to initialize the driver: " +:+ pretty driver_init)
              else ret ""
          end
    end.

End WorkerInit.
End StreamWorkerCommonLogic.

(** ** StreamCommonImpl, StreamIn and StreamOut: the stream objects *)

(** What the stream objects do to the outside: a command written to the
    command queue, and the join of the worker thread. *)
Inductive StreamEvent :=
| CommandWrite (c : Command) (ok : bool)
| WorkerStop.

Module Streams.
Section Streams.
Context `{Headers}.
Context {Metadata : Type}.

(** The members of [StreamCommonImpl<Metadata>] the sources use.
    [getInternalCommandCookie] is what [mContext.getInternalCommandCookie()]
    returns; [mWorkerClosed] is what [mWorker->setClosed()] sets. *)
Record StreamCommonImpl := {
  mContext : AudioModule.StreamContext;
  getInternalCommandCookie : Z;
  mMetadata : Metadata;
  mWorkerClosed : bool
}.

(** Modelled from the spec: [isClosed] is defined in [core-impl/Stream.h],
    which is not among the sources.  The spec has a stream closed exactly
    once, and a close of a stream already closed an illegal-state error:
    a stream is closed once [close] has marked its worker closed. *)
Definition isClosed (s : StreamCommonImpl) : bool := mWorkerClosed s.

(** [StreamContext::reset] *)
Definition reset (ctx : AudioModule.StreamContext) : AudioModule.StreamContext :=
  {| AudioModule.mCommandMQ := None;
     AudioModule.mReplyMQ := None;
     AudioModule.mFormat := AudioModule.mFormat ctx;
     AudioModule.mChannelLayout := AudioModule.mChannelLayout ctx;
     AudioModule.mSampleRate := AudioModule.mSampleRate ctx;
     AudioModule.mDataMQ := None;
     AudioModule.ctx_mAsyncCallback := AudioModule.ctx_mAsyncCallback ctx;
     AudioModule.mOutEventCallback := AudioModule.mOutEventCallback ctx;
     AudioModule.mDebugParameters := AudioModule.mDebugParameters ctx |}.

(** [StreamCommonImpl::stopWorker]: the events produced.
    [commandMQ_writeBlocking] is the outcome of the write to the command
    queue. *)
Definition stopWorker (commandMQ_writeBlocking : Command -> bool)
    (s : StreamCommonImpl) : list StreamEvent :=
  if AudioModule.mCommandMQ (mContext s) is Some _ then
    let cmd := halReservedExit (getInternalCommandCookie s) in
    [CommandWrite cmd (commandMQ_writeBlocking cmd)]
  else [].

(** [StreamCommonImpl::close]: the status, the stream as it is left, and
    the events. *)
Definition close (commandMQ_writeBlocking : Command -> bool)
    (s : StreamCommonImpl)
  : ScopedAStatus * StreamCommonImpl * list StreamEvent :=
  if negb (isClosed s) then
    (EX_NONE,
     {| mContext := reset (mContext s);
        getInternalCommandCookie := getInternalCommandCookie s;
        mMetadata := mMetadata s;
        mWorkerClosed := true |},
     stopWorker commandMQ_writeBlocking s ++ [WorkerStop])
  else (EX_ILLEGAL_STATE, s, []).

(** [StreamCommonImpl::prepareToClose] *)
Definition prepareToClose (s : StreamCommonImpl) : ScopedAStatus :=
  if negb (isClosed s) then EX_NONE else EX_ILLEGAL_STATE.

(** [StreamCommonImpl::updateMetadata] *)
Definition updateMetadata (metadata : Metadata) (s : StreamCommonImpl)
  : ScopedAStatus * StreamCommonImpl :=
  if negb (isClosed s) then
    (EX_NONE,
     {| mContext := mContext s;
        getInternalCommandCookie := getInternalCommandCookie s;
        mMetadata := metadata;
        mWorkerClosed := mWorkerClosed s |})
  else (EX_ILLEGAL_STATE, s).

(** The calls a client makes on the common part of a stream. *)
Inductive StreamCall :=
| call_close
| call_prepareToClose
| call_updateMetadata (metadata : Metadata).

Definition runCall (commandMQ_writeBlocking : Command -> bool)
    (c : StreamCall) (s : StreamCommonImpl)
  : ScopedAStatus * StreamCommonImpl * list StreamEvent :=
  match c with
  | call_close => close commandMQ_writeBlocking s
  | call_prepareToClose => (prepareToClose s, s, [])
  | call_updateMetadata metadata =>
      let '(st, s') := updateMetadata metadata s in (st, s', [])
  end.

(** A sequence of calls, one after the other: the statuses in order, the
    stream at the end, and all the events. *)
Fixpoint runCalls (commandMQ_writeBlocking : Command -> bool)
    (cs : list StreamCall) (s : StreamCommonImpl)
  : list ScopedAStatus * StreamCommonImpl * list StreamEvent :=
  match cs with
  | [] => ([], s, [])
  | c :: cs' =>
      let '(st, s1, t1) := runCall commandMQ_writeBlocking c s in
      let '(sts, s2, t2) := runCalls commandMQ_writeBlocking cs' s1 in
      (st :: sts, s2, t1 ++ t2)
  end.

End Streams.

Section StreamOut.
Context `{Headers}.
Context {SourceMetadata AudioOffloadInfo : Type}.

(** [AudioOffloadMetadata] *)
Record AudioOffloadMetadata := {
  om_sampleRate : Z;
  om_channelMask : AudioChannelLayout;
  om_averageBitRatePerSecond : Z;
  om_delayFrames : Z;
  om_paddingFrames : Z
}.

(** [StreamOut]: the common part and the two members of its own. *)
Record StreamOut := {
  so_common : StreamCommonImpl (Metadata := SourceMetadata);
  mOffloadInfo : option AudioOffloadInfo;
  mOffloadMetadata : option AudioOffloadMetadata
}.

(** [StreamOut::updateOffloadMetadata] *)
Definition updateOffloadMetadata (in_offloadMetadata : AudioOffloadMetadata)
    (s : StreamOut) : ScopedAStatus * StreamOut :=
  if isClosed (so_common s) then (EX_ILLEGAL_STATE, s)
  else if negb (bool_decide (is_Some (mOffloadInfo s))) then
    (EX_UNSUPPORTED_OPERATION, s)
  else if om_sampleRate in_offloadMetadata <? 0 then (EX_ILLEGAL_ARGUMENT, s)
  else if om_averageBitRatePerSecond in_offloadMetadata <? 0 then
    (EX_ILLEGAL_ARGUMENT, s)
  else if om_delayFrames in_offloadMetadata <? 0 then (EX_ILLEGAL_ARGUMENT, s)
  else if om_paddingFrames in_offloadMetadata <? 0 then
    (EX_ILLEGAL_ARGUMENT, s)
  else
    (EX_NONE,
     {| so_common := so_common s;
        mOffloadInfo := mOffloadInfo s;
        mOffloadMetadata := Some in_offloadMetadata |}).

(** No field the checks of [updateOffloadMetadata] look at is negative. *)
Definition offloadMetadataChecked (m : option AudioOffloadMetadata) : Prop :=
  match m with
  | None => True
  | Some m =>
      0 <= om_sampleRate m /\ 0 <= om_averageBitRatePerSecond m
      /\ 0 <= om_delayFrames m /\ 0 <= om_paddingFrames m
  end.

(** Calls of [updateOffloadMetadata], one after the other. *)
Definition updateAll (ms : list AudioOffloadMetadata) (s : StreamOut)
  : StreamOut :=
  fold_left (fun s m => snd (updateOffloadMetadata m s)) ms s.

End StreamOut.

Section StreamIn.
Context `{Headers}.
Context {AudioDevice : Type} `{EqDecision AudioDevice}.

Record MicrophoneInfo := {
  mic_id : string;
  mic_device : AudioDevice
}.

Inductive ChannelMapping := UNUSED | DIRECT | PROCESSED.

Record MicrophoneDynamicInfo := {
  dyn_id : string;
  dyn_channelMapping : list ChannelMapping
}.

(** A [std::map<AudioDevice, std::string>] as the list of its entries, no
    two with the same key.  [insert] keeps an entry already there. *)
Definition map_find (m : list (AudioDevice * string)) (d : AudioDevice)
  : option (AudioDevice * string) :=
  List.find (fun e => bool_decide (fst e = d)) m.

Definition map_insert (m : list (AudioDevice * string))
    (e : AudioDevice * string) : list (AudioDevice * string) :=
  if map_find m (fst e) is Some _ then m else m ++ [e].

(** The first microphone of a list that sits on a device. *)
Definition firstMicrophoneOn (microphones : list MicrophoneInfo)
    (d : AudioDevice) : option MicrophoneInfo :=
  List.find (fun mic => bool_decide (mic_device mic = d)) microphones.

(** [transformMicrophones] *)
Definition transformMicrophones (microphones : list MicrophoneInfo)
  : list (AudioDevice * string) :=
  fold_left (fun result mic => map_insert result (mic_device mic, mic_id mic))
            microphones [].

(** [StreamIn::getActiveMicrophones]: the vector returned; the status is
    always [ok].  [channelCount] is
    [getChannelCount(mContext.getChannelLayout())]. *)
Definition getActiveMicrophones (channelCount : Z)
    (mMicrophones : list (AudioDevice * string))
    (mConnectedDevices : list AudioDevice) : list MicrophoneDynamicInfo :=
  let channelMapping := replicate (Z.to_nat channelCount) DIRECT in
  fold_left
    (fun result device =>
       if map_find mMicrophones device is Some micIt then
         result ++ [{| dyn_id := snd micIt;
                       dyn_channelMapping := channelMapping |}]
       else result)
    mConnectedDevices [].

End StreamIn.
End Streams.

(** ** Module: ports, port configs, debug and vendor parameters, streams *)

(** [ModuleDebug] *)
Record ModuleDebug := {
  simulateDeviceConnections : bool;
  streamTransientStateDelayMs : Z
}.

(** [Module::VendorDebug] *)
Record VendorDebug := {
  vd_forceTransientBurst : bool;
  vd_forceSynchronousDrain : bool
}.

Definition kForceTransientBurstName : string := "aosp.forceTransientBurst".
Definition kForceSynchronousDrainName : string := "aosp.forceSynchronousDrain".

(** What a [ParcelableHolder] gives [getParcelable<Boolean>]: a [Boolean],
    nothing (status ok, empty optional), or a status other than
    [STATUS_OK]. *)
Inductive ParcelableHolder :=
| holdsBoolean (value : bool)
| holdsNothing
| unreadable (status : Z).

Record VendorParameter := {
  vp_id : string;
  vp_ext : ParcelableHolder
}.

Global Instance AudioIoFlags_eq_dec : EqDecision AudioIoFlags.
Proof. solve_decision. Defined.

(** More declarations from headers outside the sources, which
    [Module.cpp] uses: two types whose values are only copied, the bit
    positions of two more flags of [AudioOutputFlags], and the [==] of
    formats and channel layouts. *)
Class ModuleHeaders `{Headers} := {
  AudioPortDeviceExt : Type;
  AudioGainConfig : Type;
  AudioOutputFlags_COMPRESS_OFFLOAD : Z;
  AudioOutputFlags_NON_BLOCKING : Z;
  AudioFormatDescription_eq_dec :: EqDecision AudioFormatDescription;
  AudioChannelLayout_eq_dec :: EqDecision AudioChannelLayout
}.

Module ModuleImpl.
Section Impl.
Context `{ModuleHeaders}.

Record AudioProfile := {
  profile_format : AudioFormatDescription;
  channelMasks : list AudioChannelLayout;
  sampleRates : list Z
}.

(** [AudioPortExt]: the union with its four tags; of [AudioPortMixExt] the
    two fields the sources read or write. *)
Inductive AudioPortExt :=
| ext_unspecified
| ext_device (device : AudioPortDeviceExt)
| ext_mix (handle maxOpenStreamCount : Z)
| ext_session (session : Z).

Inductive AudioPortExtTag := tag_unspecified | tag_device | tag_mix | tag_session.

Global Instance AudioPortExtTag_eq_dec : EqDecision AudioPortExtTag.
Proof. solve_decision. Defined.

Definition getTag (ext : AudioPortExt) : AudioPortExtTag :=
  match ext with
  | ext_unspecified => tag_unspecified
  | ext_device _ => tag_device
  | ext_mix _ _ => tag_mix
  | ext_session _ => tag_session
  end.

Record AudioPort := {
  port_id : Z;
  port_profiles : list AudioProfile;
  port_flags : AudioIoFlags;
  port_ext : AudioPortExt
}.

Record AudioPortConfig := {
  cfg_id : Z;
  cfg_portId : Z;
  cfg_sampleRate : option Z;
  cfg_channelMask : option AudioChannelLayout;
  cfg_format : option AudioFormatDescription;
  cfg_gain : option AudioGainConfig;
  cfg_flags : option AudioIoFlags;
  cfg_ext : AudioPortExt
}.

(** [AudioPortConfig{}] *)
Definition defaultPortConfig : AudioPortConfig :=
  {| cfg_id := 0; cfg_portId := 0; cfg_sampleRate := None;
     cfg_channelMask := None; cfg_format := None; cfg_gain := None;
     cfg_flags := None; cfg_ext := ext_unspecified |}.

Definition set_cfg_id (v : Z) (c : AudioPortConfig) : AudioPortConfig :=
  {| cfg_id := v; cfg_portId := cfg_portId c;
     cfg_sampleRate := cfg_sampleRate c; cfg_channelMask := cfg_channelMask c;
     cfg_format := cfg_format c; cfg_gain := cfg_gain c;
     cfg_flags := cfg_flags c; cfg_ext := cfg_ext c |}.

Definition set_cfg_portId (v : Z) (c : AudioPortConfig) : AudioPortConfig :=
  {| cfg_id := cfg_id c; cfg_portId := v;
     cfg_sampleRate := cfg_sampleRate c; cfg_channelMask := cfg_channelMask c;
     cfg_format := cfg_format c; cfg_gain := cfg_gain c;
     cfg_flags := cfg_flags c; cfg_ext := cfg_ext c |}.

Definition set_cfg_sampleRate (v : option Z) (c : AudioPortConfig)
  : AudioPortConfig :=
  {| cfg_id := cfg_id c; cfg_portId := cfg_portId c;
     cfg_sampleRate := v; cfg_channelMask := cfg_channelMask c;
     cfg_format := cfg_format c; cfg_gain := cfg_gain c;
     cfg_flags := cfg_flags c; cfg_ext := cfg_ext c |}.

Definition set_cfg_channelMask (v : option AudioChannelLayout)
    (c : AudioPortConfig) : AudioPortConfig :=
  {| cfg_id := cfg_id c; cfg_portId := cfg_portId c;
     cfg_sampleRate := cfg_sampleRate c; cfg_channelMask := v;
     cfg_format := cfg_format c; cfg_gain := cfg_gain c;
     cfg_flags := cfg_flags c; cfg_ext := cfg_ext c |}.

Definition set_cfg_format (v : option AudioFormatDescription)
    (c : AudioPortConfig) : AudioPortConfig :=
  {| cfg_id := cfg_id c; cfg_portId := cfg_portId c;
     cfg_sampleRate := cfg_sampleRate c; cfg_channelMask := cfg_channelMask c;
     cfg_format := v; cfg_gain := cfg_gain c;
     cfg_flags := cfg_flags c; cfg_ext := cfg_ext c |}.

Definition set_cfg_gain (v : option AudioGainConfig) (c : AudioPortConfig)
  : AudioPortConfig :=
  {| cfg_id := cfg_id c; cfg_portId := cfg_portId c;
     cfg_sampleRate := cfg_sampleRate c; cfg_channelMask := cfg_channelMask c;
     cfg_format := cfg_format c; cfg_gain := v;
     cfg_flags := cfg_flags c; cfg_ext := cfg_ext c |}.

Definition set_cfg_flags (v : option AudioIoFlags) (c : AudioPortConfig)
  : AudioPortConfig :=
  {| cfg_id := cfg_id c; cfg_portId := cfg_portId c;
     cfg_sampleRate := cfg_sampleRate c; cfg_channelMask := cfg_channelMask c;
     cfg_format := cfg_format c; cfg_gain := cfg_gain c;
     cfg_flags := v; cfg_ext := cfg_ext c |}.

Definition set_cfg_ext (v : AudioPortExt) (c : AudioPortConfig)
  : AudioPortConfig :=
  {| cfg_id := cfg_id c; cfg_portId := cfg_portId c;
     cfg_sampleRate := cfg_sampleRate c; cfg_channelMask := cfg_channelMask c;
     cfg_format := cfg_format c; cfg_gain := cfg_gain c;
     cfg_flags := cfg_flags c; cfg_ext := v |}.

(** [generateDefaultPortConfig]: the result, and [*config] as it is
    left. *)
Definition generateDefaultPortConfig (port : AudioPort)
  : bool * AudioPortConfig :=
  let config := set_cfg_portId (port_id port) defaultPortConfig in
  match port_profiles port with
  | [] => (false, config)
  | profile :: _ =>
      let config := set_cfg_format (Some (profile_format profile)) config in
      match channelMasks profile with
      | [] => (false, config)
      | channelMask :: _ =>
          let config := set_cfg_channelMask (Some channelMask) config in
          match sampleRates profile with
          | [] => (false, config)
          | sampleRate :: _ =>
              let config := set_cfg_sampleRate (Some sampleRate) config in
              let config := set_cfg_flags (Some (port_flags port)) config in
              let config := set_cfg_ext (port_ext port) config in
              (true, config)
          end
      end
  end.

(** [findAudioProfile]: [Some] the profile written to [*profile] when the
    result is [true], [None] when it is [false] and [*profile] is left. *)
Definition findAudioProfile (port : AudioPort)
    (format : AudioFormatDescription) : option AudioProfile :=
  List.find (fun profile => bool_decide (profile_format profile = format))
            (port_profiles port).

(** A port config whose format, channel mask and sample rate all come
    from one profile of the port, the first with that format. *)
Definition supportedBy (port : AudioPort) (config : AudioPortConfig) : Prop :=
  exists format channelMask sampleRate profile,
    cfg_format config = Some format
    /\ cfg_channelMask config = Some channelMask
    /\ cfg_sampleRate config = Some sampleRate
    /\ findAudioProfile port format = Some profile
    /\ channelMask ∈ channelMasks profile
    /\ sampleRate ∈ sampleRates profile.

(** A port config with the four optional fields [createStreamContext]
    takes the [value()] of. *)
Definition fullySpecified (config : AudioPortConfig) : Prop :=
  is_Some (cfg_format config) /\ is_Some (cfg_channelMask config)
  /\ is_Some (cfg_sampleRate config) /\ is_Some (cfg_flags config).

(** [std::find(v.begin(), v.end(), x) != v.end()] *)
Definition contains {A} `{EqDecision A} (v : list A) (x : A) : bool :=
  bool_decide (x ∈ v).

(** The members of [Module], and of the configuration [getConfig()]
    returns, that the functions below use.  [count] is [mStreams.count],
    [isPatched id] is [mPatches.find(id) != mPatches.end()]. *)
Record Module := {
  ports : list AudioPort;
  portConfigs : list AudioPortConfig;
  nextPortId : Z;
  mDebug : ModuleDebug;
  mVendorDebug : VendorDebug;
  mConnectedDevicePorts : gset Z;
  mMasterMute : bool;
  mStreams_count : Z -> Z;
  mPatches_isPatched : Z -> bool
}.

Definition with_portConfigs (v : list AudioPortConfig) (n : Z) (m : Module)
  : Module :=
  {| ports := ports m; portConfigs := v; nextPortId := n;
     mDebug := mDebug m; mVendorDebug := mVendorDebug m;
     mConnectedDevicePorts := mConnectedDevicePorts m;
     mMasterMute := mMasterMute m; mStreams_count := mStreams_count m;
     mPatches_isPatched := mPatches_isPatched m |}.

Definition with_mDebug (v : ModuleDebug) (m : Module) : Module :=
  {| ports := ports m; portConfigs := portConfigs m;
     nextPortId := nextPortId m;
     mDebug := v; mVendorDebug := mVendorDebug m;
     mConnectedDevicePorts := mConnectedDevicePorts m;
     mMasterMute := mMasterMute m; mStreams_count := mStreams_count m;
     mPatches_isPatched := mPatches_isPatched m |}.

Definition with_mVendorDebug (v : VendorDebug) (m : Module) : Module :=
  {| ports := ports m; portConfigs := portConfigs m;
     nextPortId := nextPortId m;
     mDebug := mDebug m; mVendorDebug := v;
     mConnectedDevicePorts := mConnectedDevicePorts m;
     mMasterMute := mMasterMute m; mStreams_count := mStreams_count m;
     mPatches_isPatched := mPatches_isPatched m |}.

Definition with_mMasterMute (v : bool) (m : Module) : Module :=
  {| ports := ports m; portConfigs := portConfigs m;
     nextPortId := nextPortId m;
     mDebug := mDebug m; mVendorDebug := mVendorDebug m;
     mConnectedDevicePorts := mConnectedDevicePorts m;
     mMasterMute := v; mStreams_count := mStreams_count m;
     mPatches_isPatched := mPatches_isPatched m |}.

(** [findById<T>(v, id)] is declared in [core-impl/utils.h], which is not
    among the sources: the two instances the functions below use are
    parameters.  The result is the position of the element the iterator
    returned points to, [None] for the end iterator. *)
Context (findPortById : list AudioPort -> Z -> option nat).
Context (findPortConfigById : list AudioPortConfig -> Z -> option nat).


(** The middle of [Module::setAudioPortConfig], from the comment
    "From this moment" to the update of [ext]: [*out_suggested] is
    updated according to the fields of [in_requested] the port supports.
    The result is [None] where the source takes the [value()] of an empty
    optional; [formatNotSupported] stands for the [return] with
    [EX_ILLEGAL_ARGUMENT] inside, with [*out_suggested] as it is then;
    [applied] holds [*out_suggested], [requestedIsValid] and
    [requestedIsFullySpecified] at the end. *)
Inductive ApplyResult :=
| formatNotSupported (out_suggested : AudioPortConfig)
| applied (out_suggested : AudioPortConfig)
          (requestedIsValid requestedIsFullySpecified : bool).

Definition applyRequested (port : AudioPort)
    (in_requested out_suggested : AudioPortConfig) : option ApplyResult :=
  let requestedIsValid := true in
  let requestedIsFullySpecified := true in
  let portFlags := port_flags port in
  let '(requestedIsValid, requestedIsFullySpecified) :=
    match cfg_flags in_requested with
    | Some flags =>
        if negb (bool_decide (flags = portFlags))
        then (false, requestedIsFullySpecified)
        else (requestedIsValid, requestedIsFullySpecified)
    | None => (requestedIsValid, false)
    end in
  let '(out_suggested, requestedIsValid, requestedIsFullySpecified) :=
    match cfg_format in_requested with
    | Some format =>
        if findAudioProfile port format is Some _ then
          (set_cfg_format (Some format) out_suggested,
           requestedIsValid, requestedIsFullySpecified)
        else (out_suggested, false, requestedIsFullySpecified)
    | None => (out_suggested, requestedIsValid, false)
    end in
  suggestedFormat ← cfg_format out_suggested;
  match findAudioProfile port suggestedFormat with
  | None => Some (formatNotSupported out_suggested)
  | Some portProfile =>
      let '(out_suggested, requestedIsValid, requestedIsFullySpecified) :=
        match cfg_channelMask in_requested with
        | Some channelMask =>
            if contains (channelMasks portProfile) channelMask then
              (set_cfg_channelMask (Some channelMask) out_suggested,
               requestedIsValid, requestedIsFullySpecified)
            else (out_suggested, false, requestedIsFullySpecified)
        | None => (out_suggested, requestedIsValid, false)
        end in
      let '(out_suggested, requestedIsValid, requestedIsFullySpecified) :=
        match cfg_sampleRate in_requested with
        | Some sampleRate =>
            if contains (sampleRates portProfile) sampleRate then
              (set_cfg_sampleRate (Some sampleRate) out_suggested,
               requestedIsValid, requestedIsFullySpecified)
            else (out_suggested, false, requestedIsFullySpecified)
        | None => (out_suggested, requestedIsValid, false)
        end in
      let out_suggested :=
        match cfg_gain in_requested with
        | Some gain => set_cfg_gain (Some gain) out_suggested
        | None => out_suggested
        end in
      let '(out_suggested, requestedIsValid) :=
        if negb (bool_decide
                   (getTag (cfg_ext in_requested) = tag_unspecified))
        then
          if bool_decide (getTag (cfg_ext in_requested)
                          = getTag (cfg_ext out_suggested))
          then
            match cfg_ext out_suggested, cfg_ext in_requested with
            | ext_mix _ maxOpenStreamCount, ext_mix handle _ =>
                (set_cfg_ext (ext_mix handle maxOpenStreamCount)
                             out_suggested,
                 requestedIsValid)
            | _, _ => (out_suggested, requestedIsValid)
            end
          else (out_suggested, false)
        else (out_suggested, requestedIsValid) in
      Some (applied out_suggested requestedIsValid requestedIsFullySpecified)
  end.

(** [Module::setAudioPortConfig].  The result is [None] where the source
    dereferences an iterator that points to no element or takes the
    [value()] of an empty optional; otherwise the status, the module as
    it is left, and [*out_suggested] and [*_aidl_return] as they are
    left. *)
Definition setAudioPortConfig (m : Module) (in_requested : AudioPortConfig)
    (out_suggested : AudioPortConfig) (_aidl_return : bool)
  : option (ScopedAStatus * Module * AudioPortConfig * bool) :=
  let configs := portConfigs m in
  let existing :=
    if negb (cfg_id in_requested =? 0)
    then findPortConfigById configs (cfg_id in_requested) else None in
  if negb (cfg_id in_requested =? 0) && bool_decide (existing = None) then
    Some (EX_ILLEGAL_ARGUMENT, m, out_suggested, _aidl_return)
  else
    existingConfig ←
      match existing with
      | Some i => c ← configs !! i; Some (Some c)
      | None => Some None
      end;
    let portId :=
      match existingConfig with
      | Some c => cfg_portId c
      | None => cfg_portId in_requested
      end in
    if portId =? 0 then
      Some (EX_ILLEGAL_ARGUMENT, m, out_suggested, _aidl_return)
    else
      match findPortById (ports m) portId with
      | None => Some (EX_ILLEGAL_ARGUMENT, m, out_suggested, _aidl_return)
      | Some p =>
          port ← ports m !! p;
          let suggested :=
            match existingConfig with
            | Some c => Some c
            | None =>
                let '(ok, newConfig) := generateDefaultPortConfig port in
                if ok then Some newConfig else None
            end in
          match suggested with
          | None => Some (EX_ILLEGAL_ARGUMENT, m, out_suggested, _aidl_return)
          | Some out_suggested =>
              applied ← applyRequested port in_requested out_suggested;
              match applied with
              | formatNotSupported out_suggested =>
                  Some (EX_ILLEGAL_ARGUMENT, m, out_suggested, _aidl_return)
              | applied out_suggested requestedIsValid
                        requestedIsFullySpecified =>
                  match existing with
                  | None =>
                      if requestedIsValid && requestedIsFullySpecified then
                        let out_suggested :=
                          set_cfg_id (nextPortId m) out_suggested in
                        Some (EX_NONE,
                              with_portConfigs (configs ++ [out_suggested])
                                (to_int32 (nextPortId m + 1)) m,
                              out_suggested, true)
                      else Some (EX_NONE, m, out_suggested, false)
                  | Some i =>
                      if requestedIsValid then
                        Some (EX_NONE,
                              with_portConfigs (<[i := out_suggested]> configs)
                                (nextPortId m) m,
                              out_suggested, true)
                      else Some (EX_NONE, m, out_suggested, false)
                  end
              end
          end
      end.

(** [Module::setModuleDebug] *)
Definition setModuleDebug (in_debug : ModuleDebug) (m : Module)
  : ScopedAStatus * Module :=
  if negb (Bool.eqb (simulateDeviceConnections (mDebug m))
                    (simulateDeviceConnections in_debug))
     && negb (bool_decide (mConnectedDevicePorts m = ∅)) then
    (EX_ILLEGAL_STATE, m)
  else if streamTransientStateDelayMs in_debug <? 0 then
    (EX_ILLEGAL_ARGUMENT, m)
  else (EX_NONE, with_mDebug in_debug m).

(** [Module::setMasterMute].  [onMasterMuteChanged] is the virtual hook;
    the third component lists the arguments of the calls made to it. *)
Definition setMasterMute (onMasterMuteChanged : bool -> ScopedAStatus)
    (in_mute : bool) (m : Module) : ScopedAStatus * Module * list bool :=
  let '(result, calls) :=
    if simulateDeviceConnections (mDebug m) then (EX_NONE, [])
    else (onMasterMuteChanged in_mute, [in_mute]) in
  if result is EX_NONE then (result, with_mMasterMute in_mute m, calls)
  else (result, m, calls ++ [mMasterMute m]).

(** [Module::getMasterMute] *)
Definition getMasterMute (m : Module) : ScopedAStatus * bool :=
  (EX_NONE, mMasterMute m).

(** [Module::getVendorParameters]: the status and [*_aidl_return] as it
    is left. *)
Definition getVendorParameters (in_ids : list string)
    (_aidl_return : list VendorParameter) (m : Module)
  : ScopedAStatus * list VendorParameter :=
  let '(_aidl_return, allParametersKnown) :=
    fold_left
      (fun '(_aidl_return, allParametersKnown) id =>
         if bool_decide (id = kForceTransientBurstName) then
           (_aidl_return
              ++ [{| vp_id := id;
                     vp_ext := holdsBoolean
                                 (vd_forceTransientBurst (mVendorDebug m)) |}],
            allParametersKnown)
         else if bool_decide (id = kForceSynchronousDrainName) then
           (_aidl_return
              ++ [{| vp_id := id;
                     vp_ext := holdsBoolean
                                 (vd_forceSynchronousDrain (mVendorDebug m)) |}],
            allParametersKnown)
         else (_aidl_return, false))
      in_ids (_aidl_return, true) in
  (if allParametersKnown : bool then EX_NONE else EX_ILLEGAL_ARGUMENT,
   _aidl_return).

(** [extractParameter<Boolean>]: [Some] the value written to [*v] when
    the result is [true], [None] when it is [false] and [*v] is left. *)
Definition extractParameter (p : VendorParameter) : option bool :=
  match vp_ext p with
  | holdsBoolean value => Some value
  | holdsNothing | unreadable _ => None
  end.

(** The loop of [Module::setVendorParameters], with its [return] from
    inside. *)
Fixpoint setVendorParametersFrom (in_parameters : list VendorParameter)
    (allParametersKnown : bool) (vendorDebug : VendorDebug)
  : ScopedAStatus * VendorDebug :=
  match in_parameters with
  | [] =>
      (if allParametersKnown then EX_NONE else EX_ILLEGAL_ARGUMENT, vendorDebug)
  | p :: rest =>
      if bool_decide (vp_id p = kForceTransientBurstName) then
        match extractParameter p with
        | Some v =>
            setVendorParametersFrom rest allParametersKnown
              {| vd_forceTransientBurst := v;
                 vd_forceSynchronousDrain :=
                   vd_forceSynchronousDrain vendorDebug |}
        | None => (EX_ILLEGAL_ARGUMENT, vendorDebug)
        end
      else if bool_decide (vp_id p = kForceSynchronousDrainName) then
        match extractParameter p with
        | Some v =>
            setVendorParametersFrom rest allParametersKnown
              {| vd_forceTransientBurst := vd_forceTransientBurst vendorDebug;
                 vd_forceSynchronousDrain := v |}
        | None => (EX_ILLEGAL_ARGUMENT, vendorDebug)
        end
      else setVendorParametersFrom rest false vendorDebug
  end.

(** The value the last parameter of a list with a given id and a
    [Boolean] holds, [default] when there is none. *)
Definition lastBoolean (id : string) (parameters : list VendorParameter)
    (default : bool) : bool :=
  fold_left
    (fun acc p =>
       if bool_decide (vp_id p = id)
       then (if vp_ext p is holdsBoolean v then v else acc)
       else acc)
    parameters default.

Definition isKnownParameter (id : string) : bool :=
  bool_decide (id = kForceTransientBurstName)
  || bool_decide (id = kForceSynchronousDrainName).

(** [Module::setVendorParameters] *)
Definition setVendorParameters (in_parameters : list VendorParameter)
    (in_async : bool) (m : Module) : ScopedAStatus * Module :=
  let '(status, vendorDebug) :=
    setVendorParametersFrom in_parameters true (mVendorDebug m) in
  (status, with_mVendorDebug vendorDebug m).

(** What [createStreamContext] reads of a port config, and of the
    module. *)
Definition toStreamPortConfig (c : AudioPortConfig)
  : AudioModule.AudioPortConfig :=
  {| AudioModule.pc_id := cfg_id c;
     AudioModule.pc_portId := cfg_portId c;
     AudioModule.pc_format := cfg_format c;
     AudioModule.pc_channelMask := cfg_channelMask c;
     AudioModule.pc_sampleRate := cfg_sampleRate c;
     AudioModule.pc_flags := cfg_flags c |}.

Definition toModuleState (m : Module) : AudioModule.ModuleState :=
  {| AudioModule.portConfigById := fun id =>
       i ← findPortConfigById (portConfigs m) id;
       toStreamPortConfig <$> portConfigs m !! i;
     AudioModule.mDebug_streamTransientStateDelayMs :=
       streamTransientStateDelayMs (mDebug m);
     AudioModule.mVendorDebug_forceTransientBurst :=
       vd_forceTransientBurst (mVendorDebug m);
     AudioModule.mVendorDebug_forceSynchronousDrain :=
       vd_forceSynchronousDrain (mVendorDebug m) |}.

(** [Module::findPortIdForNewStream]: [None] where the [CHECK] fails or
    an iterator that points to no element is dereferenced; otherwise the
    status and, when it is ok, the port. *)
Definition findPortIdForNewStream (m : Module) (in_portConfigId : Z)
  : option (ScopedAStatus * option AudioPort) :=
  match findPortConfigById (portConfigs m) in_portConfigId with
  | None => Some (EX_ILLEGAL_ARGUMENT, None)
  | Some i =>
      portConfigIt ← portConfigs m !! i;
      let portId := cfg_portId portConfigIt in
      if portId =? in_portConfigId then None
      else
        match findPortById (ports m) portId with
        | None => Some (EX_ILLEGAL_ARGUMENT, None)
        | Some p =>
            if negb (mStreams_count m in_portConfigId =? 0) then
              Some (EX_ILLEGAL_STATE, None)
            else
              portIt ← ports m !! p;
              match port_ext portIt with
              | ext_mix _ maxOpenStreamCount =>
                  if negb (maxOpenStreamCount =? 0)
                     && (to_size_t maxOpenStreamCount
                           <=? mStreams_count m portId)
                  then Some (EX_ILLEGAL_STATE, None)
                  else Some (EX_NONE, Some portIt)
              | _ => Some (EX_ILLEGAL_ARGUMENT, None)
              end
        end
  end.

(** What a successful open hands to [mStreams.insert]: the stream, which
    is its context here, under the port id and the port config id, and
    whether [setStreamIsConnected] was called on it first. *)
Record OpenedStream := {
  os_context : AudioModule.StreamContext;
  os_portId : Z;
  os_portConfigId : Z;
  os_setConnected : bool
}.

(** [Module::openInputStream].  [defaultContext] is the context
    [StreamContext context;] declares, [alloc] says which of the queues
    [createStreamContext] makes come out valid, [createStream] is the
    status of the stream creator.  The result is [None] where a callee's
    is; otherwise the status, [_aidl_return->desc] as it is left, and the
    stream inserted, if one is. *)
Definition openInputStream (m : Module) (alloc : AudioModule.QueueAlloc)
    (defaultContext : AudioModule.StreamContext)
    (createStream : AudioModule.StreamContext -> ScopedAStatus)
    (in_portConfigId in_bufferSizeFrames : Z) (desc : StreamDescriptor)
  : option (ScopedAStatus * StreamDescriptor * option OpenedStream) :=
  found ← findPortIdForNewStream m in_portConfigId;
  match found with
  | (EX_NONE, Some port) =>
      if port_flags port is input _ then
        created ← AudioModule.createStreamContext (toModuleState m) alloc
                    in_portConfigId in_bufferSizeFrames None None
                    defaultContext;
        match created with
        | (EX_NONE, context) =>
            let desc := AudioModule.fillDescriptor context desc in
            match createStream context with
            | EX_NONE =>
                Some (EX_NONE, desc,
                      Some {| os_context := context;
                              os_portId := port_id port;
                              os_portConfigId := in_portConfigId;
                              os_setConnected :=
                                mPatches_isPatched m in_portConfigId |})
            | status => Some (status, desc, None)
            end
        | (status, _) => Some (status, desc, None)
        end
      else Some (EX_ILLEGAL_ARGUMENT, desc, None)
  | (status, _) => Some (status, desc, None)
  end.

(** [Module::openOutputStream], in the same way; [hasOffloadInfo] is
    [in_args.offloadInfo.has_value()]. *)
Definition openOutputStream (m : Module) (alloc : AudioModule.QueueAlloc)
    (defaultContext : AudioModule.StreamContext)
    (createStream : AudioModule.StreamContext -> ScopedAStatus)
    (in_portConfigId in_bufferSizeFrames : Z) (hasOffloadInfo : bool)
    (callback : option IStreamCallback)
    (eventCallback : option IStreamOutEventCallback)
    (desc : StreamDescriptor)
  : option (ScopedAStatus * StreamDescriptor * option OpenedStream) :=
  found ← findPortIdForNewStream m in_portConfigId;
  match found with
  | (EX_NONE, Some port) =>
      match port_flags port with
      | output mask =>
          let isOffload :=
            isBitPositionFlagSet mask AudioOutputFlags_COMPRESS_OFFLOAD in
          if isOffload && negb hasOffloadInfo then
            Some (EX_ILLEGAL_ARGUMENT, desc, None)
          else
            let isNonBlocking :=
              isBitPositionFlagSet mask AudioOutputFlags_NON_BLOCKING in
            if isNonBlocking && bool_decide (callback = None) then
              Some (EX_ILLEGAL_ARGUMENT, desc, None)
            else
              created ← AudioModule.createStreamContext (toModuleState m)
                          alloc in_portConfigId in_bufferSizeFrames
                          (if isNonBlocking then callback else None)
                          eventCallback defaultContext;
              match created with
              | (EX_NONE, context) =>
                  let desc := AudioModule.fillDescriptor context desc in
                  match createStream context with
                  | EX_NONE =>
                      Some (EX_NONE, desc,
                            Some {| os_context := context;
                                    os_portId := port_id port;
                                    os_portConfigId := in_portConfigId;
                                    os_setConnected :=
                                      mPatches_isPatched m in_portConfigId |})
                  | status => Some (status, desc, None)
                  end
              | (status, _) => Some (status, desc, None)
              end
      | input _ => Some (EX_ILLEGAL_ARGUMENT, desc, None)
      end
  | (status, _) => Some (status, desc, None)
  end.

End Impl.
End ModuleImpl.

(** ** Concrete streams and a concrete module, for evaluation *)

Definition reference_module_headers : ModuleHeaders (H := reference_headers) :=
  @Build_ModuleHeaders reference_headers Z Z 4 5 Z.eq_dec Z.eq_dec.

(** The position of the first element of a vector with a given id. *)
Definition firstWithId {T} (getId : T -> Z) (v : list T) (id : Z)
  : option nat :=
  fst <$> list_find (fun x => getId x = id) v.

(** An open stream on the sample context, with metadata a number. *)
Definition sample_stream
  : Streams.StreamCommonImpl (H := reference_headers) (Metadata := Z) :=
  @Streams.Build_StreamCommonImpl reference_headers Z
    sample_context 12345 0 false.

(** A 16-bit stereo profile at 44.1 and 48 kHz; an output mix port with
    that profile and the flag [NON_BLOCKING], and an input mix port. *)
Definition sample_profile
  : ModuleImpl.AudioProfile (H := reference_headers) :=
  @ModuleImpl.Build_AudioProfile reference_headers 2 [2; 1] [48000; 44100].

Definition sample_output_port
  : ModuleImpl.AudioPort (H0 := reference_module_headers) :=
  @ModuleImpl.Build_AudioPort reference_headers reference_module_headers
    2 [sample_profile] (output 32) (ModuleImpl.ext_mix 0 1).

Definition sample_input_port
  : ModuleImpl.AudioPort (H0 := reference_module_headers) :=
  @ModuleImpl.Build_AudioPort reference_headers reference_module_headers
    3 [sample_profile] (input 0) (ModuleImpl.ext_mix 0 0).

(** A request for a new config of the output port, fully specified. *)
Definition sample_request
  : ModuleImpl.AudioPortConfig (H0 := reference_module_headers) :=
  @ModuleImpl.Build_AudioPortConfig reference_headers reference_module_headers
    0 2 (Some 44100) (Some 1) (Some 2) None (Some (output 32))
    ModuleImpl.ext_unspecified.

(** A module with the two ports, no port config yet, no stream and no
    patch. *)
Definition sample_hal : ModuleImpl.Module (H0 := reference_module_headers) :=
  @ModuleImpl.Build_Module reference_headers reference_module_headers
    [sample_output_port; sample_input_port] [] 10
    {| simulateDeviceConnections := false; streamTransientStateDelayMs := 0 |}
    {| vd_forceTransientBurst := false; vd_forceSynchronousDrain := false |}
    ∅ false (fun _ => 0) (fun _ => false).

Definition sample_findPortById :=
  firstWithId (ModuleImpl.port_id (H0 := reference_module_headers)).

Definition sample_findPortConfigById :=
  firstWithId (ModuleImpl.cfg_id (H0 := reference_module_headers)).

(** The module after the request was applied. *)
Definition sample_hal_configured
  : ModuleImpl.Module (H0 := reference_module_headers) :=
  match ModuleImpl.setAudioPortConfig sample_findPortById
          sample_findPortConfigById sample_hal sample_request
          ModuleImpl.defaultPortConfig false with
  | Some (_, m, _, _) => m
  | None => sample_hal
  end.

(** The same for a config of the input port, on top of it. *)
Definition sample_input_request
  : ModuleImpl.AudioPortConfig (H0 := reference_module_headers) :=
  @ModuleImpl.Build_AudioPortConfig reference_headers reference_module_headers
    0 3 (Some 48000) (Some 2) (Some 2) None (Some (input 0))
    ModuleImpl.ext_unspecified.

Definition sample_hal_ready
  : ModuleImpl.Module (H0 := reference_module_headers) :=
  match ModuleImpl.setAudioPortConfig sample_findPortById
          sample_findPortConfigById sample_hal_configured
          sample_input_request ModuleImpl.defaultPortConfig false with
  | Some (_, m, _, _) => m
  | None => sample_hal_configured
  end.

(** * Properties *)

(** ** Inversion of runs of the worker monad *)

Lemma bind_inv {A B} (m : M A) (k : A -> M B) w b w2 t :
  bind m k w = (b, w2, t) ->
  exists a w1 t1 t2,
    m w = (a, w1, t1) /\ k a w1 = (b, w2, t2) /\ t = t1 ++ t2.
Proof.
  unfold bind. destruct (m w) as [[a w1] t1].
  destruct (k a w1) as [[b' w2'] t2] eqn:E.
  intros [= <- <- <-]. exists a, w1, t1, t2. auto.
Qed.

Ltac simpl_worker_in H :=
  progress cbn [mState mFrameCount mDataBuffer mDataBufferSize mFrameSize
                mInternalCommandCookie mTransientStateDelayMs
                mTransientStateStart mAsyncCallback mForceTransientBurst
                mForceSynchronousDrain mClosed
                with_mState with_mFrameCount with_mDataBuffer
                with_mTransientStateStart with_mClosed fst snd] in H.

Ltac minv1 :=
  match goal with
  | H : bind _ _ _ = _ |- _ =>
      let H1 := fresh "Hm" in
      let H2 := fresh "Hk" in
      apply bind_inv in H; destruct H as (? & ? & ? & ? & H1 & H2 & ->);
      cbn beta iota zeta in H1, H2
  | H : ret _ _ = _ |- _ => unfold ret in H
  | H : gets _ _ = _ |- _ => unfold gets in H
  | H : modify _ _ = _ |- _ => unfold modify in H
  | H : emit _ _ = _ |- _ => unfold emit in H
  | H : populateReplyWrongState _ _ _ = _ |- _ =>
      unfold populateReplyWrongState in H
  | H : populateReply _ _ _ _ = _ |- _ => unfold populateReply in H
  | H : setClosed _ = _ |- _ => unfold setClosed in H
  | H : switchToTransientState _ _ _ = _ |- _ =>
      unfold switchToTransientState in H
  | H : writeReply _ _ _ = _ |- _ => unfold writeReply in H
  | H : (_, _) = (_, _) |- _ => injection H as ? ?; subst
  | H : false = true |- _ => discriminate H
  | H : true = false |- _ => discriminate H
  | H : _ |- _ => simpl_worker_in H
  | H : _ = true |- _ => progress cbn [andb orb negb] in H
  | H : _ = false |- _ => progress cbn [andb orb negb] in H
  | H : context [bool_decide (?a = ?b)] |- _ =>
      let v := eval vm_compute in (bool_decide (a = b)) in
      lazymatch v with
      | true => change (bool_decide (a = b)) with true in H
      | false => change (bool_decide (a = b)) with false in H
      end; cbn beta iota zeta in H
  | H : (if ?c then _ else _) _ = _ |- _ =>
      tryif is_var c then fail else
        (let c' := eval cbn [andb orb negb] in c in
         lazymatch c' with
         | true => change c with true in H
         | false => change c with false in H
         | _ => let E := fresh "Hc" in destruct c eqn:E; try rewrite E in *
         end; cbn beta iota zeta in H)
  | H : (match ?x with _ => _ end) _ = _ |- _ =>
      tryif is_var x then fail else (destruct x eqn:?; cbn beta iota zeta in H)
  end.

(** Symbolic execution of a run [m w = (a, w', t)] in the context. *)
Ltac minv := repeat minv1.

Lemma replies_app t1 t2 : replies (t1 ++ t2) = replies t1 ++ replies t2.
Proof. unfold replies. apply omap_app. Qed.

Lemma commandsRead_app t1 t2 :
  commandsRead (t1 ++ t2) = commandsRead t1 ++ commandsRead t2.
Proof. unfold commandsRead. apply omap_app. Qed.

Lemma queueTraffic_app t1 t2 :
  queueTraffic (t1 ++ t2) = queueTraffic t1 ++ queueTraffic t2.
Proof. unfold queueTraffic. apply List.filter_app. Qed.

(** ** What [read] and [write] leave alone *)

Section Helpers.
Context `{Headers}.

Lemma read_frame env n reply w p w' t :
  StreamInWorkerLogic.read env n reply w = (p, w', t) ->
  mState w' = mState w
  /\ mInternalCommandCookie w' = mInternalCommandCookie w
  /\ queueTraffic t = []
  /\ (status (snd p) = STATUS_OK \/ status (snd p) = STATUS_NOT_ENOUGH_DATA).
Proof.
  intros E. unfold StreamInWorkerLogic.read in E.
  minv; cbn; auto.
Qed.

Lemma write_frame env n reply w p w' t :
  StreamOutWorkerLogic.write env n reply w = (p, w', t) ->
  mState w' = mState w
  /\ mAsyncCallback w' = mAsyncCallback w
  /\ mInternalCommandCookie w' = mInternalCommandCookie w
  /\ queueTraffic t = []
  /\ (status (snd p) = STATUS_OK \/ status (snd p) = STATUS_NOT_ENOUGH_DATA).
Proof.
  intros E. unfold StreamOutWorkerLogic.write in E.
  minv; cbn; auto 10.
Qed.

Lemma replies_queueTraffic t : replies (queueTraffic t) = replies t.
Proof.
  unfold replies, queueTraffic.
  induction t as [|e t IH]; [done|].
  destruct e; cbn; rewrite ?IH; done.
Qed.

Lemma commandsRead_queueTraffic t :
  commandsRead (queueTraffic t) = commandsRead t.
Proof.
  unfold commandsRead, queueTraffic.
  induction t as [|e t IH]; [done|].
  destruct e as [[c|]| | | | | | | | | | | |]; cbn; rewrite ?IH; done.
Qed.

Lemma no_traffic_no_replies t : queueTraffic t = [] -> replies t = [].
Proof. intros E. by rewrite <- replies_queueTraffic, E. Qed.

(** The head of the playback cycle changes the state at most, and only
    reports to the callback. *)
Lemma resolveTransientState_frame env w u w' t :
  StreamOutWorkerLogic.resolveTransientState env w = (u, w', t) ->
  mAsyncCallback w' = mAsyncCallback w
  /\ mInternalCommandCookie w' = mInternalCommandCookie w
  /\ queueTraffic t = [].
Proof.
  intros E. unfold StreamOutWorkerLogic.resolveTransientState in E.
  minv; cbn; auto.
Qed.

End Helpers.

(** ** The playback worker rejects a burst in exactly three states *)

Section PlaybackBurst.
Context `{Headers}.
Import StreamOutWorkerLogic.

(** C1.  A playback cycle that reads a burst command with a non-negative
    byte count, and whose reply is written, hands exactly one reply to the
    reply queue and continues.  The command is rejected -- the reply
    carries [STATUS_INVALID_OPERATION] and reports the state the command
    was read in, and the worker is left in that state -- if and only if
    that state is [ERROR], [TRANSFERRING] or [TRANSFER_PAUSED].  The
    state the command is read in is the state of the worker when the
    head of the cycle, which comes before the read, is through. *)
Theorem playback_burst_rejected_iff env w n :
  0 <= n ->
  commandMQ_readBlocking env = Some (burst n) ->
  (forall reply, replyMQ_writeBlocking env reply = true) ->
  let current := mState (worker (resolveTransientState env w)) in
  let r := cycle env w in
  exists reply,
    replies (trace r) = [reply]
    /\ result r = CONTINUE
    /\ ((status reply = STATUS_INVALID_OPERATION
         /\ state reply = current
         /\ mState (worker r) = current)
        <-> (current = ERROR \/ current = TRANSFERRING
             \/ current = TRANSFER_PAUSED)).
Proof.
  intros Hn Hc Hw current r. subst current r.
  destruct (cycle env w) as [[st w'] t] eqn:E.
  unfold cycle in E.
  apply bind_inv in E as (u & w1 & t1 & t2 & E1 & E2 & ->).
  rewrite E1. cbn [worker trace result fst snd].
  apply resolveTransientState_frame in E1 as (_ & _ & Ht1).
  rewrite replies_app, (no_traffic_no_replies _ Ht1). cbn [app].
  clear Ht1 t1 w.
  unfold processCommand in E2. rewrite Hc in E2.
  unfold dispatch in E2.
  assert ((0 <=? n) = true) as Hn1 by lia. rewrite Hn1 in E2.
  minv.
  all: try match goal with
           | Hx : replyMQ_writeBlocking _ _ = false |- _ =>
               rewrite Hw in Hx; discriminate Hx
           end.
  all: try match goal with
           | Hx : write _ _ _ _ = _ |- _ =>
               apply write_frame in Hx as (Hs & _ & _ & Ht & Hst)
           end.
  all: rewrite ?replies_app, ?(no_traffic_no_replies _ Ht); cbn.
  all: eexists; split; [reflexivity|]; split; [reflexivity|].
  all: cbn [status state set_state set_status].
  all: try rewrite Hs in *.
  all: destruct (mState _) eqn:Hcur; minv; try discriminate.
  all: intuition congruence.
Qed.

End PlaybackBurst.

Lemma playback_burst_rejected_iff_witness :
  let env := sample_env (Some (burst 8)) in
  let w := sample_worker TRANSFER_PAUSED (Some (StreamCallback 0)) in
  let current :=
    mState (worker (StreamOutWorkerLogic.resolveTransientState env w)) in
  let r := StreamOutWorkerLogic.cycle (H := reference_headers) env w in
  current = TRANSFER_PAUSED
  /\ exists reply,
      replies (trace r) = [reply]
      /\ result r = CONTINUE
      /\ ((status reply = STATUS_INVALID_OPERATION
           /\ state reply = current
           /\ mState (worker r) = current)
          <-> (current = ERROR \/ current = TRANSFERRING
               \/ current = TRANSFER_PAUSED)).
Proof.
  split; [reflexivity|].
  apply (playback_burst_rejected_iff (H := reference_headers)
           (sample_env (Some (burst 8)))
           (sample_worker TRANSFER_PAUSED (Some (StreamCallback 0))) 8);
    [lia | reflexivity | intros; reflexivity].
Defined.

(** ** Malformed commands *)

Section MalformedCommands.
Context `{Headers}.

(** C9.  On either kind of stream, a cycle that reads an exit command
    whose cookie is not the internal one, or a burst command with a
    negative byte count, and whose reply is written, hands one reply to
    the reply queue, with [STATUS_BAD_VALUE] and the state the command was
    read in; it leaves the worker as it was when the command was read,
    and returns [CONTINUE]. *)
Theorem malformed_command_rejected (d : Direction) env w c :
  commandMQ_readBlocking env = Some c ->
  ((exists cookie, c = halReservedExit cookie
                   /\ cookie <> mInternalCommandCookie w)
   \/ (exists n, c = burst n /\ n < 0)) ->
  (forall reply, replyMQ_writeBlocking env reply = true) ->
  let atRead :=
    match d with
    | Capture => w
    | Playback => worker (StreamOutWorkerLogic.resolveTransientState env w)
    end in
  let r := cycleOf d env w in
  exists reply,
    replies (trace r) = [reply]
    /\ status reply = STATUS_BAD_VALUE
    /\ state reply = mState atRead
    /\ worker r = atRead
    /\ result r = CONTINUE.
Proof.
  intros Hc Hbad Hw atRead r. subst atRead r.
  destruct d; cbn [cycleOf].
  - destruct (StreamInWorkerLogic.cycle env w) as [[st w'] t] eqn:E.
    unfold StreamInWorkerLogic.cycle in E. rewrite Hc in E.
    destruct Hbad as [(cookie & -> & Hne) | (n & -> & Hn)];
      unfold StreamInWorkerLogic.dispatch in E.
    + assert ((cookie =? mInternalCommandCookie w) = false) as Hck by lia.
      minv; [|rewrite Hw in *; discriminate]. cbn. eauto 10.
    + assert ((0 <=? n) = false) as Hneg by lia. rewrite Hneg in E.
      minv; [|rewrite Hw in *; discriminate]. cbn. eauto 10.
  - destruct (StreamOutWorkerLogic.cycle env w) as [[st w'] t] eqn:E.
    unfold StreamOutWorkerLogic.cycle in E.
    apply bind_inv in E as (u & w1 & t1 & t2 & E1 & E2 & ->).
    rewrite E1. cbn [worker trace result fst snd].
    apply resolveTransientState_frame in E1 as (_ & Hck & Ht1).
    rewrite replies_app, (no_traffic_no_replies _ Ht1). cbn [app].
    rewrite <- Hck in Hbad. clear Hck Ht1 t1 w.
    unfold StreamOutWorkerLogic.processCommand in E2. rewrite Hc in E2.
    destruct Hbad as [(cookie & -> & Hne) | (n & -> & Hn)];
      unfold StreamOutWorkerLogic.dispatch in E2.
    + assert ((cookie =? mInternalCommandCookie w1) = false) as Hck by lia.
      minv; [|rewrite Hw in *; discriminate]. cbn. eauto 10.
    + assert ((0 <=? n) = false) as Hneg by lia. rewrite Hneg in E2.
      minv; [|rewrite Hw in *; discriminate]. cbn. eauto 10.
Qed.

End MalformedCommands.

Lemma malformed_command_rejected_witness :
  let env := sample_env (Some (burst (-1))) in
  let w := sample_worker ACTIVE None in
  let r := cycleOf (H := reference_headers) Capture env w in
  exists reply,
    replies (trace r) = [reply]
    /\ status reply = STATUS_BAD_VALUE
    /\ state reply = ACTIVE
    /\ worker r = w
    /\ result r = CONTINUE.
Proof.
  apply (malformed_command_rejected (H := reference_headers) Capture
           (sample_env (Some (burst (-1)))) (sample_worker ACTIVE None)
           (burst (-1)));
    [reflexivity | right; exists (-1); split; [reflexivity | lia]
    | intros; reflexivity].
Defined.

(** ** Driver failures in the playback worker *)

Section PlaybackDriverFailure.
Context `{Headers}.
Import StreamOutWorkerLogic.

Lemma resolveTransientState_trace env w u w' t :
  resolveTransientState env w = (u, w', t) ->
  forall e, In e t -> e = OnDrainReady \/ e = OnTransferReady.
Proof.
  intros E. unfold resolveTransientState in E.
  minv; cbn; intuition.
Qed.

(** C2, as the code has it.  When a playback cycle reads a standby,
    pause, flush or drain command, calls the driver for it and the driver
    returns a status other than [OK], the worker is left in [ERROR], and
    the one reply the cycle hands to the reply queue carries the status
    the reply started with, [STATUS_BAD_VALUE], and reports the state
    [ERROR]. *)
Theorem playback_driver_failure env w c :
  commandMQ_readBlocking env = Some c ->
  let r := cycle env w in
  ((c = standby /\ In DriverStandby (trace r) /\ driver_standby env <> OK)
   \/ (c = pause /\ In DriverPause (trace r) /\ driver_pause env <> OK)
   \/ (c = flush /\ In DriverFlush (trace r) /\ driver_flush env <> OK)
   \/ (exists mode, c = drain mode /\ In (DriverDrain mode) (trace r)
                    /\ driver_drain env mode <> OK)) ->
  mState (worker r) = ERROR
  /\ exists reply ok,
      queueTraffic (trace r) = [CommandRead (Some c); ReplyWrite reply ok]
      /\ status reply = STATUS_BAD_VALUE
      /\ state reply = ERROR.
Proof.
  intros Hc r. subst r.
  destruct (cycle env w) as [[st w'] t] eqn:E.
  unfold cycle in E.
  apply bind_inv in E as (u & w1 & t1 & t2 & E1 & E2 & ->).
  cbn [worker trace result fst snd].
  pose proof (resolveTransientState_trace _ _ _ _ _ E1) as Hcb.
  apply resolveTransientState_frame in E1 as (_ & _ & Ht1).
  rewrite queueTraffic_app, Ht1. cbn [app].
  unfold processCommand in E2. rewrite Hc in E2.
  intros Hfail.
  assert (Hin : forall e, In e (t1 ++ t2) ->
                          (e <> OnDrainReady /\ e <> OnTransferReady) ->
                          In e t2).
  { intros e [Hi|Hi]%in_app_or Hne; [|done]. apply Hcb in Hi. intuition. }
  destruct Hfail
    as [(-> & Hi & Hd)
       | [(-> & Hi & Hd) | [(-> & Hi & Hd) | (mode & -> & Hi & Hd)]]];
    apply Hin in Hi; try (split; discriminate);
    unfold dispatch in E2; minv.
  all: try (exfalso;
            match goal with
            | Hx : (_ =? OK) = true |- _ =>
                apply Z.eqb_eq in Hx; contradiction
            end).
  all: try (exfalso; cbn in Hi; intuition discriminate).
  all: cbn; split; [reflexivity|].
  all: do 2 eexists; split; [reflexivity|split; reflexivity].
Qed.

End PlaybackDriverFailure.

Lemma playback_driver_failure_witness :
  let env := make_env (Some standby) false (-1) true in
  let w := sample_worker IDLE None in
  let r := StreamOutWorkerLogic.cycle (H := reference_headers) env w in
  mState (worker r) = ERROR
  /\ exists reply ok,
      queueTraffic (trace r)
      = [CommandRead (Some standby); ReplyWrite reply ok]
      /\ status reply = STATUS_BAD_VALUE
      /\ state reply = ERROR.
Proof.
  apply (playback_driver_failure (H := reference_headers)
           (make_env (Some standby) false (-1) true)
           (sample_worker IDLE None) standby);
    [reflexivity|].
  left. split; [reflexivity|]. split; [|discriminate].
  vm_compute. tauto.
Defined.

(** C2 as stated fails: IDLE worker, standby command, the driver's
    [standby] returns -1.  The state computed last before the failure is
    [IDLE]; the reply reports [ERROR]. *)
Lemma playback_driver_failure_reply_reports_error :
  let env := make_env (Some standby) false (-1) true in
  let w := sample_worker IDLE None in
  let r := StreamOutWorkerLogic.cycle (H := reference_headers) env w in
  mState w = IDLE
  /\ driver_standby env <> OK
  /\ exists reply,
      replies (trace r) = [reply]
      /\ state reply = ERROR
      /\ ~ (state reply = IDLE).
Proof.
  cbn zeta. split; [reflexivity|]. split; [discriminate|].
  eexists. split; [vm_compute; reflexivity|]. split; [reflexivity|discriminate].
Qed.

(** ** One reply for each command, in order *)

Section RepliesInOrder.
Context `{Headers}.

Ltac use_frames :=
  repeat match goal with
    | Hx : StreamOutWorkerLogic.write _ _ _ _ = _ |- _ =>
        apply write_frame in Hx as (_ & _ & _ & ? & _)
    | Hx : StreamInWorkerLogic.read _ _ _ _ = _ |- _ =>
        apply read_frame in Hx as (_ & _ & ? & _)
    end.

Ltac traffic :=
  cbn [trace result worker fst snd];
  use_frames;
  repeat (rewrite queueTraffic_app);
  repeat match goal with
    | Hx : queueTraffic _ = [] |- _ => rewrite Hx; clear Hx
    end;
  cbn;
  try match goal with
      | Hx : replyMQ_writeBlocking _ _ = _ |- _ => rewrite Hx
      end;
  eauto.

Lemma capture_cycle_traffic env w :
  let r := StreamInWorkerLogic.cycle env w in
  match commandMQ_readBlocking env with
  | None => queueTraffic (trace r) = [CommandRead None] /\ result r = ABORT
  | Some c =>
      if isInternalExit w c then
        queueTraffic (trace r) = [CommandRead (Some c)] /\ result r = EXIT
      else
        exists reply ok,
          queueTraffic (trace r) = [CommandRead (Some c); ReplyWrite reply ok]
          /\ result r = (if ok then CONTINUE else ABORT)
  end.
Proof.
  intros r. subst r.
  destruct (StreamInWorkerLogic.cycle env w) as [[st w'] t] eqn:E.
  unfold StreamInWorkerLogic.cycle in E.
  destruct (commandMQ_readBlocking env) as [c|]; [|minv; cbn; auto].
  destruct c; unfold StreamInWorkerLogic.dispatch in E; cbn [isInternalExit];
    minv; traffic.
Qed.

Lemma playback_cycle_traffic env w :
  let r := StreamOutWorkerLogic.cycle env w in
  match commandMQ_readBlocking env with
  | None => queueTraffic (trace r) = [CommandRead None] /\ result r = ABORT
  | Some c =>
      if isInternalExit w c then
        queueTraffic (trace r) = [CommandRead (Some c)] /\ result r = EXIT
      else
        exists reply ok,
          queueTraffic (trace r) = [CommandRead (Some c); ReplyWrite reply ok]
          /\ result r = (if ok then CONTINUE else ABORT)
  end.
Proof.
  intros r. subst r.
  destruct (StreamOutWorkerLogic.cycle env w) as [[st w'] t] eqn:E.
  unfold StreamOutWorkerLogic.cycle in E.
  apply bind_inv in E as (u & w1 & t1 & t2 & E1 & E2 & ->).
  cbn [worker trace result fst snd].
  apply resolveTransientState_frame in E1 as (_ & Hck & Ht1).
  rewrite queueTraffic_app, Ht1. cbn [app]. clear Ht1 t1.
  unfold StreamOutWorkerLogic.processCommand in E2.
  destruct (commandMQ_readBlocking env) as [c|]; [|minv; cbn; auto].
  destruct c; unfold StreamOutWorkerLogic.dispatch in E2;
    cbn [isInternalExit]; rewrite <- ?Hck; clear Hck;
    minv; traffic.
Qed.

Lemma workerLoop_alternating (d : Direction) envs w :
  Alternating (queueTraffic (trace (workerLoop (cycleOf d) envs w))).
Proof.
  revert w. induction envs as [|env envs IH]; intros w; [constructor|].
  cbn [workerLoop]. unfold bind at 1.
  assert (Hc :
    let r := cycleOf d env w in
    match commandMQ_readBlocking env with
    | None => queueTraffic (trace r) = [CommandRead None] /\ result r = ABORT
    | Some c =>
        if isInternalExit w c then
          queueTraffic (trace r) = [CommandRead (Some c)] /\ result r = EXIT
        else
          exists reply ok,
            queueTraffic (trace r) = [CommandRead (Some c); ReplyWrite reply ok]
            /\ result r = (if ok then CONTINUE else ABORT)
    end).
  { destruct d; [apply capture_cycle_traffic | apply playback_cycle_traffic]. }
  cbn zeta in Hc.
  destruct (cycleOf d env w) as [[st w1] t1].
  cbn [trace result worker fst snd] in Hc.
  destruct (commandMQ_readBlocking env) as [c|].
  - destruct (isInternalExit w c) eqn:Hx.
    + destruct Hc as [Ht ->]. cbn -[queueTraffic]. rewrite app_nil_r, Ht.
      destruct c; try discriminate. constructor.
    + destruct Hc as (reply & ok & Ht & ->).
      destruct ok.
      * specialize (IH w1).
        destruct (workerLoop (cycleOf d) envs w1) as [[st2 w2] t2].
        cbn [trace snd] in *. rewrite queueTraffic_app, Ht.
        cbn -[queueTraffic]. by constructor.
      * cbn -[queueTraffic]. rewrite app_nil_r, Ht. repeat constructor.
  - destruct Hc as [Ht ->]. cbn -[queueTraffic]. rewrite app_nil_r, Ht.
    constructor.
Qed.

(** C3, as the code has it.  On either kind of stream, a cycle whose
    read of the command queue succeeds reads one command.  Unless that is
    the exit command with the internal cookie, the cycle hands exactly
    one reply to the reply queue; for that exit command it hands none and
    returns [EXIT].  Over the cycles of the worker thread, command reads
    and reply writes strictly alternate: the reply to a command is handed
    over before the next command is read. *)
Theorem one_reply_per_command (d : Direction) :
  (forall env w,
     let r := cycleOf d env w in
     match commandMQ_readBlocking env with
     | None => commandsRead (trace r) = [] /\ replies (trace r) = []
     | Some c =>
         commandsRead (trace r) = [c]
         /\ if isInternalExit w c
            then replies (trace r) = [] /\ result r = EXIT
            else exists reply, replies (trace r) = [reply]
     end)
  /\ (forall envs w,
        Alternating (queueTraffic (trace (workerLoop (cycleOf d) envs w)))).
Proof.
  split; [|apply workerLoop_alternating].
  intros env w r.
  assert (Hc :
    match commandMQ_readBlocking env with
    | None => queueTraffic (trace r) = [CommandRead None] /\ result r = ABORT
    | Some c =>
        if isInternalExit w c then
          queueTraffic (trace r) = [CommandRead (Some c)] /\ result r = EXIT
        else
          exists reply ok,
            queueTraffic (trace r) = [CommandRead (Some c); ReplyWrite reply ok]
            /\ result r = (if ok then CONTINUE else ABORT)
    end).
  { destruct d; [apply capture_cycle_traffic | apply playback_cycle_traffic]. }
  rewrite <- commandsRead_queueTraffic, <- replies_queueTraffic.
  destruct (commandMQ_readBlocking env) as [c|].
  - destruct (isInternalExit w c).
    + destruct Hc as [-> ->]. done.
    + destruct Hc as (reply & ok & -> & _). cbn. eauto.
  - destruct Hc as [-> _]. done.
Qed.
End RepliesInOrder.

(** C3 as stated fails: the capture cycle consumes the exit command that
    carries the internal cookie and hands no reply to the reply queue. *)
Lemma internal_exit_gets_no_reply :
  let env := sample_env (Some (halReservedExit 12345)) in
  let w := sample_worker IDLE None in
  let r := cycleOf (H := reference_headers) Capture env w in
  commandsRead (trace r) = [halReservedExit 12345]
  /\ replies (trace r) = []
  /\ length (replies (trace r)) <> 1%nat.
Proof. cbn zeta. split; [reflexivity|]. split; [reflexivity|]. discriminate. Qed.

(** ** The transient states of the playback worker *)

Section TransientStates.
Context `{Headers}.
Import StreamOutWorkerLogic.

(** C4.  Time is the steady clock, in nanoseconds; the delay is
    configured in milliseconds.  When a playback cycle starts in
    [DRAINING] or [TRANSFERRING] and the clock at the head of the cycle
    stands at least [mTransientStateDelayMs] milliseconds after
    [mTransientStateStart], the time at which the state was entered, the
    head of the cycle leaves the state, whatever the command queue holds:
    without a callback the state becomes [IDLE] and nothing is reported;
    with a callback [DRAINING] becomes [IDLE] with [onDrainReady], and
    [TRANSFERRING] becomes [ACTIVE] with [onTransferReady].  Nothing else
    of the worker changes, and the rest of the cycle -- the read of the
    command queue and the handling of the command -- runs on the worker
    so resolved, after the notification. *)
Theorem transient_state_resolves env w :
  mState w = DRAINING \/ mState w = TRANSFERRING ->
  mTransientStateDelayMs w * 1000000
  <= steady_clock_now env - mTransientStateStart w ->
  let r0 := resolveTransientState env w in
  let r1 := processCommand env (worker r0) in
  let r := cycle env w in
  (mAsyncCallback w = None ->
     mState (worker r0) = IDLE /\ trace r0 = [])
  /\ (mAsyncCallback w <> None -> mState w = DRAINING ->
        mState (worker r0) = IDLE /\ trace r0 = [OnDrainReady])
  /\ (mAsyncCallback w <> None -> mState w = TRANSFERRING ->
        mState (worker r0) = ACTIVE /\ trace r0 = [OnTransferReady])
  /\ worker r0 = with_mState (mState (worker r0)) w
  /\ result r = result r1
  /\ worker r = worker r1
  /\ trace r = trace r0 ++ trace r1.
Proof.
  intros Hs Hd r0 r1 r. subst r0 r1 r.
  assert (Hcycle : forall x,
            resolveTransientState env w = x ->
            cycle env w =
            (result (processCommand env (worker x)),
             worker (processCommand env (worker x)),
             trace x ++ trace (processCommand env (worker x)))).
  { intros [[u w1] t1] E. unfold cycle, bind. rewrite E.
    cbn [worker trace fst snd].
    by destruct (processCommand env w1) as [[st w2] t2]. }
  rewrite (Hcycle _ eq_refl). cbn [result worker trace fst snd]. clear Hcycle.
  destruct (resolveTransientState env w) as [[u w1] t1] eqn:E.
  cbn [result worker trace fst snd].
  unfold resolveTransientState in E.
  assert ((mTransientStateDelayMs w <=? stateDurationMs env w) = true)
    as Hd'.
  { apply Z.leb_le. unfold stateDurationMs.
    apply Z.quot_le_lower_bound; lia. }
  clear Hd.
  destruct w as [s fc buf bs fs ck delay ts cb ftb fsd cl]; cbn in Hs, Hd'.
  destruct cb as [cb|];
    (destruct Hs as [-> | ->]; minv; cbn; rewrite ?Hd' in *; minv).
  all: cbn; repeat split; try done.
Qed.
End TransientStates.

Lemma transient_state_resolves_witness :
  let env := sample_env (Some getStatus) in
  let w := delayed_worker TRANSFERRING (Some (StreamCallback 0)) in
  let r0 := StreamOutWorkerLogic.resolveTransientState env w in
  let r := StreamOutWorkerLogic.cycle (H := reference_headers) env w in
  0 < mTransientStateDelayMs w
  /\ mState (worker r0) = ACTIVE
  /\ trace r0 = [OnTransferReady]
  /\ trace r
     = trace r0
       ++ trace (StreamOutWorkerLogic.processCommand (H := reference_headers)
                   env (worker r0)).
Proof.
  pose proof (transient_state_resolves (H := reference_headers)
                (sample_env (Some getStatus))
                (delayed_worker TRANSFERRING (Some (StreamCallback 0))))
    as Hres.
  destruct Hres as (_ & _ & Htr & _ & _ & _ & Htrace);
    [right; reflexivity | cbn; lia |].
  destruct Htr as [Hs Ht]; [discriminate | reflexivity |].
  split; [cbn; lia|].
  split; [exact Hs|]. split; [exact Ht|]. exact Htrace.
Defined.

(** ** Draining a capture stream *)

Section CaptureDrain.
Context `{Headers}.
Import StreamInWorkerLogic.

Lemma read_not_fatal env n reply w p w' t :
  read env n reply w = (p, w', t) ->
  (mIsConnected env = true ->
   forall buffer frameCount,
     tr_status (driver_transfer env buffer frameCount) = OK) ->
  fst p = true.
Proof.
  intros E Hdrv. unfold read in E.
  destruct (mIsConnected env) eqn:Hconn;
    minv; cbn; try done.
  all: rewrite Hdrv by done; done.
Qed.

(** C5, as the code has it.  A capture worker in [ACTIVE] that reads a
    drain command with mode [DRAIN_UNSPECIFIED], whose driver call
    succeeds, goes to [DRAINING]; if the next cycle then reads a burst
    command with a non-negative byte count and the driver's transfer does
    not fail (or the stream is not connected), the worker goes to
    [STANDBY].  Both replies are written and report these states. *)
Theorem capture_drain_then_burst env1 env2 w n :
  mState w = ACTIVE ->
  commandMQ_readBlocking env1 = Some (drain DRAIN_UNSPECIFIED) ->
  driver_drain env1 DRAIN_UNSPECIFIED = OK ->
  (forall reply, replyMQ_writeBlocking env1 reply = true) ->
  commandMQ_readBlocking env2 = Some (burst n) ->
  0 <= n ->
  (mIsConnected env2 = true ->
   forall buffer frameCount,
     tr_status (driver_transfer env2 buffer frameCount) = OK) ->
  (forall reply, replyMQ_writeBlocking env2 reply = true) ->
  let r1 := cycle env1 w in
  let r2 := cycle env2 (worker r1) in
  mState (worker r1) = DRAINING
  /\ result r1 = CONTINUE
  /\ (exists reply1, replies (trace r1) = [reply1]
                     /\ status reply1 = STATUS_OK
                     /\ state reply1 = DRAINING)
  /\ mState (worker r2) = STANDBY
  /\ result r2 = CONTINUE
  /\ (exists reply2, replies (trace r2) = [reply2]
                     /\ state reply2 = STANDBY).
Proof.
  intros Hs Hc1 Hd1 Hw1 Hc2 Hn Hd2 Hw2 r1 r2. subst r1 r2.
  assert (H1 : let r1 := cycle env1 w in
               mState (worker r1) = DRAINING
               /\ result r1 = CONTINUE
               /\ (exists reply1, replies (trace r1) = [reply1]
                                  /\ status reply1 = STATUS_OK
                                  /\ state reply1 = DRAINING)).
  { intros r1. subst r1.
    destruct (cycle env1 w) as [[st w'] t] eqn:E.
    unfold cycle in E. rewrite Hc1 in E. unfold dispatch in E.
    assert ((driver_drain env1 DRAIN_UNSPECIFIED =? OK) = true) as Hd1'
        by lia.
    minv; try (rewrite Hw1 in *; discriminate).
    all: try (rewrite Hs in *; minv; discriminate).
    all: try congruence.
    all: cbn; eauto 10. }
  cbn zeta in H1. destruct H1 as (Hs1 & Hr1 & Hrep1).
  split; [done|]. split; [done|]. split; [done|].
  destruct (cycle env1 w) as [[st1 w1] t1]. cbn [worker fst snd] in *.
  clear Hrep1 Hr1 Hc1 Hd1 Hw1 Hs w t1 st1 env1.
  destruct (cycle env2 w1) as [[st w'] t] eqn:E.
  unfold cycle in E. rewrite Hc2 in E. unfold dispatch in E.
  assert ((0 <=? n) = true) as Hn' by lia. rewrite Hn' in E.
  minv; try (rewrite Hw2 in *; discriminate).
  all: try match goal with
           | Hx : read _ _ _ _ = _ |- _ =>
               pose proof (read_not_fatal _ _ _ _ _ _ _ Hx Hd2);
               apply read_frame in Hx as (Hs & _ & Ht & _)
           end.
  all: try congruence.
  all: try (rewrite ?Hs, Hs1 in *; minv; discriminate).
  all: cbn; rewrite ?replies_app, ?(no_traffic_no_replies _ Ht); cbn.
  all: eauto 10.
Qed.
End CaptureDrain.

Lemma capture_drain_then_burst_witness :
  let env1 := sample_env (Some (drain DRAIN_UNSPECIFIED)) in
  let env2 := sample_env (Some (burst 8)) in
  let w := sample_worker ACTIVE None in
  let r1 := StreamInWorkerLogic.cycle (H := reference_headers) env1 w in
  let r2 := StreamInWorkerLogic.cycle (H := reference_headers) env2 (worker r1) in
  mState (worker r1) = DRAINING /\ mState (worker r2) = STANDBY.
Proof.
  pose proof (capture_drain_then_burst (H := reference_headers)
                (sample_env (Some (drain DRAIN_UNSPECIFIED)))
                (sample_env (Some (burst 8)))
                (sample_worker ACTIVE None) 8) as Hres.
  destruct Hres as (H1 & _ & _ & H2 & _);
    [ reflexivity | reflexivity | reflexivity | intros; reflexivity
    | reflexivity | lia | intros; reflexivity | intros; reflexivity | ].
  split; [exact H1 | exact H2].
Defined.

(** C5 as stated fails for the burst: in [DRAINING], a burst whose driver
    transfer fails leaves the worker in [ERROR], and a burst with a
    negative byte count leaves it in [DRAINING]. *)
Lemma capture_burst_in_draining_not_standby :
  let w := sample_worker DRAINING None in
  let failing := make_env (Some (burst 8)) true (-1) true in
  let negative := sample_env (Some (burst (-1))) in
  mState (worker (StreamInWorkerLogic.cycle (H := reference_headers) failing w))
  = ERROR
  /\ mState (worker (StreamInWorkerLogic.cycle (H := reference_headers)
                       negative w))
     = DRAINING.
Proof. cbn zeta. split; reflexivity. Qed.

(** ** What a capture burst moves *)

Section CaptureBurst.
Context `{Headers}.
Import StreamInWorkerLogic.




End CaptureBurst.


(** ** Blocking mode never transfers *)

Section BlockingMode.
Context `{Headers}.
Import StreamOutWorkerLogic.

Lemma cycle_keeps_callback env w :
  mAsyncCallback (worker (cycle env w)) = mAsyncCallback w.
Proof.
  destruct (cycle env w) as [[st w'] t] eqn:E.
  unfold cycle in E.
  apply bind_inv in E as (u & w1 & t1 & t2 & E1 & E2 & ->).
  cbn [worker fst snd].
  apply resolveTransientState_frame in E1 as (<- & _ & _).
  unfold processCommand in E2.
  destruct (commandMQ_readBlocking env) as [c|]; [|minv; done].
  destruct c; unfold dispatch in E2; minv;
    try match goal with
        | Hx : write _ _ _ _ = _ |- _ =>
            apply write_frame in Hx as (_ & Hcb & _)
        end; cbn; congruence.
Qed.

Lemma entering_transfer_needs_callback env w :
  mState w <> TRANSFERRING -> mState w <> TRANSFER_PAUSED ->
  (mState (worker (cycle env w)) = TRANSFERRING
   \/ mState (worker (cycle env w)) = TRANSFER_PAUSED) ->
  mAsyncCallback w <> None.
Proof.
  intros Hn1 Hn2.
  destruct (cycle env w) as [[st w'] t] eqn:E.
  unfold cycle in E.
  apply bind_inv in E as (u & w1 & t1 & t2 & E1 & E2 & ->).
  cbn [worker fst snd].
  assert (Hw1 : mAsyncCallback w1 = mAsyncCallback w
                /\ mState w1 <> TRANSFERRING /\ mState w1 <> TRANSFER_PAUSED).
  { unfold resolveTransientState in E1. minv; cbn; done. }
  destruct Hw1 as (<- & Hs1 & Hs2). clear E1 Hn1 Hn2 w t1.
  unfold processCommand in E2.
  destruct (commandMQ_readBlocking env) as [c|];
    [|minv; cbn; intros [?|?]; discriminate].
  destruct c; unfold dispatch in E2; minv;
    try match goal with
        | Hx : write _ _ _ _ = _ |- _ =>
            apply write_frame in Hx as (Hs & Hcb & _)
        end; cbn.
  all: intros [Hx|Hx]; try discriminate Hx; try congruence.
  all: repeat match goal with
         | Hb : _ || _ = false |- _ => apply orb_false_iff in Hb as [? ?]
         | Hb : bool_decide _ = false |- _ => apply bool_decide_eq_false in Hb
         end; try congruence.
Qed.

(** C10.  A playback worker created in [STANDBY] without an asynchronous
    callback never has a callback and is never in [TRANSFERRING] or
    [TRANSFER_PAUSED], whatever the cycles it has run met; so whenever
    its cycle takes the branch of the transient-state check for a null
    callback, the state is [DRAINING].  For any worker, a cycle that
    starts outside [TRANSFERRING] and [TRANSFER_PAUSED] and ends in one
    of them had a callback. *)
Theorem blocking_mode_never_transfers w0 w :
  mState w0 = STANDBY ->
  mAsyncCallback w0 = None ->
  Reachable w0 w ->
  mAsyncCallback w = None
  /\ mState w <> TRANSFERRING
  /\ mState w <> TRANSFER_PAUSED
  /\ (forall env, blockingResolution env w = true -> mState w = DRAINING)
  /\ (forall env w1,
        mState w1 <> TRANSFERRING -> mState w1 <> TRANSFER_PAUSED ->
        (mState (worker (cycle env w1)) = TRANSFERRING
         \/ mState (worker (cycle env w1)) = TRANSFER_PAUSED) ->
        mAsyncCallback w1 <> None).
Proof.
  intros Hs0 Hcb0 Hreach.
  assert (Hinv : mAsyncCallback w = None
                 /\ mState w <> TRANSFERRING /\ mState w <> TRANSFER_PAUSED).
  { induction Hreach as [|w env Hreach IH].
    - rewrite Hs0. repeat split; [done|discriminate|discriminate].
    - destruct IH as (Hcb & Hn1 & Hn2).
      split; [by rewrite cycle_keeps_callback|].
      split; intros Hx;
        eapply (entering_transfer_needs_callback env w); eauto. }
  destruct Hinv as (Hcb & Hn1 & Hn2).
  split; [done|]. split; [done|]. split; [done|].
  split; [|intros env w1; apply entering_transfer_needs_callback].
  intros env Hb. unfold blockingResolution in Hb.
  apply andb_true_iff in Hb as [Hb _].
  apply andb_true_iff in Hb as [Hb _].
  apply orb_true_iff in Hb as [Hb|Hb]; apply bool_decide_eq_true in Hb;
    congruence.
Qed.
End BlockingMode.

Lemma blocking_mode_never_transfers_witness :
  let w0 := sample_worker STANDBY None in
  let w := worker (StreamOutWorkerLogic.cycle (H := reference_headers)
                     (sample_env (Some start)) w0) in
  mState w = IDLE /\ mState w <> TRANSFERRING /\ mState w <> TRANSFER_PAUSED.
Proof.
  pose proof (blocking_mode_never_transfers (H := reference_headers)
                (sample_worker STANDBY None)
                (worker (StreamOutWorkerLogic.cycle (H := reference_headers)
                           (sample_env (Some start))
                           (sample_worker STANDBY None)))
                eq_refl eq_refl
                (Reachable_cycle _ _ _ (Reachable_init _)))
    as (_ & H1 & H2 & _).
  split; [reflexivity|]. split; [exact H1 | exact H2].
Defined.

(** ** Stream contexts *)

Section StreamContexts.
Context `{Headers}.
Import AudioModule.

Lemma ceiling_check n frameSize :
  0 <= kMaximumStreamBufferSizeBytes <= INT32_MAX ->
  0 < n -> 0 <= frameSize ->
  (to_size_t (Z.quot kMaximumStreamBufferSizeBytes n) <? frameSize) = true
  <-> kMaximumStreamBufferSizeBytes < frameSize * n.
Proof.
  intros Hk Hn Hfs. unfold INT32_MAX in Hk.
  rewrite Z.quot_div_nonneg by lia.
  assert (0 <= kMaximumStreamBufferSizeBytes / n <= kMaximumStreamBufferSizeBytes).
  { split; [apply Z.div_pos; lia|]. apply Z.div_le_upper_bound; nia. }
  unfold to_size_t. rewrite Z.mod_small by lia.
  rewrite Z.ltb_lt.
  pose proof (Z.mul_div_le kMaximumStreamBufferSizeBytes n ltac:(lia)).
  pose proof (Z.mul_succ_div_gt kMaximumStreamBufferSizeBytes n ltac:(lia)).
  nia.
Qed.

(** C7.  When [createStreamContext], given a caller's context without
    data queue, returns ok and leaves a context with a data queue, the
    descriptor filled from that context satisfies: the frame size of the
    context's format and channel layout times the exported
    [bufferSizeFrames] is the capacity of the data queue in bytes; the
    exported frame size is that frame size, and the exported queue is
    the data queue. *)
Theorem descriptor_round_trip m alloc id n cb ecb ctx0 ctx desc0 q :
  headers_in_range ->
  mDataMQ ctx0 = None ->
  createStreamContext m alloc id n cb ecb ctx0 = Some (EX_NONE, ctx) ->
  mDataMQ ctx = Some q ->
  let desc := fillDescriptor ctx desc0 in
  getFrameSizeInBytes (mFormat ctx) (mChannelLayout ctx)
  * desc_bufferSizeFrames desc
  = getQuantumCount q * getQuantumSize q
  /\ desc_frameSizeBytes desc
     = getFrameSizeInBytes (mFormat ctx) (mChannelLayout ctx)
  /\ desc_audio_fmq desc = Some q
  /\ dataQueueCapacityBytes ctx = getQuantumCount q * getQuantumSize q.
Proof.
  intros (Hk & Hfs & Hq) Hnone E Hdq desc. subst desc.
  unfold createStreamContext in E.
  destruct (n <=? 0) eqn:Hn0; [discriminate|].
  destruct (n <? kMinimumStreamBufferSizeFrames) eqn:Hmin; [discriminate|].
  destruct (portConfigById m id) as [pc|]; [|discriminate]. cbn in E.
  destruct (pc_format pc) as [format|]; [|discriminate]. cbn in E.
  destruct (pc_channelMask pc) as [mask|]; [|discriminate]. cbn in E.
  specialize (Hfs format mask).
  set (fs := getFrameSizeInBytes format mask) in *.
  destruct (fs =? 0) eqn:Hfs0; [discriminate|].
  destruct (to_size_t (Z.quot kMaximumStreamBufferSizeBytes n) <? fs) eqn:Hceil;
    [discriminate|].
  assert (Hle : fs * n <= kMaximumStreamBufferSizeBytes).
  { destruct (Z.lt_ge_cases kMaximumStreamBufferSizeBytes (fs * n)) as [Hlt|]; [|lia].
    apply ceiling_check in Hlt; [congruence|lia..]. }
  destruct (pc_flags pc) as [flags|]; [|discriminate]. cbn in E.
  match type of E with
  | (if ?c then _ else _) = _ => destruct c
  end.
  2:{ injection E as <-. congruence. }
  destruct (pc_sampleRate pc) as [rate|]; [|discriminate]. cbn in E.
  match type of E with
  | (if ?c then _ else _) = _ => destruct c
  end; [|discriminate].
  injection E as <-. cbn in Hdq. injection Hdq as <-.
  unfold fillDescriptor, dataQueueCapacityBytes, getFrameSize. cbn.
  fold fs. unfold INT32_MAX in Hk.
  assert (Hcount : to_size_t (fs * n) = fs * n).
  { unfold to_size_t. apply Z.mod_small. nia. }
  rewrite Hcount.
  assert (Hbytes : to_size_t (fs * n * sizeof_DataBufferElement)
                   = fs * n * sizeof_DataBufferElement).
  { unfold to_size_t. apply Z.mod_small. nia. }
  rewrite Hbytes.
  replace (fs * n * sizeof_DataBufferElement)
    with (n * sizeof_DataBufferElement * fs) by lia.
  rewrite Z.div_mul by lia.
  assert (Hframes : to_int64 (n * sizeof_DataBufferElement)
                    = n * sizeof_DataBufferElement).
  { unfold to_int64. rewrite Z.mod_small; nia. }
  rewrite Hframes.
  assert (Hfs32 : to_int32 fs = fs).
  { unfold to_int32. rewrite Z.mod_small; nia. }
  rewrite Hfs32.
  repeat split; lia.
Qed.

(** C8, as the code has it.  [createStreamContext] fails with
    [EX_ILLEGAL_ARGUMENT] when the buffer size in frames is not positive
    or is below [kMinimumStreamBufferSizeFrames], and, for a port config
    with format and channel mask, when the frame size is zero or the
    frame size times the buffer size exceeds
    [kMaximumStreamBufferSizeBytes].  Otherwise, for a port config with
    flags and sample rate that is not MMAP, it returns ok with a valid
    context whose data queue holds frame size times buffer size elements
    if the three queues it creates are valid, and fails with
    [EX_ILLEGAL_STATE], leaving the caller's context alone, if one of
    them is not. *)
Theorem createStreamContext_outcome m alloc id n cb ecb ctx0 :
  headers_in_range ->
  let outcome := createStreamContext m alloc id n cb ecb ctx0 in
  ((n <= 0 \/ n < kMinimumStreamBufferSizeFrames) ->
     outcome = Some (EX_ILLEGAL_ARGUMENT, ctx0))
  /\ (forall pc format channelMask,
        portConfigById m id = Some pc ->
        pc_format pc = Some format ->
        pc_channelMask pc = Some channelMask ->
        0 < n -> kMinimumStreamBufferSizeFrames <= n ->
        let frameSize := getFrameSizeInBytes format channelMask in
        ((frameSize = 0 \/ kMaximumStreamBufferSizeBytes < frameSize * n) ->
           outcome = Some (EX_ILLEGAL_ARGUMENT, ctx0))
        /\ (forall flags sampleRate,
              frameSize <> 0 ->
              frameSize * n <= kMaximumStreamBufferSizeBytes ->
              pc_flags pc = Some flags ->
              pc_sampleRate pc = Some sampleRate ->
              match flags with
              | input mask =>
                  isBitPositionFlagSet mask AudioInputFlags_MMAP_NOIRQ
              | output mask =>
                  isBitPositionFlagSet mask AudioOutputFlags_MMAP_NOIRQ
              end = false ->
              if commandMQ_valid alloc && replyMQ_valid alloc
                 && dataMQ_valid alloc
              then
                exists ctx,
                  outcome = Some (EX_NONE, ctx)
                  /\ isValid ctx = true
                  /\ mFormat ctx = format
                  /\ mChannelLayout ctx = channelMask
                  /\ dataQueueCapacityBytes ctx
                     = frameSize * n * sizeof_DataBufferElement
              else outcome = Some (EX_ILLEGAL_STATE, ctx0))).
Proof.
  intros (Hk & Hfs & Hq) outcome. subst outcome.
  unfold createStreamContext.
  split.
  { intros [Hn|Hn].
    - assert ((n <=? 0) = true) as -> by lia. done.
    - destruct (n <=? 0); [done|].
      assert ((n <? kMinimumStreamBufferSizeFrames) = true) as -> by lia.
      done. }
  intros pc format channelMask Hpc Hfmt Hmask Hn Hmin.
  set (frameSize := getFrameSizeInBytes format channelMask).
  assert ((n <=? 0) = false) as -> by lia.
  assert ((n <? kMinimumStreamBufferSizeFrames) = false) as -> by lia.
  rewrite Hpc. cbn. rewrite Hfmt. cbn. rewrite Hmask. cbn.
  fold frameSize. specialize (Hfs format channelMask). fold frameSize in Hfs.
  pose proof (ceiling_check n frameSize Hk Hn ltac:(lia)) as Hceil.
  split.
  { intros [Hz|Hbig].
    - assert ((frameSize =? 0) = true) as -> by lia. done.
    - destruct (frameSize =? 0); [done|].
      apply Hceil in Hbig. rewrite Hbig. done. }
  intros flags sampleRate Hnz Hle Hflags Hrate Hmmap.
  assert ((frameSize =? 0) = false) as Hnz' by lia. rewrite Hnz'.
  destruct (to_size_t (Z.quot kMaximumStreamBufferSizeBytes n) <? frameSize)
    eqn:Hc; [destruct Hceil as [Hbig _]; specialize (Hbig eq_refl); lia|].
  rewrite Hflags. cbn.
  assert (Hnon : match flags with
                 | input mask =>
                     negb (isBitPositionFlagSet mask AudioInputFlags_MMAP_NOIRQ)
                 | output mask =>
                     negb (isBitPositionFlagSet mask AudioOutputFlags_MMAP_NOIRQ)
                 end = true).
  { destruct flags; rewrite Hmmap; done. }
  rewrite Hnon, Hrate. cbn.
  unfold isValid, getFrameSize. cbn. fold frameSize. rewrite Hnz'.
  assert (Hcount : to_size_t (frameSize * n) = frameSize * n).
  { unfold to_size_t. apply Z.mod_small. unfold INT32_MAX in Hk. nia. }
  destruct (commandMQ_valid alloc), (replyMQ_valid alloc), (dataMQ_valid alloc);
    cbn; try done.
  eexists. split; [reflexivity|]. cbn.
  unfold dataQueueCapacityBytes, isValid, getFrameSize. cbn.
  fold frameSize. rewrite Hnz', Hcount. done.
Qed.
End StreamContexts.

Lemma reference_headers_in_range :
  AudioModule.headers_in_range (H := reference_headers).
Proof.
  split; [unfold INT32_MAX; cbn; lia|].
  split; [|cbn; lia].
  intros format layout. cbn. unfold to_size_t. apply Z.mod_pos_bound. lia.
Qed.

Lemma descriptor_round_trip_witness :
  let desc := AudioModule.fillDescriptor sample_context empty_descriptor in
  4 * desc_bufferSizeFrames desc = 4096 * 1
  /\ desc_frameSizeBytes desc = 4.
Proof.
  pose proof (descriptor_round_trip (H := reference_headers)
                sample_module (queues true true true) 1 1024 None None
                empty_context sample_context empty_descriptor sample_dataMQ)
    as Hres.
  destruct Hres as (Heq & Hfs & _);
    [ split; [unfold INT32_MAX; cbn; lia|];
      split; [|cbn; lia];
      intros format layout; cbn; unfold to_size_t;
      apply Z.mod_pos_bound; lia
    | reflexivity | reflexivity | reflexivity | ].
  split; [exact Heq | exact Hfs].
Defined.

Lemma createStreamContext_outcome_witness :
  AudioModule.createStreamContext (H := reference_headers)
    sample_module (queues true true true) 1 0 None None empty_context
  = Some (EX_ILLEGAL_ARGUMENT, empty_context).
Proof.
  pose proof (createStreamContext_outcome (H := reference_headers)
                sample_module (queues true true true) 1 0 None None
                empty_context) as Hres.
  destruct Hres as (Hsmall & _);
    [ split; [unfold INT32_MAX; cbn; lia|];
      split; [|cbn; lia];
      intros format layout; cbn; unfold to_size_t;
      apply Z.mod_pos_bound; lia | ].
  apply Hsmall. left. lia.
Defined.

(** C8 as stated fails: 1024 frames of 4 bytes on a valid port config pass
    every check on the sizes, yet [createStreamContext] does not succeed
    when the data queue it creates is not valid; it fails, and not with
    [EX_ILLEGAL_ARGUMENT]. *)
Lemma createStreamContext_invalid_queue :
  let outcome :=
    AudioModule.createStreamContext (H := reference_headers)
      sample_module (queues true true false) 1 1024 None None empty_context in
  0 < 1024
  /\ kMinimumStreamBufferSizeFrames (Headers := reference_headers) <= 1024
  /\ getFrameSizeInBytes (Headers := reference_headers) 2 2 = 4
  /\ 4 * 1024 <= kMaximumStreamBufferSizeBytes (Headers := reference_headers)
  /\ outcome = Some (EX_ILLEGAL_STATE, empty_context)
  /\ ~ (exists ctx, outcome = Some (EX_NONE, ctx)).
Proof.
  cbn zeta. split; [lia|]. split; [cbn; lia|]. split; [reflexivity|].
  split; [cbn; lia|]. split; [reflexivity|].
  intros (ctx & Hctx). discriminate Hctx.
Qed.

(** ** The anatomy of a cycle *)

Section CycleAnatomy.
Context `{Headers}.

(** A cycle is its head followed by the handling of one command. *)
Lemma cycle_split d env w :
  exists st w' t,
    handleCommand d env (worker (cycleHead d env w)) = (st, w', t)
    /\ cycleOf d env w = (st, w', trace (cycleHead d env w) ++ t).
Proof.
  destruct d; cbn [cycleOf cycleHead handleCommand].
  - cbn. destruct (StreamInWorkerLogic.cycle env w) as [[st w'] t]. eauto.
  - unfold StreamOutWorkerLogic.cycle, bind.
    destruct (StreamOutWorkerLogic.resolveTransientState env w) as [[u w1] t1].
    cbn [worker trace fst snd].
    destruct (StreamOutWorkerLogic.processCommand env w1) as [[st w'] t]. eauto.
Qed.

(** The head calls no driver and moves no data, and leaves every state
    but the two transient ones alone. *)
Lemma cycleHead_spec d env w :
  (forall e, In e (trace (cycleHead d env w)) ->
             e = OnDrainReady \/ e = OnTransferReady)
  /\ mFrameCount (worker (cycleHead d env w)) = mFrameCount w
  /\ mDataBuffer (worker (cycleHead d env w)) = mDataBuffer w
  /\ (mState w <> DRAINING -> mState w <> TRANSFERRING ->
      cycleHead d env w = (tt, w, [])).
Proof.
  destruct d; cbn [cycleHead].
  - cbn. intuition.
  - destruct (StreamOutWorkerLogic.resolveTransientState env w)
      as [[u w1] t1] eqn:E.
    cbn [worker trace fst snd].
    unfold StreamOutWorkerLogic.resolveTransientState in E.
    minv; cbn; intuition; try congruence.
    all: repeat match goal with
         | Hb : _ || _ = true |- _ => apply orb_true_iff in Hb as [Hb|Hb]
         | Hb : bool_decide _ = true |- _ => apply bool_decide_eq_true in Hb
         end; congruence.
Qed.

Lemma cycleHead_configuration d env w :
  sameConfiguration w (worker (cycleHead d env w)).
Proof.
  destruct d; cbn [cycleHead]; [cbn; done|].
  destruct (StreamOutWorkerLogic.resolveTransientState env w)
    as [[u w1] t1] eqn:E1.
  unfold StreamOutWorkerLogic.resolveTransientState in E1.
  minv; cbn; done.
Qed.

(** Both handlers are the same function of the switch they dispatch on. *)
Lemma handleCommand_unfold d env :
  handleCommand d env
  = match commandMQ_readBlocking env with
    | None =>
        bind (emit (CommandRead None))
          (fun _ => bind (modify (with_mState ERROR)) (fun _ => ret ABORT))
    | Some command =>
        bind (emit (CommandRead (Some command)))
          (fun _ =>
             bind (match d with
                   | Capture => StreamInWorkerLogic.dispatch
                   | Playback => StreamOutWorkerLogic.dispatch
                   end env command (set_status STATUS_BAD_VALUE reply_init))
               (fun r => match r with
                         | None => ret EXIT
                         | Some reply => writeReply env reply
                         end))
    end.
Proof. destruct d; reflexivity. Qed.

End CycleAnatomy.

Ltac split_cycle d env w E :=
  let st := fresh "st" in
  let w' := fresh "w'" in
  let t := fresh "t" in
  let w1 := fresh "w1" in
  destruct (cycle_split d env w) as (st & w' & t & E & ->);
  cbn [trace worker result fst snd];
  rewrite handleCommand_unfold in E.

Section GetStatus.
Context `{Headers}.

(** X1.  On either kind of stream and in every state, a cycle that reads
    [getStatus] calls no driver and moves no data: after its head it only
    reads the command and writes one reply, which carries [STATUS_OK] and
    the state the command was read in; when the reply is written the
    worker is left as it was when the command was read, and the cycle
    continues. *)
Theorem getStatus_reports d env w :
  commandMQ_readBlocking env = Some getStatus ->
  let head := cycleHead d env w in
  let r := cycleOf d env w in
  exists reply,
    trace r
    = trace head
      ++ [CommandRead (Some getStatus);
          ReplyWrite reply (replyMQ_writeBlocking env reply)]
    /\ status reply = STATUS_OK
    /\ state reply = mState (worker head)
    /\ (replyMQ_writeBlocking env reply = true ->
        worker r = worker head /\ result r = CONTINUE).
Proof.
  intros Hc head r. subst head r.
  split_cycle d env w E.
  set (w1 := worker (cycleHead d env w)) in *. clearbody w1.
  rewrite Hc in E.
  destruct d; cbn [StreamInWorkerLogic.dispatch StreamOutWorkerLogic.dispatch]
    in E; minv; cbn [app].
  all: eexists; split;
    [ f_equal; f_equal; f_equal;
      match goal with Hx : replyMQ_writeBlocking _ _ = _ |- _ =>
        rewrite Hx end; reflexivity | ].
  all: cbn; repeat split; try done; try congruence.
Qed.

End GetStatus.
Section CycleFrames.
Context `{Headers}.

Ltac frames :=
  repeat match goal with
    | Hx : StreamOutWorkerLogic.write _ _ _ _ = _ |- _ =>
        apply write_frame in Hx as (? & ? & ? & ? & [?|?])
    | Hx : StreamInWorkerLogic.read _ _ _ _ = _ |- _ =>
        apply read_frame in Hx as (? & ? & ? & [?|?])
    end.

Lemma no_traffic_In t e :
  queueTraffic t = [] -> In e t -> isQueueEvent e = false.
Proof.
  intros Hq Hin. destruct (isQueueEvent e) eqn:Hq'; [|done].
  assert (Hin' : In e (queueTraffic t)) by (apply filter_In; auto).
  rewrite Hq in Hin'. destruct Hin'.
Qed.

(** X2.  On either kind of stream, a reply with [STATUS_INVALID_OPERATION]
    means that nothing was done: the cycle, after its head, only read the
    command and wrote that reply -- no driver call, no data moved --, the
    reply reports the state the command was read in, and when the reply is
    written the worker is left exactly as it was when the command was
    read. *)
Theorem invalid_operation_changes_nothing d env w c reply :
  commandMQ_readBlocking env = Some c ->
  let head := cycleHead d env w in
  let r := cycleOf d env w in
  In reply (replies (trace r)) ->
  status reply = STATUS_INVALID_OPERATION ->
  trace r
  = trace head
    ++ [CommandRead (Some c);
        ReplyWrite reply (replyMQ_writeBlocking env reply)]
  /\ state reply = mState (worker head)
  /\ (replyMQ_writeBlocking env reply = true -> worker r = worker head).
Proof.
  intros Hc head r. subst head r.
  split_cycle d env w E.
  assert (Hhead : replies (trace (cycleHead d env w)) = []).
  { destruct (cycleHead_spec d env w) as (Ht & _).
    unfold replies.
    induction (trace (cycleHead d env w)) as [|e t' IH]; [done|].
    cbn. destruct (Ht e) as [-> | ->]; [by left| |]; cbn;
      apply IH; intros; apply Ht; by right. }
  rewrite replies_app, Hhead. cbn [app]. clear Hhead.
  set (w1 := worker (cycleHead d env w)) in *. clearbody w1.
  set (t0 := trace (cycleHead d env w)) in *. clearbody t0.
  rewrite Hc in E.
  destruct d, c;
    cbn [StreamInWorkerLogic.dispatch StreamOutWorkerLogic.dispatch] in E.
  all: minv.
  all: frames.
  all: repeat rewrite replies_app.
  all: repeat match goal with
         | Hx : queueTraffic _ = [] |- _ =>
             rewrite (no_traffic_no_replies _ Hx)
         end.
  all: cbn [replies omap app option_bind].
  all: try (cbn; intros []; fail).
  all: intros [<-|[]] Hst; cbn in Hst; try discriminate Hst;
    try congruence.
  all: cbn [app].
  all: repeat match goal with
         | Hx : replyMQ_writeBlocking _ _ = _ |- _ => rewrite Hx
         end.
  all: cbn.
  all: repeat match goal with
         | Hx : replyMQ_writeBlocking _ _ = _ |- _ => rewrite Hx
         end.
  all: repeat split; done.
Qed.


(** X4.  Only a burst moves audio data: a cycle of either kind that reads
    any other command, or fails to read one, leaves the frame counter and
    the scratch buffer as they were, and neither touches the data queue
    nor asks the driver for a transfer. *)
Theorem only_burst_moves_data d env w :
  (forall n, commandMQ_readBlocking env <> Some (burst n)) ->
  let r := cycleOf d env w in
  mFrameCount (worker r) = mFrameCount w
  /\ mDataBuffer (worker r) = mDataBuffer w
  /\ forall e, In e (trace r) -> movesData e = false.
Proof.
  intros Hc r. subst r.
  split_cycle d env w E.
  destruct (cycleHead_spec d env w) as (Ht & <- & <- & _).
  set (w1 := worker (cycleHead d env w)) in *. clearbody w1.
  set (t0 := trace (cycleHead d env w)) in *. clearbody t0.
  assert (Hgoal :
    mFrameCount w' = mFrameCount w1 /\ mDataBuffer w' = mDataBuffer w1
    /\ forall e, In e t -> movesData e = false).
  { destruct (commandMQ_readBlocking env) as [c|] eqn:Hcmd.
    2:{ minv. cbn. split; [done|split; [done|]]. intros ev [<-|[]]; done. }
    destruct d, c;
      cbn [StreamInWorkerLogic.dispatch StreamOutWorkerLogic.dispatch] in E.
    all: try (exfalso; eapply Hc; reflexivity).
    all: minv.
    all: cbn [app mFrameCount mDataBuffer with_mState with_mClosed
              with_mTransientStateStart].
    all: (split; [done|split; [done|]]).
    all: intros ev Hin; cbn in Hin;
      repeat (destruct Hin as [<-|Hin]; [done|]); destruct Hin. }
  destruct Hgoal as (? & ? & Hin). repeat split; try done.
  intros e [Hx|Hx]%in_app_or; [|by apply Hin].
  destruct (Ht e Hx) as [-> | ->]; done.
Qed.

(** X5.  A cycle of either kind returns [ABORT] exactly when the read
    from the command queue or the write to the reply queue fails, and it
    then leaves the worker in [ERROR]. *)
Theorem cycle_aborts_iff_queue_fails d env w :
  let r := cycleOf d env w in
  (result r = ABORT
   <-> (commandMQ_readBlocking env = None
        \/ exists reply, In (ReplyWrite reply false) (trace r)))
  /\ (result r = ABORT -> mState (worker r) = ERROR).
Proof.
  intros r. subst r.
  split_cycle d env w E.
  destruct (cycleHead_spec d env w) as (Ht & _).
  set (w1 := worker (cycleHead d env w)) in *. clearbody w1.
  set (t0 := trace (cycleHead d env w)) in *. clearbody t0.
  assert (Hgoal :
    (st = ABORT
     <-> (commandMQ_readBlocking env = None
          \/ exists reply, In (ReplyWrite reply false) t))
    /\ (st = ABORT -> mState w' = ERROR)).
  { destruct (commandMQ_readBlocking env) as [c|] eqn:Hcmd.
    2:{ minv. cbn. intuition. }
    destruct d, c;
      cbn [StreamInWorkerLogic.dispatch StreamOutWorkerLogic.dispatch] in E.
    all: minv.
    all: frames.
    all: cbn [mState with_mState fst snd].
    all: try match goal with
           | Hx : replyMQ_writeBlocking _ _ = _ |- _ => rewrite Hx
           end.
    all: (split; [split|]); try done.
    all: try (intros _; right; eexists; rewrite ?in_app_iff; cbn;
              intuition eauto 10; fail).
    all: try (intros [Hx|(reply & Hx)]; [discriminate Hx|exfalso]).
    all: try match goal with |- False => idtac | |- _ => shelve end.
    all: repeat (apply in_app_or in Hx as [Hx|Hx]).
    all: try match goal with
           | Hq : queueTraffic ?t = [], Hi : In _ ?t |- _ =>
               apply (no_traffic_In _ _ Hq) in Hi; discriminate Hi
           end.
    all: cbn in Hx; repeat (destruct Hx as [Hx|Hx]; [try discriminate Hx|]);
      try done.
    all: try (injection Hx as ? Hx; congruence).
    Unshelve. all: done. }
  destruct Hgoal as (Hiff & Herr). split; [|done].
  rewrite Hiff. split; intros [?|(reply & Hin)]; auto; right.
  - exists reply. apply in_or_app. by right.
  - exists reply. apply in_app_or in Hin as [Hin|Hin]; [|done].
    destruct (Ht _ Hin); discriminate.
Qed.

Lemma read_position env n reply0 w p w' t :
  StreamInWorkerLogic.read env n reply0 w = (p, w', t) ->
  status reply0 <> STATUS_OK ->
  status (snd p) = STATUS_OK ->
  observable (snd p)
  = if mIsConnected env
    then {| frames := mFrameCount w'; timeNs := elapsedRealtimeNano env |}
    else {| frames := Position_UNKNOWN; timeNs := Position_UNKNOWN |}.
Proof.
  intros E Hst0. unfold StreamInWorkerLogic.read in E.
  minv; cbn; try done; intros Hx; try discriminate Hx; congruence.
Qed.

Lemma write_position env n reply0 w p w' t :
  StreamOutWorkerLogic.write env n reply0 w = (p, w', t) ->
  status reply0 <> STATUS_OK ->
  status (snd p) = STATUS_OK ->
  observable (snd p)
  = if mIsConnected env
    then {| frames := mFrameCount w'; timeNs := elapsedRealtimeNano env |}
    else {| frames := Position_UNKNOWN; timeNs := Position_UNKNOWN |}.
Proof.
  intros E Hst0. unfold StreamOutWorkerLogic.write in E.
  minv; cbn; try done; intros Hx; try discriminate Hx; congruence.
Qed.

(** X6.  What a reply with [STATUS_OK] says of the position, on either
    kind of stream: while the stream is connected, the frame counter of
    the worker as the cycle leaves it and the clock reading; while it is
    not connected, [UNKNOWN] for both. *)
Theorem ok_reply_reports_position d env w reply :
  let r := cycleOf d env w in
  In reply (replies (trace r)) ->
  status reply = STATUS_OK ->
  observable reply
  = if mIsConnected env
    then {| frames := mFrameCount (worker r);
            timeNs := elapsedRealtimeNano env |}
    else {| frames := Position_UNKNOWN; timeNs := Position_UNKNOWN |}.
Proof.
  intros r. subst r.
  split_cycle d env w E.
  assert (Hhead : replies (trace (cycleHead d env w)) = []).
  { destruct (cycleHead_spec d env w) as (Ht & _).
    unfold replies.
    induction (trace (cycleHead d env w)) as [|e t' IH]; [done|].
    cbn. destruct (Ht e) as [-> | ->]; [by left| |]; cbn;
      apply IH; intros; apply Ht; by right. }
  rewrite replies_app, Hhead. cbn [app]. clear Hhead.
  set (w1 := worker (cycleHead d env w)) in *. clearbody w1.
  destruct (commandMQ_readBlocking env) as [c|] eqn:Hcmd.
  2:{ minv. cbn. intros []. }
  destruct d, c;
    cbn [StreamInWorkerLogic.dispatch StreamOutWorkerLogic.dispatch] in E.
  all: minv.
  all: try match goal with
         | Hx : StreamInWorkerLogic.read _ _ _ _ = _ |- _ =>
             pose proof (read_position _ _ _ _ _ _ _ Hx) as Hpos;
             apply read_frame in Hx as (? & ? & Hq & _)
         | Hx : StreamOutWorkerLogic.write _ _ _ _ = _ |- _ =>
             pose proof (write_position _ _ _ _ _ _ _ Hx) as Hpos;
             apply write_frame in Hx as (? & ? & ? & Hq & _)
         end.
  all: repeat rewrite replies_app.
  all: try rewrite (no_traffic_no_replies _ Hq).
  all: cbn [replies omap app option_bind].
  all: try (cbn; intros []; fail).
  all: intros [<-|[]] Hst; cbn in Hst; try discriminate Hst.
  all: cbn [observable set_state set_observable set_status mFrameCount
            with_mState with_mTransientStateStart fst snd].
  all: repeat match goal with
         | Hx : mIsConnected _ = _ |- _ => rewrite Hx
         end; try done.
  all: apply Hpos; [cbn; discriminate|done].
Qed.

Lemma read_configuration env n reply0 w p w' t :
  StreamInWorkerLogic.read env n reply0 w = (p, w', t) ->
  sameConfiguration w w'.
Proof.
  intros E. unfold StreamInWorkerLogic.read in E.
  minv; cbn; done.
Qed.

Lemma write_configuration env n reply0 w p w' t :
  StreamOutWorkerLogic.write env n reply0 w = (p, w', t) ->
  sameConfiguration w w'.
Proof.
  intros E. unfold StreamOutWorkerLogic.write in E.
  minv; cbn; done.
Qed.

(** X7.  A cycle of either kind changes nothing of what [init] and the
    constructor set up: the size of the scratch buffer, the frame size,
    the cookie of the internal exit command, the delay of the transient
    states, the asynchronous callback and the two vendor flags. *)
Theorem cycle_keeps_configuration d env w :
  let w' := worker (cycleOf d env w) in
  mDataBufferSize w' = mDataBufferSize w
  /\ mFrameSize w' = mFrameSize w
  /\ mInternalCommandCookie w' = mInternalCommandCookie w
  /\ mTransientStateDelayMs w' = mTransientStateDelayMs w
  /\ mAsyncCallback w' = mAsyncCallback w
  /\ mForceTransientBurst w' = mForceTransientBurst w
  /\ mForceSynchronousDrain w' = mForceSynchronousDrain w.
Proof.
  intros w'. subst w'.
  split_cycle d env w E.
  destruct (cycleHead_configuration d env w)
    as (<- & <- & <- & <- & <- & <- & <-).
  set (w1 := worker (cycleHead d env w)) in *. clearbody w1.
  destruct (commandMQ_readBlocking env) as [c|] eqn:Hcmd; [|minv; cbn; done].
  destruct d, c;
    cbn [StreamInWorkerLogic.dispatch StreamOutWorkerLogic.dispatch] in E.
  all: minv.
  all: try match goal with
         | Hx : StreamInWorkerLogic.read _ _ _ _ = _ |- _ =>
             apply read_configuration in Hx
               as (<- & <- & <- & <- & <- & <- & <-)
         | Hx : StreamOutWorkerLogic.write _ _ _ _ = _ |- _ =>
             apply write_configuration in Hx
               as (<- & <- & <- & <- & <- & <- & <-)
         end.
  all: cbn; done.
Qed.

End CycleFrames.
Section TransitionTables.
Context `{Headers}.

Ltac frames :=
  repeat match goal with
    | Hx : StreamOutWorkerLogic.write _ _ _ _ = _ |- _ =>
        apply write_frame in Hx as (? & ? & ? & ? & ?)
    | Hx : StreamInWorkerLogic.read _ _ _ _ = _ |- _ =>
        apply read_frame in Hx as (? & ? & ? & ?)
    end.





End TransitionTables.
Section PlaybackTransfer.
Context `{Headers}.
Import StreamOutWorkerLogic.





(** X12.  Pausing and resuming a playback stream is a round trip: a
    pause read in [ACTIVE], [DRAINING] or [TRANSFERRING], for which the
    driver succeeds, followed by a start, brings the worker back to the
    state the pause was read in, by way of the matching paused state;
    both replies carry [STATUS_OK], the driver is called once, to pause,
    and the frame counter is where it was. *)
Theorem playback_pause_start_round_trip env1 env2 w :
  commandMQ_readBlocking env1 = Some pause ->
  commandMQ_readBlocking env2 = Some start ->
  driver_pause env1 = OK ->
  (forall reply, replyMQ_writeBlocking env1 reply = true) ->
  (forall reply, replyMQ_writeBlocking env2 reply = true) ->
  let w1 := worker (resolveTransientState env1 w) in
  (mState w1 = ACTIVE \/ mState w1 = DRAINING \/ mState w1 = TRANSFERRING) ->
  let r1 := cycle env1 w in
  let r2 := cycle env2 (worker r1) in
  exists reply1 reply2,
    replies (trace r1) = [reply1]
    /\ replies (trace r2) = [reply2]
    /\ status reply1 = STATUS_OK
    /\ status reply2 = STATUS_OK
    /\ state reply1
       = match mState w1 with
         | ACTIVE => PAUSED
         | DRAINING => DRAIN_PAUSED
         | _ => TRANSFER_PAUSED
         end
    /\ state reply2 = mState w1
    /\ mState (worker r2) = mState w1
    /\ mFrameCount (worker r2) = mFrameCount w
    /\ driverCalls (trace r1 ++ trace r2) = [DriverPause].
Proof.
  intros Hc1 Hc2 Hp Hw1 Hw2 w1 Hs r1 r2. subst w1 r1 r2.
  destruct (cycle_split Playback env1 w) as (st1 & w1' & t1 & E1 & E1').
  cbn [cycleOf cycleHead handleCommand] in E1, E1'. rewrite E1'. clear E1'.
  cbn [worker trace fst snd].
  destruct (cycleHead_spec Playback env1 w) as (Ht & Hfc & _).
  cbn [cycleHead] in Ht, Hfc.
  assert (Hhead : replies (trace (resolveTransientState env1 w)) = []
                  /\ driverCalls (trace (resolveTransientState env1 w)) = []).
  { unfold replies, driverCalls.
    induction (trace (resolveTransientState env1 w)) as [|e t' IH]; [done|].
    cbn. destruct (Ht e) as [-> | ->]; [by left| |]; cbn;
      apply IH; intros; apply Ht; by right. }
  destruct Hhead as (Hhead1 & Hhead2).
  unfold driverCalls in *.
  rewrite replies_app, Hhead1, !List.filter_app, Hhead2. cbn [app].
  clear Hhead1 Hhead2 Ht.
  rewrite <- Hfc. clear Hfc.
  set (w1 := worker (resolveTransientState env1 w)) in *. clearbody w1.
  clear w.
  unfold processCommand in E1. rewrite Hc1 in E1.
  unfold dispatch in E1. rewrite Hp in E1.
  destruct (cycle_split Playback env2 w1') as (st2 & w2' & t2 & E2 & E2').
  cbn [cycleOf cycleHead handleCommand] in E2, E2'. rewrite E2'. clear E2'.
  cbn [worker trace fst snd].
  destruct (cycleHead_spec Playback env2 w1') as (_ & _ & _ & Hh).
  cbn [cycleHead] in Hh.
  minv.
  all: try (rewrite Hw1 in *; discriminate).
  all: try (destruct Hs as [?|[?|?]]; congruence).
  all: cbn [mState with_mState] in Hh.
  all: repeat match goal with
         | Hx : Some _ = Some _ |- _ => injection Hx as <-
         end.
  all: specialize (Hh ltac:(done) ltac:(done)).
  all: rewrite Hh in *.
  all: cbn [worker trace fst snd app] in *.
  all: unfold processCommand in E2; rewrite Hc2 in E2; unfold dispatch in E2.
  all: minv.
  all: try (rewrite Hw2 in *; discriminate).
  all: cbn.
  all: do 2 eexists; repeat split; try done.
Qed.
End PlaybackTransfer.
Lemma getStatus_reports_witness :
  let env := sample_env (Some getStatus) in
  let w := sample_worker PAUSED None in
  let r := cycleOf (H := reference_headers) Capture env w in
  exists reply,
    trace r
    = trace (cycleHead (H := reference_headers) Capture env w)
      ++ [CommandRead (Some getStatus);
          ReplyWrite reply (replyMQ_writeBlocking env reply)]
    /\ status reply = STATUS_OK
    /\ state reply
       = mState (worker (cycleHead (H := reference_headers) Capture env w))
    /\ (replyMQ_writeBlocking env reply = true ->
        worker r = worker (cycleHead (H := reference_headers) Capture env w)
        /\ result r = CONTINUE).
Proof.
  apply (getStatus_reports (H := reference_headers) Capture
           (sample_env (Some getStatus)) (sample_worker PAUSED None)).
  reflexivity.
Defined.

Lemma invalid_operation_changes_nothing_witness :
  let env := sample_env (Some flush) in
  let w := sample_worker ACTIVE None in
  let r := cycleOf (H := reference_headers) Playback env w in
  let reply :=
    set_state ACTIVE
      (set_status STATUS_INVALID_OPERATION (reply_init (H := reference_headers)))
  in
  state reply = ACTIVE /\ (replyMQ_writeBlocking env reply = true -> worker r = w).
Proof.
  pose proof (invalid_operation_changes_nothing (H := reference_headers)
                Playback (sample_env (Some flush)) (sample_worker ACTIVE None)
                flush
                (set_state ACTIVE
                   (set_status STATUS_INVALID_OPERATION
                      (reply_init (H := reference_headers)))))
    as Hres.
  destruct Hres as (_ & Hs & Hw);
    [reflexivity | left; reflexivity | reflexivity |].
  split; [exact Hs | exact Hw].
Defined.


Lemma only_burst_moves_data_witness :
  let w := sample_worker ACTIVE None in
  let r := cycleOf (H := reference_headers) Capture
             (make_env (Some (drain DRAIN_UNSPECIFIED)) true OK true) w in
  mFrameCount (worker r) = mFrameCount w
  /\ mDataBuffer (worker r) = mDataBuffer w
  /\ forall e, In e (trace r) -> movesData e = false.
Proof.
  apply (only_burst_moves_data (H := reference_headers) Capture
           (make_env (Some (drain DRAIN_UNSPECIFIED)) true OK true)
           (sample_worker ACTIVE None)).
  intros n; discriminate.
Defined.

Lemma ok_reply_reports_position_witness :
  let env := make_env (Some (burst 8)) true OK true in
  let w := sample_worker IDLE None in
  let r := cycleOf (H := reference_headers) Playback env w in
  let reply :=
    {| status := STATUS_OK; state := ACTIVE;
       observable := {| frames := 2; timeNs := 1000 |};
       fmqByteCount := 8; latencyMs := 10 |} in
  observable reply
  = {| frames := mFrameCount (worker r); timeNs := elapsedRealtimeNano env |}.
Proof.
  apply (ok_reply_reports_position (H := reference_headers) Playback
           (make_env (Some (burst 8)) true OK true)
           (sample_worker IDLE None)
           {| status := STATUS_OK; state := ACTIVE;
              observable := {| frames := 2; timeNs := 1000 |};
              fmqByteCount := 8; latencyMs := 10 |});
    [left; reflexivity | reflexivity].
Defined.







Lemma playback_pause_start_round_trip_witness :
  let w := sample_worker ACTIVE None in
  let r1 := StreamOutWorkerLogic.cycle (H := reference_headers)
              (sample_env (Some pause)) w in
  let r2 := StreamOutWorkerLogic.cycle (H := reference_headers)
              (sample_env (Some start)) (worker r1) in
  exists reply1 reply2,
    replies (trace r1) = [reply1]
    /\ replies (trace r2) = [reply2]
    /\ status reply1 = STATUS_OK
    /\ status reply2 = STATUS_OK
    /\ state reply1 = PAUSED
    /\ state reply2 = ACTIVE
    /\ mState (worker r2) = ACTIVE
    /\ mFrameCount (worker r2) = mFrameCount w
    /\ driverCalls (trace r1 ++ trace r2) = [DriverPause].
Proof.
  apply (playback_pause_start_round_trip (H := reference_headers)
           (sample_env (Some pause)) (sample_env (Some start))
           (sample_worker ACTIVE None));
    [ reflexivity | reflexivity | reflexivity | intros; reflexivity
    | intros; reflexivity | left; reflexivity ].
Defined.
(** ** The worker's [init] *)

Section WorkerInitProperties.
Context `{Headers}.
Import AudioModule StreamWorkerCommonLogic.

Lemma append_nonempty (a b : string) : a <> ""%string -> (a +:+ b)%string <> ""%string.
Proof. destruct a; [done|]. intros _. discriminate. Qed.

(** X13.  [init] succeeds -- returns the empty message -- exactly when
    the three queues are there, the quantum of the data queue is the size
    of a buffer element, the scratch buffer could be allocated and the
    driver initialised.  It then leaves a scratch buffer with as many
    elements as the data queue has bytes, [mDataBufferSize] of them.
    It never touches the state or the frame counter, and does nothing
    on the queues. *)
Theorem init_succeeds_iff commandMQ replyMQ dataMQ newBuffer driver_init w :
  let r := init commandMQ replyMQ dataMQ newBuffer driver_init w in
  (result r = ""%string
   <-> (is_Some commandMQ /\ is_Some replyMQ
        /\ (exists q, dataMQ = Some q
                      /\ getQuantumSize q = sizeof_DataBufferElement)
        /\ is_Some newBuffer /\ driver_init = OK))
  /\ (result r = ""%string ->
      exists q,
        dataMQ = Some q
        /\ mDataBufferSize (worker r)
           = to_size_t (getQuantumCount q * getQuantumSize q)
        /\ mDataBufferSize (worker r)
           = Z.of_nat (length (mDataBuffer (worker r))))
  /\ mState (worker r) = mState w
  /\ mFrameCount (worker r) = mFrameCount w
  /\ trace r = [].
Proof.
  intros r. subst r.
  destruct (init commandMQ replyMQ dataMQ newBuffer driver_init w)
    as [[msg w'] t] eqn:E.
  cbn [result worker trace fst snd].
  unfold init in E.
  destruct commandMQ as [c|]; [|minv; cbn; split; [|done];
    split; [done|intros ([? ?] & _); done]].
  destruct replyMQ as [rq|]; [|minv; cbn; split; [|done];
    split; [done|intros (_ & [? ?] & _); done]].
  destruct dataMQ as [q|]; [|minv; cbn; split; [|done];
    split; [done|intros (_ & _ & (? & ? & _) & _); done]].
  destruct (sizeof_DataBufferElement =? getQuantumSize q) eqn:Hq;
    cbn [negb] in E.
  2:{ minv. cbn. split; [|split; [|done]].
      - split; [intros Hx; by apply append_nonempty in Hx|].
        intros (_ & _ & (q' & [= <-] & ?) & _); lia.
      - intros Hx; by apply append_nonempty in Hx. }
  apply Z.eqb_eq in Hq.
  destruct newBuffer as [element|].
  2:{ minv. cbn. split; [|split; [|done]].
      - split; [intros Hx; by apply append_nonempty in Hx|].
        intros (_ & _ & _ & [? ?] & _); done.
      - intros Hx; by apply append_nonempty in Hx. }
  destruct (driver_init =? OK) eqn:Hd; cbn [negb] in E.
  2:{ minv. cbn. split; [|split; [|done]].
      - split; [intros Hx; by apply append_nonempty in Hx|].
        intros (_ & _ & _ & _ & ?); lia.
      - intros Hx; by apply append_nonempty in Hx. }
  apply Z.eqb_eq in Hd.
  minv. cbn. split; [|split; [|done]].
  - split; [|done]. intros _. repeat split; eauto.
  - intros _. exists q. split; [done|]. split; [done|].
    rewrite length_fmap, length_seq.
    assert (0 <= to_size_t (getQuantumCount q * getQuantumSize q)).
    { unfold to_size_t. apply Z.mod_pos_bound. lia. }
    lia.
Qed.

Lemma createStreamContext_queues m alloc id n cb ecb ctx0 ctx q :
  headers_in_range ->
  mDataMQ ctx0 = None ->
  createStreamContext m alloc id n cb ecb ctx0 = Some (EX_NONE, ctx) ->
  mDataMQ ctx = Some q ->
  is_Some (mCommandMQ ctx) /\ is_Some (mReplyMQ ctx)
  /\ getQuantumSize q = sizeof_DataBufferElement
  /\ getQuantumCount q = getFrameSize ctx * n
  /\ 0 < n
  /\ 0 < getFrameSize ctx
  /\ getFrameSize ctx * n <= kMaximumStreamBufferSizeBytes.
Proof.
  intros (Hk & Hfs & Hsz) Hq0 E Hq.
  unfold createStreamContext in E.
  destruct (n <=? 0) eqn:Hn; [by simplify_eq|].
  destruct (n <? kMinimumStreamBufferSizeFrames) eqn:Hmin; [by simplify_eq|].
  destruct (portConfigById m id) as [pc|]; [cbn in E|done].
  destruct (pc_format pc) as [format|]; [cbn in E|done].
  destruct (pc_channelMask pc) as [channelMask|]; [cbn in E|done].
  specialize (Hfs format channelMask).
  set (frameSize := getFrameSizeInBytes format channelMask) in *.
  destruct (frameSize =? 0) eqn:Hz; [by simplify_eq|].
  destruct (to_size_t (Z.quot kMaximumStreamBufferSizeBytes n) <? frameSize)
    eqn:Hc; [by simplify_eq|].
  destruct (pc_flags pc) as [flags|]; [cbn in E|done].
  assert (Hceil : frameSize * n <= kMaximumStreamBufferSizeBytes).
  { pose proof (ceiling_check n frameSize Hk ltac:(lia) ltac:(lia)) as Hx.
    destruct (Z_le_gt_dec (frameSize * n) kMaximumStreamBufferSizeBytes);
      [done|].
    destruct Hx as [_ Hx]. rewrite Hx in Hc by lia. done. }
  match type of E with
  | (if ?c then _ else _) = _ => destruct c
  end.
  2:{ simplify_eq; congruence. }
  destruct (pc_sampleRate pc) as [sampleRate|]; [cbn in E|done].
  match type of E with
  | (if ?c then _ else _) = _ => destruct c
  end; [|simplify_eq; congruence].
  injection E as <-. cbn in Hq. injection Hq as <-.
  unfold getFrameSize. cbn. fold frameSize.
  assert (to_size_t (frameSize * n) = frameSize * n) as ->.
  { unfold to_size_t. apply Z.mod_small. unfold INT32_MAX in Hk. nia. }
  repeat split; eauto; lia.
Qed.

(** X14.  A context [createStreamContext] made and a worker's [init] fit:
    when [createStreamContext] returns ok with a context that has a data
    queue, [init] on the queues of that context passes its checks, and,
    the allocation and the driver permitting, succeeds with a scratch
    buffer of frame size times requested frames times element size
    bytes, the capacity of the data queue. *)
Theorem init_accepts_created_context m alloc id n cb ecb ctx0 ctx q
    element w :
  headers_in_range ->
  mDataMQ ctx0 = None ->
  createStreamContext m alloc id n cb ecb ctx0 = Some (EX_NONE, ctx) ->
  mDataMQ ctx = Some q ->
  let r := init (mCommandMQ ctx) (mReplyMQ ctx) (mDataMQ ctx)
             (Some element) OK w in
  result r = ""%string
  /\ mDataBufferSize (worker r)
     = getFrameSize ctx * n * sizeof_DataBufferElement
  /\ mDataBufferSize (worker r) = dataQueueCapacityBytes ctx
  /\ Z.of_nat (length (mDataBuffer (worker r))) = mDataBufferSize (worker r).
Proof.
  intros Hrange Hq0 E Hq r. subst r.
  destruct (createStreamContext_queues _ _ _ _ _ _ _ _ _ Hrange Hq0 E Hq)
    as ([c Hc] & [rq Hr] & Hsz & Hcnt & Hn & Hfs & Hceil).
  destruct Hrange as (Hk & _ & Hel).
  unfold dataQueueCapacityBytes.
  rewrite Hc, Hr, Hq. unfold init.
  rewrite Hsz, Z.eqb_refl. cbn [negb].
  assert (Hsize : to_size_t (getQuantumCount q * sizeof_DataBufferElement)
                  = getFrameSize ctx * n * sizeof_DataBufferElement).
  { rewrite Hcnt. unfold to_size_t. apply Z.mod_small.
    unfold INT32_MAX in Hk. nia. }
  cbn. rewrite length_fmap, length_seq, Hsize, Hcnt.
  repeat split; try done. nia.
Qed.

End WorkerInitProperties.
(** ** The stream objects *)

Section StreamLifecycle.
Context `{Headers}.
Context {Metadata : Type}.
Import Streams.

Lemma closed_stream_refuses wb (cs : list StreamCall) (s : StreamCommonImpl (Metadata := Metadata)) :
  isClosed s = true ->
  runCalls wb cs s = (replicate (length cs) EX_ILLEGAL_STATE, s, []).
Proof.
  intros Hc. induction cs as [|c cs IH]; [done|].
  cbn [runCalls length replicate].
  assert (runCall wb c s = (EX_ILLEGAL_STATE, s, [])) as ->.
  { destruct c; cbn; unfold close, prepareToClose, updateMetadata;
      rewrite Hc; done. }
  rewrite IH. done.
Qed.

(** X15.  A stream is closed once.  [close] on a stream that is not
    closed returns ok; it writes the exit command with the stream's
    internal cookie to the command queue, if the context has one, then
    joins the worker, and leaves the stream closed with a context whose
    three queues are gone.  Whatever is called on the stream afterwards
    -- [close], [prepareToClose], [updateMetadata] -- fails with
    [EX_ILLEGAL_STATE], changes nothing and does nothing outside. *)
Theorem close_is_final wb (cs : list StreamCall) (s : StreamCommonImpl (Metadata := Metadata)) :
  isClosed s = false ->
  let r := close wb s in
  let closed := r.1.2 in
  r.1.1 = EX_NONE
  /\ isClosed closed = true
  /\ AudioModule.mCommandMQ (mContext closed) = None
  /\ AudioModule.mReplyMQ (mContext closed) = None
  /\ AudioModule.mDataMQ (mContext closed) = None
  /\ r.2
     = (if AudioModule.mCommandMQ (mContext s) is Some _
        then [CommandWrite (halReservedExit (getInternalCommandCookie s))
                (wb (halReservedExit (getInternalCommandCookie s)))]
        else [])
       ++ [WorkerStop]
  /\ runCalls wb cs closed
     = (replicate (length cs) EX_ILLEGAL_STATE, closed, []).
Proof.
  intros Hc r closed. subst closed r. unfold close. rewrite Hc.
  cbn [negb fst snd mContext reset isClosed mWorkerClosed
       AudioModule.mCommandMQ AudioModule.mReplyMQ AudioModule.mDataMQ].
  split; [done|]. split; [done|]. split; [done|]. split; [done|].
  split; [done|]. split.
  - unfold stopWorker. by destruct (AudioModule.mCommandMQ (mContext s)).
  - by apply closed_stream_refuses.
Qed.


End StreamLifecycle.

Section OffloadMetadata.
Context `{Headers}.
Context {SourceMetadata AudioOffloadInfo : Type}.
Import Streams.

(** X17.  [updateOffloadMetadata] stores only what it has checked:
    whatever metadata a client sends, in whatever order, the metadata
    the stream holds is always one with no negative sample rate, bit
    rate, delay or padding, if the metadata it started with was; a
    closed stream and a stream without offload info keep what they
    hold; and a call returns ok exactly when the stream is open, has
    offload info, and none of the four fields is negative. *)
Theorem offload_metadata_stays_checked (ms : list AudioOffloadMetadata)
    (s : StreamOut (SourceMetadata := SourceMetadata)
                   (AudioOffloadInfo := AudioOffloadInfo)) :
  let s' := updateAll ms s in
  (offloadMetadataChecked (mOffloadMetadata s) ->
   offloadMetadataChecked (mOffloadMetadata s'))
  /\ (isClosed (so_common s) = true \/ mOffloadInfo s = None -> s' = s)
  /\ so_common s' = so_common s
  /\ mOffloadInfo s' = mOffloadInfo s
  /\ forall m,
       fst (updateOffloadMetadata m s) = EX_NONE
       <-> (isClosed (so_common s) = false
            /\ is_Some (mOffloadInfo s)
            /\ offloadMetadataChecked (Some m)).
Proof.
  intros s'. subst s'.
  assert (Hstep : forall m (s : StreamOut (SourceMetadata := SourceMetadata)
                                        (AudioOffloadInfo := AudioOffloadInfo)),
    let s1 := snd (updateOffloadMetadata m s) in
    (offloadMetadataChecked (mOffloadMetadata s) ->
     offloadMetadataChecked (mOffloadMetadata s1))
    /\ (isClosed (so_common s) = true \/ mOffloadInfo s = None -> s1 = s)
    /\ so_common s1 = so_common s
    /\ mOffloadInfo s1 = mOffloadInfo s).
  { intros m s0. unfold updateOffloadMetadata.
    destruct (isClosed (so_common s0)); [cbn; intuition|].
    destruct (mOffloadInfo s0) as [info|] eqn:Hinfo; cbn [negb];
      [|rewrite bool_decide_eq_false_2 by (intros [? ?]; done);
        cbn; intuition].
    rewrite bool_decide_eq_true_2 by eauto. cbn [negb].
    repeat case_match; cbn; rewrite ?Hinfo; repeat split; try done;
      try lia; intros [?|?]; done. }
  split; [|split; [|split; [|split]]].
  - revert s. induction ms as [|m ms IH]; intros s Hs; [done|].
    cbn. apply IH. by apply Hstep.
  - revert s. induction ms as [|m ms IH]; intros s Hs; [done|].
    cbn. destruct (Hstep m s) as (_ & Hsame & _).
    unfold updateAll in IH. rewrite (Hsame Hs). by apply IH.
  - revert s. induction ms as [|m ms IH]; intros s; [done|].
    cbn. unfold updateAll in IH. rewrite IH. apply Hstep.
  - revert s. induction ms as [|m ms IH]; intros s; [done|].
    cbn. unfold updateAll in IH. rewrite IH. apply Hstep.
  - intros m. unfold updateOffloadMetadata.
    destruct (isClosed (so_common s)); [cbn; intuition; done|].
    destruct (mOffloadInfo s) as [info|]; cbn [negb];
      [|rewrite bool_decide_eq_false_2 by (intros [? ?]; done);
        cbn; split; [done|intros (_ & [? ?] & _); done]].
    rewrite bool_decide_eq_true_2 by eauto. cbn [negb].
    repeat case_match; cbn; split; try done; try (intros (_ & _ & ?); lia).
    intros _. repeat split; eauto; lia.
Qed.

End OffloadMetadata.

Section Microphones.
Context `{Headers}.
Context {AudioDevice : Type} `{EqDecision AudioDevice}.
Import Streams.

Lemma map_find_app m1 m2 (d : AudioDevice) :
  map_find (m1 ++ m2) d
  = if map_find m1 d is Some e then Some e else map_find m2 d.
Proof.
  unfold map_find. induction m1 as [|e m1 IH]; [done|].
  cbn. destruct (bool_decide (e.1 = d)); [done|apply IH].
Qed.

Lemma transformMicrophones_find (microphones : list (MicrophoneInfo (AudioDevice := AudioDevice))) d :
  map_find (transformMicrophones microphones) d
  = (fun mic => (mic_device mic, mic_id mic)) <$> firstMicrophoneOn microphones d.
Proof.
  unfold transformMicrophones.
  assert (Hgen : forall acc,
    map_find
      (fold_left (fun result mic => map_insert result (mic_device mic, mic_id mic))
                 microphones acc) d
    = if map_find acc d is Some e then Some e
      else (fun mic => (mic_device mic, mic_id mic))
             <$> firstMicrophoneOn microphones d).
  { induction microphones as [|mic mics IH]; intros acc.
    - cbn [fold_left]. by destruct (map_find acc d).
    - cbn [fold_left]. rewrite IH. unfold map_insert. cbn [fst].
      unfold firstMicrophoneOn. cbn [List.find].
      destruct (map_find acc (mic_device mic)) as [e|] eqn:Hacc.
      + destruct (map_find acc d) as [e'|] eqn:Hd; [done|].
        destruct (bool_decide (mic_device mic = d)) eqn:Hb; [|done].
        apply bool_decide_eq_true in Hb. subst d. congruence.
      + rewrite map_find_app.
        destruct (map_find acc d) as [e'|] eqn:Hd; [done|].
        unfold map_find at 1. cbn.
        destruct (bool_decide (mic_device mic = d)); done. }
  by rewrite Hgen.
Qed.

(** X18.  [getActiveMicrophones] on the map [transformMicrophones]
    builds: the vector returned has, for each connected device that has
    a microphone, in the order of the connected devices, one entry with
    the id of the first microphone listed for that device, and every
    entry maps each channel of the stream directly. *)
Theorem active_microphones_are_connected (channelCount : Z)
    (microphones : list (MicrophoneInfo (AudioDevice := AudioDevice))) (connected : list AudioDevice) :
  let result :=
    getActiveMicrophones channelCount (transformMicrophones microphones)
                         connected in
  dyn_id <$> result
  = omap (fun d => mic_id <$> firstMicrophoneOn microphones d) connected
  /\ Forall (fun dynMic =>
               dyn_channelMapping dynMic
               = replicate (Z.to_nat channelCount) DIRECT) result
  /\ (length result <= length connected)%nat.
Proof.
  intros result. subst result. unfold getActiveMicrophones.
  assert (Hgen : forall acc,
    let result :=
      fold_left
        (fun result device =>
           if map_find (transformMicrophones microphones) device
             is Some micIt
           then result ++ [{| dyn_id := micIt.2;
                              dyn_channelMapping :=
                                replicate (Z.to_nat channelCount) DIRECT |}]
           else result) connected acc in
    dyn_id <$> result
    = (dyn_id <$> acc)
      ++ omap (fun d => mic_id <$> firstMicrophoneOn microphones d) connected
    /\ (Forall (fun dynMic =>
                  dyn_channelMapping dynMic
                  = replicate (Z.to_nat channelCount) DIRECT) acc ->
        Forall (fun dynMic =>
                  dyn_channelMapping dynMic
                  = replicate (Z.to_nat channelCount) DIRECT) result)
    /\ (length result <= length acc + length connected)%nat).
  { induction connected as [|d ds IH]; intros acc.
    - cbn. rewrite app_nil_r. split; [done|]. split; [done|lia].
    - cbn [fold_left omap]. rewrite transformMicrophones_find.
      destruct (firstMicrophoneOn microphones d) as [mic|] eqn:Hmic; cbn;
        rewrite ?Hmic; cbn.
      + destruct (IH (acc ++ [{| dyn_id := mic_id mic;
                                 dyn_channelMapping :=
                                   replicate (Z.to_nat channelCount) DIRECT |}]))
          as (Hids & Hmap & Hlen).
        cbn zeta in *. split; [|split].
        * rewrite Hids, fmap_app. cbn. by rewrite <- app_assoc.
        * intros Hacc. apply Hmap. apply Forall_app. split; [done|].
          by constructor.
        * rewrite length_app in Hlen. cbn in Hlen. lia.
      + destruct (IH acc) as (Hids & Hmap & Hlen). cbn zeta in *.
        split; [done|]. split; [done|]. lia. }
  destruct (Hgen []) as (Hids & Hmap & Hlen). cbn zeta in *.
  split; [done|]. split; [by apply Hmap|]. cbn in Hlen. lia.
Qed.

End Microphones.
(** ** Module: port configs *)

Section PortConfigs.
Context `{ModuleHeaders}.
Import ModuleImpl.

Lemma generateDefaultPortConfig_spec (port : AudioPort) :
  let ok := (generateDefaultPortConfig port).1 in
  let config := (generateDefaultPortConfig port).2 in
  cfg_id config = 0
  /\ cfg_portId config = port_id port
  /\ (ok = true
      <-> exists profile rest,
            port_profiles port = profile :: rest
            /\ channelMasks profile <> [] /\ sampleRates profile <> [])
  /\ (ok = true ->
      supportedBy port config
      /\ cfg_flags config = Some (port_flags port)
      /\ cfg_ext config = port_ext port
      /\ cfg_gain config = None).
Proof.
  intros ok config. subst ok config. unfold generateDefaultPortConfig.
  destruct (port_profiles port) as [|profile rest] eqn:Hp.
  { cbn. repeat split; try done. intros (? & ? & ? & _); done. }
  destruct (channelMasks profile) as [|mask masks] eqn:Hm.
  { cbn. repeat split; try done. intros (? & ? & [= <- <-] & ? & _); done. }
  destruct (sampleRates profile) as [|rate rates] eqn:Hr.
  { cbn. repeat split; try done.
    intros (? & ? & [= <- <-] & _ & ?); done. }
  cbn. repeat split; try done.
  - intros _. exists profile, rest. rewrite Hm, Hr. done.
  - exists (profile_format profile), mask, rate, profile. cbn.
    repeat split; try done.
    + unfold findAudioProfile. rewrite Hp. cbn.
      by rewrite bool_decide_eq_true_2.
    + rewrite Hm. by left.
    + rewrite Hr. by left.
Qed.

(** X19.  The default config of a port fits the port.
    [generateDefaultPortConfig] succeeds exactly when the port has a
    first profile with a channel mask and a sample rate.  The config it
    makes then is one [findAudioProfile] finds a profile for, with a
    channel mask and a sample rate of that profile, the flags and the
    [ext] of the port; in every case the config has id 0 and the id of
    the port. *)
Theorem default_port_config_is_supported (port : AudioPort) :
  let ok := (generateDefaultPortConfig port).1 in
  let config := (generateDefaultPortConfig port).2 in
  cfg_id config = 0
  /\ cfg_portId config = port_id port
  /\ (ok = true
      <-> exists profile rest,
            port_profiles port = profile :: rest
            /\ channelMasks profile <> [] /\ sampleRates profile <> [])
  /\ (ok = true ->
      supportedBy port config
      /\ cfg_flags config = Some (port_flags port)
      /\ cfg_ext config = port_ext port
      /\ cfg_gain config = None).
Proof. exact (generateDefaultPortConfig_spec port). Qed.


Context (findPortById : list AudioPort -> Z -> option nat).
Context (findPortConfigById : list AudioPortConfig -> Z -> option nat).

Lemma applyRequested_spec (port : AudioPort) req base r :
  applyRequested port req base = Some r ->
  match r with
  | formatNotSupported sug => True
  | applied sug valid fully =>
      cfg_id sug = cfg_id base
      /\ cfg_portId sug = cfg_portId base
      /\ cfg_flags sug = cfg_flags base
      /\ (exists format profile,
            cfg_format sug = Some format
            /\ findAudioProfile port format = Some profile
            /\ (valid = true ->
                (cfg_format req = None \/ cfg_format req = Some format)
                /\ (cfg_flags req = None
                    \/ cfg_flags req = Some (port_flags port))
                /\ (forall mask, cfg_channelMask req = Some mask ->
                      cfg_channelMask sug = Some mask
                      /\ mask ∈ channelMasks profile)
                /\ (forall rate, cfg_sampleRate req = Some rate ->
                      cfg_sampleRate sug = Some rate
                      /\ rate ∈ sampleRates profile)))
      /\ (cfg_channelMask req = None ->
          cfg_channelMask sug = cfg_channelMask base)
      /\ (cfg_sampleRate req = None ->
          cfg_sampleRate sug = cfg_sampleRate base)
      /\ (is_Some (cfg_channelMask base) -> is_Some (cfg_channelMask sug))
      /\ (is_Some (cfg_sampleRate base) -> is_Some (cfg_sampleRate sug))
      /\ (fully = true ->
          is_Some (cfg_flags req) /\ is_Some (cfg_format req)
          /\ is_Some (cfg_channelMask req) /\ is_Some (cfg_sampleRate req))
  end.
Proof.
  unfold applyRequested. intros E.
  destruct (match cfg_flags req with
            | Some flags => _ | None => _ end) as [v0 f0] eqn:Hflags.
  assert (Hf0 : (v0 = true -> cfg_flags req = None
                              \/ cfg_flags req = Some (port_flags port))
                /\ (f0 = true -> is_Some (cfg_flags req))).
  { destruct (cfg_flags req) as [flags|].
    - destruct (bool_decide (flags = port_flags port)) eqn:Hb;
        cbn in Hflags; injection Hflags as <- <-.
      + apply bool_decide_eq_true in Hb. subst. eauto.
      + split; [done|eauto].
    - injection Hflags as <- <-. split; [auto|done]. }
  clear Hflags.
  destruct (match cfg_format req with
            | Some format => _ | None => _ end) as [[s1 v1] f1] eqn:Hformat.
  assert (Hs1 : cfg_id s1 = cfg_id base /\ cfg_portId s1 = cfg_portId base
                /\ cfg_flags s1 = cfg_flags base
                /\ cfg_channelMask s1 = cfg_channelMask base
                /\ cfg_sampleRate s1 = cfg_sampleRate base
                /\ (v1 = true ->
                    v0 = true
                    /\ (cfg_format req = None
                        \/ cfg_format req = cfg_format s1))
                /\ (f1 = true -> f0 = true /\ is_Some (cfg_format req))).
  { destruct (cfg_format req) as [format|].
    - destruct (findAudioProfile port format);
        injection Hformat as <- <- <-; cbn; repeat split; eauto.
      all: done.
    - injection Hformat as <- <- <-. repeat split; eauto. all: done. }
  clear Hformat.
  destruct Hs1 as (Hid1 & Hpid1 & Hfl1 & Hcm1 & Hsr1 & Hv1 & Hfu1).
  destruct (cfg_format s1) as [format|] eqn:Hfmt1; [cbn in E|done].
  destruct (findAudioProfile port format) as [profile|] eqn:Hprofile;
    [|by injection E as <-].
  destruct (match cfg_channelMask req with
            | Some channelMask => _ | None => _ end)
    as [[s2 v2] f2] eqn:Hmask.
  assert (Hs2 : cfg_id s2 = cfg_id s1 /\ cfg_portId s2 = cfg_portId s1
                /\ cfg_flags s2 = cfg_flags s1
                /\ cfg_format s2 = cfg_format s1
                /\ cfg_sampleRate s2 = cfg_sampleRate s1
                /\ cfg_ext s2 = cfg_ext s1
                /\ (cfg_channelMask req = None ->
                    cfg_channelMask s2 = cfg_channelMask s1)
                /\ (is_Some (cfg_channelMask s1) ->
                    is_Some (cfg_channelMask s2))
                /\ (v2 = true ->
                    v1 = true
                    /\ forall mask, cfg_channelMask req = Some mask ->
                         cfg_channelMask s2 = Some mask
                         /\ mask ∈ channelMasks profile)
                /\ (f2 = true -> f1 = true /\ is_Some (cfg_channelMask req))).
  { destruct (cfg_channelMask req) as [mask|].
    - unfold contains in Hmask.
      destruct (bool_decide (mask ∈ channelMasks profile)) eqn:Hb;
        injection Hmask as <- <- <-; cbn; repeat split; eauto; try done.
      all: intros; simplify_eq; try apply bool_decide_eq_true in Hb; done.
    - injection Hmask as <- <- <-. repeat split; eauto; done. }
  clear Hmask.
  destruct Hs2 as (Hid2 & Hpid2 & Hfl2 & Hfmt2 & Hsr2 & Hext2 & Hcm2 & Hcms2
                   & Hv2 & Hfu2).
  destruct (match cfg_sampleRate req with
            | Some sampleRate => _ | None => _ end)
    as [[s3 v3] f3] eqn:Hrate.
  assert (Hs3 : cfg_id s3 = cfg_id s2 /\ cfg_portId s3 = cfg_portId s2
                /\ cfg_flags s3 = cfg_flags s2
                /\ cfg_format s3 = cfg_format s2
                /\ cfg_channelMask s3 = cfg_channelMask s2
                /\ (cfg_sampleRate req = None ->
                    cfg_sampleRate s3 = cfg_sampleRate s2)
                /\ (is_Some (cfg_sampleRate s2) ->
                    is_Some (cfg_sampleRate s3))
                /\ (v3 = true ->
                    v2 = true
                    /\ forall rate, cfg_sampleRate req = Some rate ->
                         cfg_sampleRate s3 = Some rate
                         /\ rate ∈ sampleRates profile)
                /\ (f3 = true -> f2 = true /\ is_Some (cfg_sampleRate req))).
  { destruct (cfg_sampleRate req) as [rate|].
    - unfold contains in Hrate.
      destruct (bool_decide (rate ∈ sampleRates profile)) eqn:Hb;
        injection Hrate as <- <- <-; cbn; repeat split; eauto; try done.
      all: intros; simplify_eq; try apply bool_decide_eq_true in Hb; done.
    - injection Hrate as <- <- <-. repeat split; eauto; done. }
  clear Hrate.
  destruct Hs3 as (Hid3 & Hpid3 & Hfl3 & Hfmt3 & Hcm3 & Hsr3 & Hsrs3
                   & Hv3 & Hfu3).
  set (s4 := match cfg_gain req with
             | Some gain => set_cfg_gain (Some gain) s3
             | None => s3
             end) in E.
  assert (Hs4 : cfg_id s4 = cfg_id s3 /\ cfg_portId s4 = cfg_portId s3
                /\ cfg_flags s4 = cfg_flags s3
                /\ cfg_format s4 = cfg_format s3
                /\ cfg_channelMask s4 = cfg_channelMask s3
                /\ cfg_sampleRate s4 = cfg_sampleRate s3).
  { subst s4. destruct (cfg_gain req); done. }
  clearbody s4.
  destruct Hs4 as (Hid4 & Hpid4 & Hfl4 & Hfmt4 & Hcm4 & Hsr4).
  destruct (if negb (bool_decide (getTag (cfg_ext req) = tag_unspecified))
            then _ else _) as [s5 v5] eqn:Hext.
  assert (Hs5 : cfg_id s5 = cfg_id s4 /\ cfg_portId s5 = cfg_portId s4
                /\ cfg_flags s5 = cfg_flags s4
                /\ cfg_format s5 = cfg_format s4
                /\ cfg_channelMask s5 = cfg_channelMask s4
                /\ cfg_sampleRate s5 = cfg_sampleRate s4
                /\ (v5 = true -> v3 = true)).
  { repeat case_match; simplify_eq; done. }
  clear Hext.
  destruct Hs5 as (Hid5 & Hpid5 & Hfl5 & Hfmt5 & Hcm5 & Hsr5 & Hv5).
  injection E as <-.
  split; [congruence|]. split; [congruence|]. split; [congruence|].
  split.
  { exists format, profile. split; [congruence|]. split; [done|].
    intros Hv. destruct (Hv3 (Hv5 Hv)) as (Hv2' & Hrate).
    destruct (Hv2 Hv2') as (Hv1' & Hmask).
    destruct (Hv1 Hv1') as (Hv0' & Hreqf).
    split; [destruct Hreqf; [by left|right; congruence]|].
    split; [by apply Hf0|].
    split.
    - intros mask Hm. destruct (Hmask mask Hm). split; [congruence|done].
    - intros rate Hr. destruct (Hrate rate Hr). split; [congruence|done]. }
  split; [intros Hn; rewrite Hcm5, Hcm4, Hcm3, (Hcm2 Hn); done|].
  split; [intros Hn; rewrite Hsr5, Hsr4, (Hsr3 Hn), Hsr2; done|].
  split; [intros Hb; rewrite Hcm5, Hcm4, Hcm3; apply Hcms2; by rewrite Hcm1|].
  split; [intros Hb; rewrite Hsr5, Hsr4; apply Hsrs3; by rewrite Hsr2, Hsr1|].
  intros Hfu. destruct (Hfu3 Hfu) as (Hfu2' & ?).
  destruct (Hfu2 Hfu2') as (Hfu1' & ?).
  destruct (Hfu1 Hfu1') as (Hfu0' & ?).
  destruct Hf0 as (_ & Hf0). auto.
Qed.

Lemma setAudioPortConfig_cases (m : Module) req sug0 ret0 st m' sug ret :
  setAudioPortConfig findPortById findPortConfigById m req sug0 ret0
  = Some (st, m', sug, ret) ->
  (* an error, or not applied *)
  (m' = m /\ (st = EX_NONE -> ret = false)
   /\ (st <> EX_NONE -> st = EX_ILLEGAL_ARGUMENT /\ ret = ret0))
  \/ (* a new config *)
  (st = EX_NONE /\ ret = true /\ cfg_id req = 0
   /\ exists p port,
        findPortById (ports m) (cfg_portId req) = Some p
        /\ ports m !! p = Some port
        /\ (generateDefaultPortConfig port).1 = true
        /\ m' = with_portConfigs (portConfigs m ++ [sug])
                  (to_int32 (nextPortId m + 1)) m
        /\ cfg_id sug = nextPortId m
        /\ cfg_portId sug = port_id port
        /\ supportedBy port sug
        /\ cfg_flags sug = Some (port_flags port)
        /\ cfg_flags req = cfg_flags sug
        /\ cfg_format req = cfg_format sug
        /\ cfg_channelMask req = cfg_channelMask sug
        /\ cfg_sampleRate req = cfg_sampleRate sug)
  \/ (* an existing config, updated *)
  (st = EX_NONE /\ ret = true /\ cfg_id req <> 0
   /\ exists i old p port,
        findPortConfigById (portConfigs m) (cfg_id req) = Some i
        /\ portConfigs m !! i = Some old
        /\ findPortById (ports m) (cfg_portId old) = Some p
        /\ ports m !! p = Some port
        /\ m' = with_portConfigs (<[i := sug]> (portConfigs m))
                  (nextPortId m) m
        /\ cfg_id sug = cfg_id old
        /\ cfg_portId sug = cfg_portId old
        /\ is_Some (cfg_format sug ≫= findAudioProfile port)
        /\ cfg_flags sug = cfg_flags old
        /\ (is_Some (cfg_channelMask old) -> is_Some (cfg_channelMask sug))
        /\ (is_Some (cfg_sampleRate old) -> is_Some (cfg_sampleRate sug))).
Proof.
  unfold setAudioPortConfig. intros E.
  destruct (cfg_id req =? 0) eqn:Hid; cbn [negb andb] in E.
  - (* no existing config *)
    cbn in E.
    destruct (cfg_portId req =? 0) eqn:Hpid.
    { injection E as <- <- <- <-. left. split; [done|]. by split. }
    destruct (findPortById (ports m) (cfg_portId req)) as [p|] eqn:Hp.
    2:{ injection E as <- <- <- <-. left. split; [done|]. by split. }
    destruct (ports m !! p) as [port|] eqn:Hport; [cbn in E|done].
    pose proof (generateDefaultPortConfig_spec port) as Hdef.
    cbn zeta in Hdef.
    destruct (generateDefaultPortConfig port) as [ok def] eqn:Hgen.
    cbn [fst snd] in Hdef.
    destruct Hdef as (Hdid & Hdport & _ & Hdsup).
    destruct ok.
    2:{ injection E as <- <- <- <-. left. split; [done|]. by split. }
    destruct (Hdsup eq_refl) as (Hsup & Hdflags & Hdext & _). clear Hdsup.
    destruct (applyRequested port req def) as [r|] eqn:Happ; [cbn in E|done].
    apply applyRequested_spec in Happ.
    destruct r as [s|s valid fully].
    { injection E as <- <- <- <-. left. split; [done|]. by split. }
    destruct (valid && fully) eqn:Hvf.
    2:{ injection E as <- <- <- <-. left. split; [done|]. by split. }
    apply andb_true_iff in Hvf as [-> ->].
    injection E as <- <- <- <-. right. left.
    split; [done|]. split; [done|]. split; [lia|].
    exists p, port.
    destruct Happ as (Hsid & Hspid & Hsfl & (format & profile & Hsfmt & Hprof
                      & Hvalid) & _ & _ & _ & _ & Hfully).
    destruct (Hvalid eq_refl) as (Hrf & Hrfl & Hrm & Hrr).
    destruct (Hfully eq_refl) as ([fl Hfl] & [fm Hfm] & [mk Hmk] & [rt Hrt]).
    destruct (Hrm mk Hmk) as (Hsm & Hmin).
    destruct (Hrr rt Hrt) as (Hsr & Hrin).
    cbn.
    split; [done|]. split; [done|]. split; [by rewrite Hgen|]. split; [done|].
    split; [done|]. split; [congruence|].
    split; [exists format, mk, rt, profile; done|].
    split; [congruence|].
    split; [destruct Hrfl; congruence|].
    split; [destruct Hrf; congruence|].
    split; congruence.
  - (* an existing config *)
    destruct (findPortConfigById (portConfigs m) (cfg_id req)) as [i|] eqn:Hi;
      cbn [bool_decide decide_rel] in E.
    2:{ rewrite bool_decide_eq_true_2 in E by done.
        injection E as <- <- <- <-. left. split; [done|]. by split. }
    rewrite bool_decide_eq_false_2 in E by done.
    destruct (portConfigs m !! i) as [old|] eqn:Hold; [cbn in E|done].
    destruct (cfg_portId old =? 0) eqn:Hpid.
    { injection E as <- <- <- <-. left. split; [done|]. by split. }
    destruct (findPortById (ports m) (cfg_portId old)) as [p|] eqn:Hp.
    2:{ injection E as <- <- <- <-. left. split; [done|]. by split. }
    destruct (ports m !! p) as [port|] eqn:Hport; [cbn in E|done].
    destruct (applyRequested port req old) as [r|] eqn:Happ; [cbn in E|done].
    apply applyRequested_spec in Happ.
    destruct r as [s|s valid fully].
    { injection E as <- <- <- <-. left. split; [done|]. by split. }
    destruct valid.
    2:{ injection E as <- <- <- <-. left. split; [done|]. by split. }
    injection E as <- <- <- <-. right. right.
    split; [done|]. split; [done|]. split; [lia|].
    exists i, old, p, port.
    destruct Happ as (Hsid & Hspid & Hsfl & (format & profile & Hsfmt & Hprof
                      & _) & _ & _ & Hm & Hr & _).
    repeat split; try done.
    rewrite Hsfmt. cbn. rewrite Hprof. eauto.
Qed.

(** X20.  A port config [setAudioPortConfig] creates fits its port.
    When a request without id is applied, the new config is appended to
    the port configs under the id [nextPortId] had, which is advanced;
    it carries the id and the flags of the port [findById] returned for
    the requested port id, and a format, a channel mask and a sample
    rate that all come from one profile of that port; and the request
    had named exactly these flags, format, channel mask and sample
    rate. *)
Theorem created_port_config_is_supported (m : Module) req sug0 ret0 m' sug :
  setAudioPortConfig findPortById findPortConfigById m req sug0 ret0
  = Some (EX_NONE, m', sug, true) ->
  cfg_id req = 0 ->
  exists p port,
    findPortById (ports m) (cfg_portId req) = Some p
    /\ ports m !! p = Some port
    /\ portConfigs m' = portConfigs m ++ [sug]
    /\ nextPortId m' = to_int32 (nextPortId m + 1)
    /\ ports m' = ports m
    /\ cfg_id sug = nextPortId m
    /\ cfg_portId sug = port_id port
    /\ supportedBy port sug
    /\ cfg_flags sug = Some (port_flags port)
    /\ cfg_flags req = cfg_flags sug
    /\ cfg_format req = cfg_format sug
    /\ cfg_channelMask req = cfg_channelMask sug
    /\ cfg_sampleRate req = cfg_sampleRate sug.
Proof.
  intros E Hid.
  apply setAudioPortConfig_cases in E
    as [(_ & Hret & _) | [(_ & _ & _ & p & port & Hc) | (_ & _ & Hne & _)]].
  - specialize (Hret eq_refl). done.
  - exists p, port.
    destruct Hc as (? & ? & _ & -> & ? & ? & ? & ? & ? & ? & ? & ?).
    cbn. repeat split; done.
  - done.
Qed.

(** X21.  [setAudioPortConfig] keeps the port configs fit for opening
    streams: if every port config has a format, a channel mask, a sample
    rate and flags -- the optionals [createStreamContext] takes the value
    of -- then so has every port config afterwards, whatever was
    requested.  The ports are never changed, no config is ever removed,
    and unless the function returns ok with [*_aidl_return] true the
    module is left as it was. *)
Theorem setAudioPortConfig_keeps_configs_specified (m : Module) req sug0
    ret0 st m' sug ret :
  setAudioPortConfig findPortById findPortConfigById m req sug0 ret0
  = Some (st, m', sug, ret) ->
  (Forall fullySpecified (portConfigs m) ->
   Forall fullySpecified (portConfigs m'))
  /\ ports m' = ports m
  /\ (length (portConfigs m) <= length (portConfigs m'))%nat
  /\ (st <> EX_NONE \/ ret = false -> m' = m).
Proof.
  intros E.
  apply setAudioPortConfig_cases in E
    as [(-> & Hret & Herr)
       | [(-> & -> & _ & p & port & Hc)
         | (-> & -> & _ & i & old & p & port & Hc)]].
  - repeat split; try done.
  - destruct Hc as (_ & _ & _ & -> & _ & _ & Hsup & Hfl & _).
    cbn. rewrite length_app. cbn.
    split; [|split; [done|split; [lia|intros [?|?]; done]]].
    intros Hall. apply Forall_app. split; [done|].
    constructor; [|constructor].
    destruct Hsup as (format & mask & rate & profile & Hf & Hm & Hr & _).
    unfold fullySpecified. rewrite Hf, Hm, Hr, Hfl. eauto.
  - destruct Hc as (_ & Hold & _ & _ & -> & _ & _ & Hfmt & Hfl & Hm & Hr).
    cbn. rewrite length_insert.
    split; [|split; [done|split; [lia|intros [?|?]; done]]].
    intros Hall.
    pose proof (Forall_lookup_1 _ _ _ _ Hall Hold) as (Hof & Hom & Hor & Hofl).
    apply Forall_insert; [done|].
    unfold fullySpecified. rewrite Hfl.
    split; [|auto].
    destruct (cfg_format sug); [eauto|]. by destruct Hfmt.
Qed.

End PortConfigs.
(** ** Module: debug and vendor parameters, master mute *)

Section ModuleParameters.
Context `{ModuleHeaders}.
Import ModuleImpl.

(** The context [createStreamContext] leaves is the caller's, or a new
    one made from the arguments and the module. *)
Lemma createStreamContext_result (ms : AudioModule.ModuleState) alloc id n
    cb ecb ctx0 st ctx :
  AudioModule.createStreamContext ms alloc id n cb ecb ctx0 = Some (st, ctx) ->
  ctx = ctx0
  \/ (st = EX_NONE
      /\ AudioModule.ctx_mAsyncCallback ctx = cb
      /\ AudioModule.mOutEventCallback ctx = ecb
      /\ AudioModule.mDebugParameters ctx
         = {| transientStateDelayMs :=
                AudioModule.mDebug_streamTransientStateDelayMs ms;
              forceTransientBurst :=
                AudioModule.mVendorDebug_forceTransientBurst ms;
              forceSynchronousDrain :=
                AudioModule.mVendorDebug_forceSynchronousDrain ms |}
      /\ is_Some (AudioModule.mDataMQ ctx)).
Proof.
  unfold AudioModule.createStreamContext. intros E.
  destruct (n <=? 0); [left; congruence|].
  destruct (n <? kMinimumStreamBufferSizeFrames); [left; congruence|].
  destruct (AudioModule.portConfigById ms id) as [pc|]; [cbn in E|done].
  destruct (AudioModule.pc_format pc) as [format|]; [cbn in E|done].
  destruct (AudioModule.pc_channelMask pc) as [mask|]; [cbn in E|done].
  destruct (_ =? 0); [left; congruence|].
  destruct (_ <? _); [left; congruence|].
  destruct (AudioModule.pc_flags pc) as [flags|]; [cbn in E|done].
  match type of E with
  | (if ?c then _ else _) = _ => destruct c
  end; [|left; congruence].
  destruct (AudioModule.pc_sampleRate pc) as [rate|]; [cbn in E|done].
  match type of E with
  | (if ?c then _ else _) = _ => destruct c
  end; [|left; congruence].
  injection E as <- <-. right. cbn. eauto 10.
Qed.

Lemma setModuleDebug_step in_debug (m : Module) :
  let m' := (setModuleDebug in_debug m).2 in
  (0 <= streamTransientStateDelayMs (mDebug m) ->
   0 <= streamTransientStateDelayMs (mDebug m'))
  /\ (mConnectedDevicePorts m <> ∅ ->
      simulateDeviceConnections (mDebug m')
      = simulateDeviceConnections (mDebug m))
  /\ mConnectedDevicePorts m' = mConnectedDevicePorts m
  /\ ((setModuleDebug in_debug m).1 = EX_NONE -> mDebug m' = in_debug)
  /\ ((setModuleDebug in_debug m).1 <> EX_NONE -> m' = m).
Proof.
  unfold setModuleDebug.
  destruct (Bool.eqb _ _) eqn:Hsim; cbn [negb andb].
  - apply Bool.eqb_prop in Hsim.
    destruct (streamTransientStateDelayMs in_debug <? 0) eqn:Hneg; cbn;
      repeat split; try done; lia.
  - destruct (bool_decide (mConnectedDevicePorts m = ∅)) eqn:Hempty;
      cbn [negb].
    + apply bool_decide_eq_true in Hempty.
      destruct (streamTransientStateDelayMs in_debug <? 0) eqn:Hneg; cbn;
        repeat split; try done; lia.
    + cbn. repeat split; done.
Qed.

(** X22.  What [setModuleDebug] guards.  Starting from a module whose
    delay for transient states is not negative, after any calls of
    [setModuleDebug], with any arguments, the delay is not negative, so
    that no stream context [createStreamContext] makes gets a negative
    delay; and while external devices are connected, no call changes
    whether device connections are simulated.  A call that does not
    return ok leaves the module as it was. *)
Theorem module_debug_stays_valid (debugs : list ModuleDebug) (m : Module)
    findPortConfigById :
  0 <= streamTransientStateDelayMs (mDebug m) ->
  let m' := fold_left (fun m d => (setModuleDebug d m).2) debugs m in
  0 <= streamTransientStateDelayMs (mDebug m')
  /\ (mConnectedDevicePorts m <> ∅ ->
      simulateDeviceConnections (mDebug m')
      = simulateDeviceConnections (mDebug m))
  /\ (forall d, (setModuleDebug d m).1 <> EX_NONE -> (setModuleDebug d m).2 = m)
  /\ (forall alloc id n cb ecb ctx0 ctx,
        AudioModule.createStreamContext (toModuleState findPortConfigById m')
          alloc id n cb ecb ctx0 = Some (EX_NONE, ctx) ->
        0 <= transientStateDelayMs (AudioModule.mDebugParameters ctx0) ->
        0 <= transientStateDelayMs (AudioModule.mDebugParameters ctx)).
Proof.
  intros Hm m'. subst m'.
  assert (Hinv : forall (m0 : Module),
    0 <= streamTransientStateDelayMs (mDebug m0) ->
    let m' := fold_left (fun m d => (setModuleDebug d m).2) debugs m0 in
    0 <= streamTransientStateDelayMs (mDebug m')
    /\ (mConnectedDevicePorts m0 <> ∅ ->
        simulateDeviceConnections (mDebug m')
        = simulateDeviceConnections (mDebug m0))).
  { induction debugs as [|d ds IH]; intros m0 Hm0; [done|].
    cbn [fold_left].
    destruct (setModuleDebug_step d m0) as (Hd & Hs & Hc & _).
    cbn zeta in *.
    destruct (IH (setModuleDebug d m0).2 (Hd Hm0)) as (IH1 & IH2).
    split; [done|]. intros Hne. rewrite IH2 by (by rewrite Hc). auto. }
  destruct (Hinv m Hm) as (Hdelay & Hsim). cbn zeta in *.
  split; [done|]. split; [done|]. split.
  { intros d. apply setModuleDebug_step. }
  intros alloc id n cb ecb ctx0 ctx E Hctx0.
  apply createStreamContext_result in E as [-> | (_ & _ & _ & -> & _)];
    [done|]. cbn. done.
Qed.

(** X23.  [setMasterMute] keeps the hook in step with the module: when
    device connections are not simulated, the last call to
    [onMasterMuteChanged] is made with the mute the module holds after
    the call -- the new one when the hook accepted it, the old one, in
    a second call, when it did not --; when they are simulated the hook
    is not called and the mute is always taken.  [getMasterMute]
    returns the mute asked for exactly when [setMasterMute] returned ok
    or the mute was that already. *)
Theorem master_mute_in_step onMasterMuteChanged in_mute (m : Module) :
  let r := setMasterMute onMasterMuteChanged in_mute m in
  let status := r.1.1 in
  let m' := r.1.2 in
  let calls := r.2 in
  (if simulateDeviceConnections (mDebug m)
   then calls = [] /\ status = EX_NONE
   else last calls = Some (mMasterMute m')
        /\ status = onMasterMuteChanged in_mute
        /\ head calls = Some in_mute)
  /\ (status = EX_NONE -> mMasterMute m' = in_mute)
  /\ (status <> EX_NONE -> m' = m)
  /\ ((getMasterMute m').2 = in_mute
      <-> (status = EX_NONE \/ mMasterMute m = in_mute))
  /\ mDebug m' = mDebug m.
Proof.
  intros r status m' calls. subst r status m' calls.
  unfold setMasterMute, getMasterMute.
  destruct (simulateDeviceConnections (mDebug m)); cbn.
  - repeat split; try done. auto.
  - destruct (onMasterMuteChanged in_mute) eqn:Hhook; cbn;
      repeat split; try done; auto; intros [?|?]; done.
Qed.

Lemma setVendorParametersFrom_spec ps : forall known vd,
  (forall p, p ∈ ps -> isKnownParameter (vp_id p) = true ->
             is_Some (extractParameter p)) ->
  setVendorParametersFrom ps known vd
  = (if known && forallb (fun p => isKnownParameter (vp_id p)) ps
     then EX_NONE else EX_ILLEGAL_ARGUMENT,
     {| vd_forceTransientBurst :=
          lastBoolean kForceTransientBurstName ps (vd_forceTransientBurst vd);
        vd_forceSynchronousDrain :=
          lastBoolean kForceSynchronousDrainName ps
                      (vd_forceSynchronousDrain vd) |}).
Proof.
  induction ps as [|p ps IH]; intros known vd Hok.
  - cbn. rewrite andb_true_r. by destruct vd.
  - cbn [setVendorParametersFrom forallb].
    assert (Hps : forall q, q ∈ ps -> isKnownParameter (vp_id q) = true ->
                            is_Some (extractParameter q)).
    { intros q Hq. apply Hok. by right. }
    specialize (Hok p ltac:(by left)).
    unfold isKnownParameter in *. unfold lastBoolean. cbn [fold_left].
    fold (lastBoolean kForceTransientBurstName ps).
    fold (lastBoolean kForceSynchronousDrainName ps).
    destruct (bool_decide (vp_id p = kForceTransientBurstName)) eqn:Hb1.
    + destruct (Hok eq_refl) as [v Hv]. rewrite Hv.
      apply bool_decide_eq_true in Hb1.
      assert (bool_decide (vp_id p = kForceSynchronousDrainName) = false)
        as Hb2 by (rewrite Hb1; done).
      rewrite Hb2. unfold extractParameter in Hv.
      destruct (vp_ext p); simplify_eq.
      rewrite IH by done. cbn. done.
    + destruct (bool_decide (vp_id p = kForceSynchronousDrainName)) eqn:Hb2.
      * destruct (Hok eq_refl) as [v Hv]. rewrite Hv.
        unfold extractParameter in Hv.
        destruct (vp_ext p); simplify_eq.
        rewrite IH by done. cbn. done.
      * rewrite IH by done. cbn. by rewrite andb_false_r.
Qed.

(** X24.  Vendor parameters round trip.  When every parameter of a list
    that has one of the two known ids holds a [Boolean],
    [setVendorParameters] returns ok exactly when all the ids are known,
    and -- ok or not -- [getVendorParameters] for the two ids then
    returns, in order, for each id the value of the last parameter of
    the list with that id, or the value the module had when the list has
    none; and these are the two flags a stream context made afterwards
    carries. *)
Theorem vendor_parameters_round_trip ps in_async (m : Module)
    findPortConfigById :
  (forall p, p ∈ ps -> isKnownParameter (vp_id p) = true ->
             is_Some (extractParameter p)) ->
  let r := setVendorParameters ps in_async m in
  let m' := r.2 in
  let burst :=
    lastBoolean kForceTransientBurstName ps
      (vd_forceTransientBurst (mVendorDebug m)) in
  let drain :=
    lastBoolean kForceSynchronousDrainName ps
      (vd_forceSynchronousDrain (mVendorDebug m)) in
  (r.1 = EX_NONE
   <-> forallb (fun p => isKnownParameter (vp_id p)) ps = true)
  /\ getVendorParameters
       [kForceTransientBurstName; kForceSynchronousDrainName] [] m'
     = (EX_NONE,
        [ {| vp_id := kForceTransientBurstName; vp_ext := holdsBoolean burst |};
          {| vp_id := kForceSynchronousDrainName;
             vp_ext := holdsBoolean drain |} ])
  /\ AudioModule.mVendorDebug_forceTransientBurst
       (toModuleState findPortConfigById m') = burst
  /\ AudioModule.mVendorDebug_forceSynchronousDrain
       (toModuleState findPortConfigById m') = drain
  /\ mDebug m' = mDebug m.
Proof.
  intros Hok r m' burst drain. subst r m' burst drain.
  unfold setVendorParameters.
  rewrite (setVendorParametersFrom_spec ps true (mVendorDebug m) Hok).
  cbn [andb fst snd].
  split; [by destruct (forallb _ ps)|].
  split; [|done].
  unfold getVendorParameters. cbn. done.
Qed.

End ModuleParameters.
(** ** Module: opening streams *)

Section OpenStreams.
Context `{ModuleHeaders}.
Import ModuleImpl.
Context (findPortById : list AudioPort -> Z -> option nat).
Context (findPortConfigById : list AudioPortConfig -> Z -> option nat).

Lemma findPortIdForNewStream_spec (m : Module) id st found :
  findPortIdForNewStream findPortById findPortConfigById m id
  = Some (st, found) ->
  match found with
  | None => st = EX_ILLEGAL_ARGUMENT \/ st = EX_ILLEGAL_STATE
  | Some port =>
      st = EX_NONE
      /\ exists i config p handle maxOpenStreamCount,
           findPortConfigById (portConfigs m) id = Some i
           /\ portConfigs m !! i = Some config
           /\ cfg_portId config <> id
           /\ findPortById (ports m) (cfg_portId config) = Some p
           /\ ports m !! p = Some port
           /\ mStreams_count m id = 0
           /\ port_ext port = ext_mix handle maxOpenStreamCount
           /\ (maxOpenStreamCount = 0
               \/ mStreams_count m (cfg_portId config)
                  < to_size_t maxOpenStreamCount)
  end.
Proof.
  unfold findPortIdForNewStream. intros E.
  destruct (findPortConfigById (portConfigs m) id) as [i|] eqn:Hi;
    [|injection E as <- <-; by left].
  destruct (portConfigs m !! i) as [config|] eqn:Hc; [cbn in E|done].
  destruct (cfg_portId config =? id) eqn:Hne; [done|].
  destruct (findPortById (ports m) (cfg_portId config)) as [p|] eqn:Hp;
    [|injection E as <- <-; by left].
  destruct (mStreams_count m id =? 0) eqn:Hcount; cbn [negb] in E;
    [|injection E as <- <-; by right].
  destruct (ports m !! p) as [port|] eqn:Hport; [cbn in E|done].
  destruct (port_ext port) as [|?|handle maxOpenStreamCount|?] eqn:Hext;
    try (injection E as <- <-; by left).
  destruct (maxOpenStreamCount =? 0) eqn:Hmax; cbn [negb andb] in E.
  - injection E as <- <-. split; [done|].
    exists i, config, p, handle, maxOpenStreamCount.
    repeat split; try done; try lia; try (left; lia).
  - destruct (to_size_t maxOpenStreamCount
                <=? mStreams_count m (cfg_portId config)) eqn:Hfull;
      injection E as <- <-; [by right|].
    split; [done|].
    exists i, config, p, handle, maxOpenStreamCount.
    repeat split; try done; try lia; try (right; lia).
Qed.

(** X25.  What the stream of an output port gets.  When
    [openOutputStream] inserts a stream, it returned ok, the port of the
    port config is an output mix port that had no stream on that config,
    the descriptor returned is the one filled from the stream's context,
    and a port with [COMPRESS_OFFLOAD] was given offload info.  If the
    context has a data queue, its asynchronous callback is the caller's
    when the port has [NON_BLOCKING], which then is not null, and null
    when it has not; its event callback is the caller's, and its debug
    parameters are the module's.  When no stream is inserted the status
    is not ok, or the stream creator refused. *)
Theorem output_stream_context (m : Module) alloc ctx0 createStream id n
    hasOffloadInfo cb ecb desc st desc' opened :
  openOutputStream findPortById findPortConfigById m alloc ctx0 createStream
    id n hasOffloadInfo cb ecb desc
  = Some (st, desc', opened) ->
  AudioModule.mDataMQ ctx0 = None ->
  match opened with
  | None => st <> EX_NONE
  | Some s =>
      st = EX_NONE
      /\ os_portConfigId s = id
      /\ os_setConnected s = mPatches_isPatched m id
      /\ mStreams_count m id = 0
      /\ desc' = AudioModule.fillDescriptor (os_context s) desc
      /\ createStream (os_context s) = EX_NONE
      /\ exists i config p port mask,
           findPortConfigById (portConfigs m) id = Some i
           /\ portConfigs m !! i = Some config
           /\ findPortById (ports m) (cfg_portId config) = Some p
           /\ ports m !! p = Some port
           /\ os_portId s = port_id port
           /\ port_flags port = output mask
           /\ getTag (port_ext port) = tag_mix
           /\ (isBitPositionFlagSet mask AudioOutputFlags_COMPRESS_OFFLOAD
               = true -> hasOffloadInfo = true)
           /\ (isBitPositionFlagSet mask AudioOutputFlags_NON_BLOCKING
               = true -> is_Some cb)
           /\ (is_Some (AudioModule.mDataMQ (os_context s)) ->
               AudioModule.ctx_mAsyncCallback (os_context s)
               = (if isBitPositionFlagSet mask AudioOutputFlags_NON_BLOCKING
                  then cb else None)
               /\ AudioModule.mOutEventCallback (os_context s) = ecb
               /\ AudioModule.mDebugParameters (os_context s)
                  = {| transientStateDelayMs :=
                         streamTransientStateDelayMs (mDebug m);
                       forceTransientBurst :=
                         vd_forceTransientBurst (mVendorDebug m);
                       forceSynchronousDrain :=
                         vd_forceSynchronousDrain (mVendorDebug m) |})
  end.
Proof.
  unfold openOutputStream. intros E Hq0.
  destruct (findPortIdForNewStream findPortById findPortConfigById m id)
    as [[fst found]|] eqn:Hfind; [cbn in E|done].
  apply findPortIdForNewStream_spec in Hfind.
  destruct found as [port|].
  2:{ destruct Hfind as [-> | ->]; by injection E as <- <- <-. }
  destruct Hfind as (-> & i & config & p & handle & maxOpen & Hi & Hc & Hne
                     & Hp & Hport & Hcount & Hext & _).
  destruct (port_flags port) as [mask|mask] eqn:Hflags;
    [by injection E as <- <- <-|].
  destruct (isBitPositionFlagSet mask AudioOutputFlags_COMPRESS_OFFLOAD
            && negb hasOffloadInfo) eqn:Hoff;
    [by injection E as <- <- <-|].
  destruct (isBitPositionFlagSet mask AudioOutputFlags_NON_BLOCKING
            && bool_decide (cb = None)) eqn:Hnb;
    [by injection E as <- <- <-|].
  destruct (AudioModule.createStreamContext _ _ _ _ _ _ _)
    as [[cst ctx]|] eqn:Hctx; [cbn in E|done].
  destruct cst; try by injection E as <- <- <-.
  destruct (createStream ctx) eqn:Hcreate; try by injection E as <- <- <-.
  injection E as <- <- <-. cbn.
  repeat split; try done.
  exists i, config, p, port, mask. rewrite Hext. cbn.
  repeat split; try done.
  1:{ intros Hx. rewrite Hx in Hoff. by destruct hasOffloadInfo. }
  1:{ intros Hx. rewrite Hx in Hnb. cbn in Hnb.
      apply bool_decide_eq_false in Hnb. by destruct cb. }
  all: match goal with
       | Hq : is_Some (AudioModule.mDataMQ _) |- _ =>
           apply createStreamContext_result in Hctx
             as [-> | (_ & Hcb & Hecb & Hdbg & _)];
           [rewrite Hq0 in Hq; by destruct Hq | done]
       end.
Qed.

(** X26.  What the stream of an input port gets: when [openInputStream]
    inserts a stream, the port of the port config is an input mix port,
    and a context with a data queue has neither an asynchronous nor an
    event callback, so that the worker of a capture stream never reports
    to a callback. *)
Theorem input_stream_context (m : Module) alloc ctx0 createStream id n desc
    st desc' opened :
  openInputStream findPortById findPortConfigById m alloc ctx0 createStream
    id n desc
  = Some (st, desc', opened) ->
  AudioModule.mDataMQ ctx0 = None ->
  match opened with
  | None => st <> EX_NONE
  | Some s =>
      st = EX_NONE
      /\ os_portConfigId s = id
      /\ os_setConnected s = mPatches_isPatched m id
      /\ mStreams_count m id = 0
      /\ desc' = AudioModule.fillDescriptor (os_context s) desc
      /\ createStream (os_context s) = EX_NONE
      /\ exists i config p port mask,
           findPortConfigById (portConfigs m) id = Some i
           /\ portConfigs m !! i = Some config
           /\ findPortById (ports m) (cfg_portId config) = Some p
           /\ ports m !! p = Some port
           /\ os_portId s = port_id port
           /\ port_flags port = input mask
           /\ getTag (port_ext port) = tag_mix
           /\ (is_Some (AudioModule.mDataMQ (os_context s)) ->
               AudioModule.ctx_mAsyncCallback (os_context s) = None
               /\ AudioModule.mOutEventCallback (os_context s) = None)
  end.
Proof.
  unfold openInputStream. intros E Hq0.
  destruct (findPortIdForNewStream findPortById findPortConfigById m id)
    as [[fst found]|] eqn:Hfind; [cbn in E|done].
  apply findPortIdForNewStream_spec in Hfind.
  destruct found as [port|].
  2:{ destruct Hfind as [-> | ->]; by injection E as <- <- <-. }
  destruct Hfind as (-> & i & config & p & handle & maxOpen & Hi & Hc & Hne
                     & Hp & Hport & Hcount & Hext & _).
  destruct (port_flags port) as [mask|mask] eqn:Hflags;
    [|by injection E as <- <- <-].
  destruct (AudioModule.createStreamContext _ _ _ _ _ _ _)
    as [[cst ctx]|] eqn:Hctx; [cbn in E|done].
  destruct cst; try by injection E as <- <- <-.
  destruct (createStream ctx) eqn:Hcreate; try by injection E as <- <- <-.
  injection E as <- <- <-. cbn.
  repeat split; try done.
  exists i, config, p, port, mask. rewrite Hext. cbn.
  repeat split; try done.
  all: match goal with
       | Hq : is_Some (AudioModule.mDataMQ _) |- _ =>
           apply createStreamContext_result in Hctx
             as [-> | (_ & Hcb & Hecb & Hdbg & _)];
           [rewrite Hq0 in Hq; by destruct Hq | done]
       end.
Qed.



End OpenStreams.
Lemma init_accepts_created_context_witness :
  let r := StreamWorkerCommonLogic.init (H := reference_headers)
             (AudioModule.mCommandMQ sample_context)
             (AudioModule.mReplyMQ sample_context)
             (AudioModule.mDataMQ sample_context)
             (Some (fun _ => 0)) OK (sample_worker STANDBY None) in
  result r = ""%string
  /\ mDataBufferSize (worker r) = 4096
  /\ Z.of_nat (length (mDataBuffer (worker r))) = 4096.
Proof.
  pose proof (init_accepts_created_context (H := reference_headers)
                sample_module (queues true true true) 1 1024 None None
                empty_context sample_context
                {| getQuantumCount := 4096; getQuantumSize := 1;
                   mq_isValid := true |}
                (fun _ => 0) (sample_worker STANDBY None)
                reference_headers_in_range eq_refl eq_refl eq_refl)
    as (Hmsg & Hsize & _ & Hlen).
  cbn zeta. split; [exact Hmsg|].
  rewrite Hlen. split; exact Hsize.
Defined.

Lemma close_is_final_witness :
  let r := Streams.close (fun _ => true) sample_stream in
  r.1.1 = EX_NONE
  /\ Streams.isClosed r.1.2 = true
  /\ r.2 = [CommandWrite (halReservedExit 12345) true; WorkerStop]
  /\ Streams.runCalls (fun _ => true)
       [Streams.call_close; Streams.call_updateMetadata 7;
        Streams.call_prepareToClose] r.1.2
     = ([EX_ILLEGAL_STATE; EX_ILLEGAL_STATE; EX_ILLEGAL_STATE], r.1.2, []).
Proof.
  pose proof (close_is_final (H := reference_headers) (fun _ => true)
                [Streams.call_close; Streams.call_updateMetadata 7;
                 Streams.call_prepareToClose] sample_stream eq_refl)
    as (Hst & Hcl & _ & _ & _ & Hev & Hrun).
  split; [exact Hst|]. split; [exact Hcl|]. split; [exact Hev|exact Hrun].
Defined.



Lemma created_port_config_is_supported_witness :
  exists sug,
    ModuleImpl.portConfigs sample_hal_configured = [sug]
    /\ ModuleImpl.cfg_id sug = 10
    /\ ModuleImpl.cfg_portId sug = 2
    /\ ModuleImpl.supportedBy sample_output_port sug.
Proof.
  destruct (ModuleImpl.setAudioPortConfig sample_findPortById
              sample_findPortConfigById sample_hal sample_request
              ModuleImpl.defaultPortConfig false)
    as [[[[st m'] sug] ret]|] eqn:E; [|discriminate E].
  assert (Hst : st = EX_NONE /\ ret = true /\ sample_hal_configured = m').
  { unfold sample_hal_configured. rewrite E.
    injection E as <- _ _ <-. done. }
  destruct Hst as (-> & -> & ->).
  destruct (created_port_config_is_supported
              (H0 := reference_module_headers) _ _ _ _ _ _ _ _ E eq_refl)
    as (p & port & Hp & Hport & Hcfg & _ & _ & Hid & Hpid & Hsup & _).
  injection Hp as <-. injection Hport as <-.
  exists sug. split; [exact Hcfg|]. split; [exact Hid|].
  split; [exact Hpid|exact Hsup].
Defined.

Lemma setAudioPortConfig_keeps_configs_specified_witness :
  Forall ModuleImpl.fullySpecified (ModuleImpl.portConfigs sample_hal_configured)
  /\ ModuleImpl.ports sample_hal_configured = ModuleImpl.ports sample_hal.
Proof.
  destruct (ModuleImpl.setAudioPortConfig sample_findPortById
              sample_findPortConfigById sample_hal sample_request
              ModuleImpl.defaultPortConfig false)
    as [[[[st m'] sug] ret]|] eqn:E; [|discriminate E].
  assert (Hm : sample_hal_configured = m').
  { unfold sample_hal_configured. by rewrite E. }
  rewrite Hm.
  destruct (setAudioPortConfig_keeps_configs_specified
              (H0 := reference_module_headers) _ _ _ _ _ _ _ _ _ _ E)
    as (Hall & Hports & _).
  split; [apply Hall; constructor | exact Hports].
Defined.

Lemma module_debug_stays_valid_witness :
  let m' :=
    fold_left (fun m d => (ModuleImpl.setModuleDebug d m).2)
      [ {| simulateDeviceConnections := true;
           streamTransientStateDelayMs := 500 |};
        {| simulateDeviceConnections := false;
           streamTransientStateDelayMs := -1 |} ]
      sample_hal in
  0 <= streamTransientStateDelayMs (ModuleImpl.mDebug m').
Proof.
  apply (module_debug_stays_valid (H0 := reference_module_headers)
           [ {| simulateDeviceConnections := true;
                streamTransientStateDelayMs := 500 |};
             {| simulateDeviceConnections := false;
                streamTransientStateDelayMs := -1 |} ]
           sample_hal sample_findPortConfigById).
  cbn. lia.
Defined.

Lemma vendor_parameters_round_trip_witness :
  let ps :=
    [ {| vp_id := kForceTransientBurstName; vp_ext := holdsBoolean true |};
      {| vp_id := "vendor.unknown"; vp_ext := holdsNothing |} ] in
  let r := ModuleImpl.setVendorParameters ps false sample_hal in
  (r.1 = EX_NONE
   <-> forallb (fun p => ModuleImpl.isKnownParameter (vp_id p)) ps = true)
  /\ ModuleImpl.getVendorParameters
       [kForceTransientBurstName; kForceSynchronousDrainName] [] r.2
     = (EX_NONE,
        [ {| vp_id := kForceTransientBurstName; vp_ext := holdsBoolean true |};
          {| vp_id := kForceSynchronousDrainName;
             vp_ext := holdsBoolean false |} ]).
Proof.
  pose proof (vendor_parameters_round_trip (H0 := reference_module_headers)
                [ {| vp_id := kForceTransientBurstName;
                     vp_ext := holdsBoolean true |};
                  {| vp_id := "vendor.unknown"; vp_ext := holdsNothing |} ]
                false sample_hal sample_findPortConfigById) as Hres.
  destruct Hres as (Hst & Hget & _).
  { intros p Hp Hk.
    apply elem_of_cons in Hp as [-> | Hp]; [by eexists|].
    apply list_elem_of_singleton in Hp as ->. discriminate Hk. }
  split; [exact Hst|exact Hget].
Defined.
Lemma output_stream_context_witness :
  exists desc' s,
    ModuleImpl.openOutputStream sample_findPortById sample_findPortConfigById
      sample_hal_ready (queues true true true) empty_context
      (fun _ => EX_NONE) 10 1024 false (Some (StreamCallback 0)) None
      empty_descriptor
    = Some (EX_NONE, desc', Some s)
    /\ ModuleImpl.os_portConfigId s = 10
    /\ desc' = AudioModule.fillDescriptor (ModuleImpl.os_context s)
                 empty_descriptor.
Proof.
  destruct (ModuleImpl.openOutputStream sample_findPortById
              sample_findPortConfigById sample_hal_ready
              (queues true true true) empty_context (fun _ => EX_NONE)
              10 1024 false (Some (StreamCallback 0)) None empty_descriptor)
    as [[[st desc'] opened]|] eqn:E; [|discriminate E].
  pose proof (output_stream_context (H0 := reference_module_headers)
                _ _ _ _ _ _ _ _ _ _ _ _ _ _ _ E eq_refl) as Hres.
  destruct opened as [s|]; [|discriminate E].
  destruct Hres as (-> & Hid & _ & _ & Hdesc & _).
  exists desc', s. split; [reflexivity|]. split; [exact Hid|exact Hdesc].
Defined.

Lemma input_stream_context_witness :
  exists desc' s,
    ModuleImpl.openInputStream sample_findPortById sample_findPortConfigById
      sample_hal_ready (queues true true true) empty_context
      (fun _ => EX_NONE) 11 1024 empty_descriptor
    = Some (EX_NONE, desc', Some s)
    /\ ModuleImpl.os_portConfigId s = 11
    /\ desc' = AudioModule.fillDescriptor (ModuleImpl.os_context s)
                 empty_descriptor.
Proof.
  destruct (ModuleImpl.openInputStream sample_findPortById
              sample_findPortConfigById sample_hal_ready
              (queues true true true) empty_context (fun _ => EX_NONE)
              11 1024 empty_descriptor)
    as [[[st desc'] opened]|] eqn:E; [|discriminate E].
  pose proof (input_stream_context (H0 := reference_module_headers)
                _ _ _ _ _ _ _ _ _ _ _ _ E eq_refl) as Hres.
  destruct opened as [s|]; [|discriminate E].
  destruct Hres as (-> & Hid & _ & _ & Hdesc & _).
  exists desc', s. split; [reflexivity|]. split; [exact Hid|exact Hdesc].
Defined.



